(** * llm2git response processor: a shallow embedding and its properties

    The development embeds [src/llm2git/processor.py]
    ([LLMResponseProcessor]) in Gallina and proves properties of the
    response-interpretation pipeline: format classification, the shape
    parsers, the patch extractor, the commit-message extractor and the
    assembler [parse_response].

    Modelling conventions.
    - A Python [str] is a list of Unicode code points ([pystr]).
    - Python exceptions are the [Raise] branch of [pyresult].
    - Dynamically typed values (what [json.loads] returns, what the
      parsers build) are the inductive [value]; a [dict] is an
      insertion-ordered association list.
    - The regular expressions of the source are abstract syntax trees run
      by a backtracking matcher with the priorities of Python's [re]
      (leftmost match, greedy and lazy repetition, alternation in order).
    - [json.loads], [yaml.safe_load] and the Unicode tables beyond ASCII
      are not part of the repository; they are variables of the section. *)

From Stdlib Require Import List NArith ZArith Bool Arith Lia String Ascii.
Import ListNotations.

Set Warnings "-register-all".
Set Default Proof Using "Type".

(* ================================================================= *)
(** ** Characters and strings *)

Definition char := N.
Definition pystr := list char.

Definition ch (a : ascii) : char := N_of_ascii a.

Definition NL : char := 10%N.
Definition QUOTE : char := 34%N.
Definition ARROW : char := 8594%N.

(** Decoding of a UTF-8 byte sequence into code points (well-formed
    input is assumed; a stray byte is kept as it is). *)
Fixpoint utf8_decode (fuel : nat) (l : list N) : pystr :=
  match fuel with
  | O => []
  | S f =>
      match l with
      | [] => []
      | b0 :: t =>
          if (b0 <? 128)%N then b0 :: utf8_decode f t
          else if (b0 <? 224)%N then
            match t with
            | b1 :: t' => ((b0 - 192) * 64 + (b1 - 128))%N :: utf8_decode f t'
            | _ => b0 :: utf8_decode f t
            end
          else if (b0 <? 240)%N then
            match t with
            | b1 :: b2 :: t' =>
                ((b0 - 224) * 4096 + (b1 - 128) * 64 + (b2 - 128))%N :: utf8_decode f t'
            | _ => b0 :: utf8_decode f t
            end
          else
            match t with
            | b1 :: b2 :: b3 :: t' =>
                ((b0 - 240) * 262144 + (b1 - 128) * 4096 + (b2 - 128) * 64 + (b3 - 128))%N
                  :: utf8_decode f t'
            | _ => b0 :: utf8_decode f t
            end
      end
  end.

(** Backslash escapes of string literals: [\n] newline, [\t] tab,
    [\q] the double quote, [\\] a backslash. *)
Fixpoint unescape (l : pystr) : pystr :=
  match l with
  | 92%N :: 110%N :: t => NL :: unescape t
  | 92%N :: 116%N :: t => 9%N :: unescape t
  | 92%N :: 113%N :: t => QUOTE :: unescape t
  | 92%N :: 92%N :: t => 92%N :: unescape t
  | c :: t => c :: unescape t
  | [] => []
  end.

Definition bytes_of (x : string) : list N := map N_of_ascii (list_ascii_of_string x).

(** [raw x] is the text of [x] as it stands (the analogue of a Python raw
    string); [py x] also interprets the escapes. *)
Definition raw (x : string) : pystr :=
  let b := bytes_of x in utf8_decode (List.length b) b.

Definition py (x : string) : pystr := unescape (raw x).

Definition str_eq_dec : forall a b : pystr, {a = b} + {a <> b} := list_eq_dec N.eq_dec.

Fixpoint str_eqb (a b : pystr) : bool :=
  match a, b with
  | [], [] => true
  | x :: a', y :: b' => (x =? y)%N && str_eqb a' b'
  | _, _ => false
  end.

(** [str.isspace] on one code point ([Py_UNICODE_ISSPACE]); also the class
    [\s] of a [str] pattern. *)
Definition is_space (c : char) : bool :=
  (((9 <=? c) && (c <=? 13)) || ((28 <=? c) && (c <=? 32))
   || (c =? 133) || (c =? 160) || (c =? 5760)
   || ((8192 <=? c) && (c <=? 8202))
   || (c =? 8232) || (c =? 8233) || (c =? 8239) || (c =? 8287) || (c =? 12288))%N.

Definition is_ascii (c : char) : bool := (c <? 128)%N.
Definition is_ascii_upper (c : char) : bool := ((65 <=? c) && (c <=? 90))%N.
Definition is_ascii_lower (c : char) : bool := ((97 <=? c) && (c <=? 122))%N.
Definition is_ascii_letter (c : char) : bool := is_ascii_upper c || is_ascii_lower c.
Definition is_ascii_digit (c : char) : bool := ((48 <=? c) && (c <=? 57))%N.
Definition ascii_lower (c : char) : char := if is_ascii_upper c then (c + 32)%N else c.

(** [s.lstrip()], [s.rstrip()], [s.strip()]. *)
Fixpoint lstrip (s : pystr) : pystr :=
  match s with
  | c :: t => if is_space c then lstrip t else s
  | [] => []
  end.

Definition rstrip (s : pystr) : pystr := rev (lstrip (rev s)).

Definition strip (s : pystr) : pystr := rstrip (lstrip s).

(** [s.startswith(p)]. *)
Fixpoint startswith (p s : pystr) : bool :=
  match p, s with
  | [], _ => true
  | a :: p', b :: s' => (a =? b)%N && startswith p' s'
  | _ :: _, [] => false
  end.

(** [sub in s]. *)
Fixpoint contains (sub s : pystr) : bool :=
  startswith sub s ||
  match s with
  | [] => false
  | _ :: t => contains sub t
  end.

(** [s.split(sep)] for a one-character separator. *)
Fixpoint split_on (sep : char) (s : pystr) : list pystr :=
  match s with
  | [] => [[]]
  | c :: t =>
      if (c =? sep)%N then [] :: split_on sep t
      else match split_on sep t with
           | w :: ws => (c :: w) :: ws
           | [] => [[c]]
           end
  end.

(** [sep.join(l)]. *)
Fixpoint join (sep : pystr) (l : list pystr) : pystr :=
  match l with
  | [] => []
  | [w] => w
  | w :: ws => w ++ sep ++ join sep ws
  end.

(** [s.replace(a, b)] for one-character [a] and [b]. *)
Definition replace_char (a b : char) (s : pystr) : pystr :=
  map (fun c => if (c =? a)%N then b else c) s.

(** [s[a:b]] for [0 <= a <= b]. *)
Definition slice (s : pystr) (a b : nat) : pystr := firstn (b - a) (skipn a s).

(* ================================================================= *)
(** ** Values, exceptions, dictionaries *)

Inductive value : Type :=
| VNone
| VBool (b : bool)
| VInt (z : Z)
| VFloat (literal : pystr)
| VStr (s : pystr)
| VList (l : list value)
| VDict (d : list (pystr * value)).

Definition dict := list (pystr * value).

Inductive exn : Type :=
| TypeError
| AttributeError
| KeyError
| JSONDecodeError
| OtherError.

Inductive pyresult (A : Type) : Type :=
| Ok (a : A)
| Raise (e : exn).

Arguments Ok {A} a.
Arguments Raise {A} e.

Definition bind {A B : Type} (m : pyresult A) (f : A -> pyresult B) : pyresult B :=
  match m with
  | Ok a => f a
  | Raise e => Raise e
  end.

Notation "x <- m ;; f" := (bind m (fun x => f))
  (at level 61, m at next level, right associativity).

(** [k in d]. *)
Fixpoint dict_has (k : pystr) (d : dict) : bool :=
  match d with
  | [] => false
  | (k', _) :: t => str_eqb k k' || dict_has k t
  end.

(** [d.get(k)]. *)
Fixpoint dict_get (k : pystr) (d : dict) : option value :=
  match d with
  | [] => None
  | (k', v) :: t => if str_eqb k k' then Some v else dict_get k t
  end.

(** [d[k] = v]: an existing key keeps its place, a new key goes last. *)
Fixpoint dict_set (k : pystr) (v : value) (d : dict) : dict :=
  match d with
  | [] => [(k, v)]
  | (k', v') :: t => if str_eqb k k' then (k', v) :: t else (k', v') :: dict_set k v t
  end.

(** [d.update(e)]. *)
Definition dict_update (d e : dict) : dict :=
  fold_left (fun acc kv => dict_set (fst kv) (snd kv) acc) e d.

(** [list(dict.fromkeys(l))]: the keys in order of first insertion. *)
Fixpoint fromkeys_insert (k : pystr) (keys : list pystr) : list pystr :=
  match keys with
  | [] => [k]
  | k' :: t => if str_eqb k k' then keys else k' :: fromkeys_insert k t
  end.

Definition fromkeys (l : list pystr) : list pystr :=
  fold_left (fun keys k => fromkeys_insert k keys) l [].

(** The elements [l.extend(x)] appends, by the iteration protocol: a list
    gives its items, a string its characters, a dict its keys; anything
    else is not iterable. *)
Definition iter_values (x : value) : pyresult (list value) :=
  match x with
  | VList l => Ok l
  | VStr s => Ok (map (fun c => VStr [c]) s)
  | VDict d => Ok (map (fun kv => VStr (fst kv)) d)
  | _ => Raise TypeError
  end.

Definition is_ok {A : Type} (r : pyresult A) : bool :=
  match r with
  | Ok _ => true
  | Raise _ => false
  end.

Definition is_some {A : Type} (o : option A) : bool :=
  match o with
  | Some _ => true
  | None => false
  end.

Definition nonempty (s : pystr) : bool :=
  match s with
  | [] => false
  | _ => true
  end.

(* ================================================================= *)
(** ** Reference instances of the library parameters

    The properties below hold for every choice of the library parameters.
    Where a concrete choice is needed (to run the pipeline on a sample
    text), these are used: Unicode tables without entries beyond ASCII, a
    decoder for JSON, and a loader for a fragment of YAML. *)

Module Ref.

Definition uni_decimal (c : char) : bool := false.
Definition uni_alnum (c : char) : bool := false.
Definition uni_ci (p c : char) : bool := (c =? p)%N.
Definition uni_str_lower (s : pystr) : pystr := map ascii_lower s.

(** *** JSON *)

Definition json_ws (c : char) : bool :=
  ((c =? 32) || (c =? 9) || (c =? 10) || (c =? 13))%N.

Fixpoint skip_ws (s : pystr) : pystr :=
  match s with
  | c :: t => if json_ws c then skip_ws t else s
  | [] => []
  end.

Fixpoint take_digits (s : pystr) : pystr * pystr :=
  match s with
  | c :: t => if is_ascii_digit c
              then let (d, r) := take_digits t in (c :: d, r)
              else ([], s)
  | [] => ([], [])
  end.

Definition digits_value (d : pystr) : Z :=
  fold_left (fun acc c => (acc * 10 + Z.of_N (c - 48))%Z) d 0%Z.

(** The integer part [0|[1-9][0-9]*] of a number. *)
Definition take_int (s : pystr) : option (pystr * pystr) :=
  match s with
  | 48%N :: t => Some ([48%N], t)
  | c :: _ => if is_ascii_digit c then Some (take_digits s) else None
  | [] => None
  end.

Definition take_frac (s : pystr) : pystr * pystr :=
  match s with
  | 46%N :: t =>
      match take_digits t with
      | ([], _) => ([], s)
      | (d, r) => (46%N :: d, r)
      end
  | _ => ([], s)
  end.

Definition take_exp (s : pystr) : pystr * pystr :=
  match s with
  | e :: t =>
      if ((e =? 101) || (e =? 69))%N then
        let (sign, t') :=
          match t with
          | c :: u => if ((c =? 43) || (c =? 45))%N then ([c], u) else ([], t)
          | [] => ([], t)
          end in
        match take_digits t' with
        | ([], _) => ([], s)
        | (d, r) => (e :: sign ++ d, r)
        end
      else ([], s)
  | [] => ([], s)
  end.

Definition json_number (s : pystr) : option (value * pystr) :=
  let (neg, s1) := match s with
                   | 45%N :: t => (true, t)
                   | _ => (false, s)
                   end in
  match take_int s1 with
  | None => None
  | Some (i, s2) =>
      let (fr, s3) := take_frac s2 in
      let (ex, s4) := take_exp s3 in
      match fr, ex with
      | [], [] => Some (VInt (if neg then (- digits_value i)%Z else digits_value i), s4)
      | _, _ => Some (VFloat ((if neg then [45%N] else []) ++ i ++ fr ++ ex), s4)
      end
  end.

Definition hex_digit (c : char) : option N :=
  if is_ascii_digit c then Some (c - 48)%N
  else if ((97 <=? c) && (c <=? 102))%N then Some (c - 87)%N
  else if ((65 <=? c) && (c <=? 70))%N then Some (c - 55)%N
  else None.

Definition hex4 (s : pystr) : option (N * pystr) :=
  match s with
  | a :: b :: c :: d :: t =>
      match hex_digit a, hex_digit b, hex_digit c, hex_digit d with
      | Some x, Some y, Some z, Some w => Some ((((x * 16 + y) * 16 + z) * 16 + w)%N, t)
      | _, _, _, _ => None
      end
  | _ => None
  end.

(** The characters of a string literal after the opening quote. *)
Fixpoint json_chars (fuel : nat) (s : pystr) : option (pystr * pystr) :=
  match fuel with
  | O => None
  | S f =>
      match s with
      | [] => None
      | 34%N :: t => Some ([], t)
      | 92%N :: e :: t =>
          let plain (c : char) :=
            match json_chars f t with
            | Some (w, r) => Some (c :: w, r)
            | None => None
            end in
          if (e =? 34)%N then plain 34%N
          else if (e =? 92)%N then plain 92%N
          else if (e =? 47)%N then plain 47%N
          else if (e =? 98)%N then plain 8%N
          else if (e =? 102)%N then plain 12%N
          else if (e =? 110)%N then plain 10%N
          else if (e =? 114)%N then plain 13%N
          else if (e =? 116)%N then plain 9%N
          else if (e =? 117)%N then
            match hex4 t with
            | Some (hi, t1) =>
                let single :=
                  match json_chars f t1 with
                  | Some (w, r) => Some (hi :: w, r)
                  | None => None
                  end in
                if ((55296 <=? hi) && (hi <=? 56319))%N then
                  match t1 with
                  | 92%N :: 117%N :: t2 =>
                      match hex4 t2 with
                      | Some (lo, t3) =>
                          if ((56320 <=? lo) && (lo <=? 57343))%N then
                            match json_chars f t3 with
                            | Some (w, r) =>
                                Some ((65536 + (hi - 55296) * 1024 + (lo - 56320))%N :: w, r)
                            | None => None
                            end
                          else single
                      | None => single
                      end
                  | _ => single
                  end
                else single
            | None => None
            end
          else None
      | c :: t =>
          if (c <? 32)%N then None
          else match json_chars f t with
               | Some (w, r) => Some (c :: w, r)
               | None => None
               end
      end
  end.

Definition json_string (s : pystr) : option (pystr * pystr) :=
  json_chars (S (List.length s)) s.

Fixpoint json_value (fuel : nat) (s : pystr) {struct fuel} : option (value * pystr) :=
  match fuel with
  | O => None
  | S f =>
      match s with
      | 123%N :: t =>
          match skip_ws t with
          | 125%N :: r => Some (VDict [], r)
          | t' => json_members f t' []
          end
      | 91%N :: t =>
          match skip_ws t with
          | 93%N :: r => Some (VList [], r)
          | t' => json_elements f t' []
          end
      | 34%N :: t =>
          match json_string t with
          | Some (w, r) => Some (VStr w, r)
          | None => None
          end
      | _ =>
          if startswith (raw "null") s then Some (VNone, skipn 4 s)
          else if startswith (raw "true") s then Some (VBool true, skipn 4 s)
          else if startswith (raw "false") s then Some (VBool false, skipn 5 s)
          else if startswith (raw "NaN") s then Some (VFloat (raw "nan"), skipn 3 s)
          else if startswith (raw "Infinity") s then Some (VFloat (raw "inf"), skipn 8 s)
          else if startswith (raw "-Infinity") s then Some (VFloat (raw "-inf"), skipn 9 s)
          else json_number s
      end
  end
with json_elements (fuel : nat) (s : pystr) (acc : list value) {struct fuel}
  : option (value * pystr) :=
  match fuel with
  | O => None
  | S f =>
      match json_value f s with
      | Some (v, r) =>
          match skip_ws r with
          | 44%N :: r' => json_elements f (skip_ws r') (acc ++ [v])
          | 93%N :: r' => Some (VList (acc ++ [v]), r')
          | _ => None
          end
      | None => None
      end
  end
with json_members (fuel : nat) (s : pystr) (acc : dict) {struct fuel}
  : option (value * pystr) :=
  match fuel with
  | O => None
  | S f =>
      match s with
      | 34%N :: t =>
          match json_string t with
          | Some (k, r) =>
              match skip_ws r with
              | 58%N :: r1 =>
                  match json_value f (skip_ws r1) with
                  | Some (v, r2) =>
                      match skip_ws r2 with
                      | 44%N :: r3 => json_members f (skip_ws r3) (dict_set k v acc)
                      | 125%N :: r3 => Some (VDict (dict_set k v acc), r3)
                      | _ => None
                      end
                  | None => None
                  end
              | _ => None
              end
          | None => None
          end
      | _ => None
      end
  end.

(** [json.loads]: one value, surrounded by JSON whitespace at most. *)
Definition json_loads (s : pystr) : pyresult value :=
  match json_value (S (List.length s)) (skip_ws s) with
  | Some (v, r) =>
      match skip_ws r with
      | [] => Ok v
      | _ => Raise JSONDecodeError
      end
  | None => Raise JSONDecodeError
  end.

(** *** A fragment of YAML

    Documents of the form [---] followed by lines [key: value], where
    keys and values are words of lower-case letters; a value that YAML
    resolves to something else than a string is left out of the
    fragment. The loader knows no other document. *)

Fixpoint take_lower (s : pystr) : pystr * pystr :=
  match s with
  | c :: t => if is_ascii_lower c
              then let (w, r) := take_lower t in (c :: w, r)
              else ([], s)
  | [] => ([], [])
  end.

Definition yaml_plain_string (w : pystr) : bool :=
  negb (existsb (str_eqb w)
                [raw "true"; raw "false"; raw "yes"; raw "no"; raw "on"; raw "off";
                 raw "null"; raw "y"; raw "n"]).

Fixpoint yaml_lines (fuel : nat) (s : pystr) (acc : dict) : option dict :=
  match fuel with
  | O => None
  | S f =>
      match s with
      | [] => Some acc
      | _ =>
          match take_lower s with
          | (k, 58%N :: 32%N :: r) =>
              match take_lower r with
              | (v, 10%N :: r') =>
                  if nonempty k && nonempty v && yaml_plain_string v
                  then yaml_lines f r' (dict_set k (VStr v) acc)
                  else None
              | _ => None
              end
          | _ => None
          end
      end
  end.

Definition yaml_safe_load (s : pystr) : pyresult value :=
  match s with
  | 45%N :: 45%N :: 45%N :: 10%N :: t =>
      match t with
      | [] => Ok VNone
      | _ => match yaml_lines (S (List.length t)) t [] with
             | Some d => Ok (VDict d)
             | None => Raise OtherError
             end
      end
  | _ => Raise OtherError
  end.

End Ref.

(* ================================================================= *)
(** ** Regular expressions *)

(** Members of a character class. *)
Inductive citem : Type :=
| CChar (c : char)
| CSpace
| CDigit
| CWord.

Inductive regex : Type :=
| Eps
| Chr (c : char)
| Any
| Cls (items : list citem)
| Seq (a b : regex)
| Alt (a b : regex)
| Star (greedy : bool) (a : regex)
| Group (n : nat) (a : regex)
| Look (positive : bool) (a : regex)
| Bol
| Eol
| EndZ
| WordB.

Record flags : Type := mkFlags { IGNORECASE : bool; MULTILINE : bool; DOTALL : bool }.

Definition NOFLAGS : flags := mkFlags false false false.

(** A position in the subject: the index, the character before it and
    the text from it on. *)
Record cursor : Type := mkCur { c_pos : nat; c_prev : option char; c_rest : pystr }.

Definition start_of (s : pystr) : cursor := mkCur 0 None s.

Definition advance (cu : cursor) (c : char) (rest : pystr) : cursor :=
  mkCur (S (c_pos cu)) (Some c) rest.

(** Spans of the capture groups, latest first. *)
Definition caps := list (nat * (nat * nat)).

Fixpoint cap_get (n : nat) (cs : caps) : option (nat * nat) :=
  match cs with
  | [] => None
  | (m, sp) :: t => if Nat.eqb n m then Some sp else cap_get n t
  end.

Definition kont := cursor -> caps -> option (cursor * caps).

Definition k_done : kont := fun cu cs => Some (cu, cs).

(** Derived forms: [a+], [a+?], [a?], [a??] and literal text. *)
Definition Plus (greedy : bool) (a : regex) : regex := Seq a (Star greedy a).

Definition Opt (greedy : bool) (a : regex) : regex :=
  if greedy then Alt a Eps else Alt Eps a.

Fixpoint Lit (s : pystr) : regex :=
  match s with
  | [] => Eps
  | [c] => Chr c
  | c :: t => Seq (Chr c) (Lit t)
  end.

Fixpoint Alts (l : list regex) : regex :=
  match l with
  | [] => Eps
  | [a] => a
  | a :: t => Alt a (Alts t)
  end.

Fixpoint Seqs (l : list regex) : regex :=
  match l with
  | [] => Eps
  | [a] => a
  | a :: t => Seq a (Seqs t)
  end.

Definition SPACE : regex := Cls [CSpace].
Definition DIGIT : regex := Cls [CDigit].
Definition WORD : regex := Cls [CWord].

(** A match: the span of the whole match and the spans of its groups. *)
Record rmatch : Type := mkMatch { m_start : nat; m_end : cursor; m_caps : caps }.

Definition m_stop (m : rmatch) : nat := c_pos (m_end m).

Definition group0 (s : pystr) (m : rmatch) : pystr := slice s (m_start m) (m_stop m).

(** [m.group(n)], with [None] for a group that took no part. *)
Definition group (s : pystr) (m : rmatch) (n : nat) : option pystr :=
  match cap_get n (m_caps m) with
  | Some (a, b) => Some (slice s a b)
  | None => None
  end.

(** What [findall] reports for a group: the empty string when the group
    took no part in the match. *)
Definition group_or_empty (s : pystr) (m : rmatch) (n : nat) : pystr :=
  match group s m n with
  | Some g => g
  | None => []
  end.

Section Processor.

(** The Unicode tables beyond ASCII and the two decoders of the standard
    and third-party libraries. *)
Variable uni_decimal : char -> bool.
Variable uni_alnum : char -> bool.
Variable uni_ci : char -> char -> bool.
Variable uni_str_lower : pystr -> pystr.
Variable json_loads : pystr -> pyresult value.
Variable yaml_safe_load : pystr -> pyresult value.

(** [s.lower()]. *)
Definition str_lower (s : pystr) : pystr :=
  if forallb is_ascii s then map ascii_lower s else uni_str_lower s.

(** The classes [\d] and [\w] of a [str] pattern. *)
Definition is_decimal (c : char) : bool :=
  if is_ascii c then is_ascii_digit c else uni_decimal c.

Definition is_word (c : char) : bool :=
  if is_ascii c then is_ascii_letter c || is_ascii_digit c || (c =? 95)%N
  else uni_alnum c.

(** A literal of the pattern against a character of the subject. Under
    [IGNORECASE] only cased literals fold. *)
Definition chr_match (fl : flags) (p c : char) : bool :=
  if IGNORECASE fl then
    if is_ascii p then
      if is_ascii_letter p then
        if is_ascii c then (ascii_lower c =? ascii_lower p)%N else uni_ci p c
      else (c =? p)%N
    else uni_ci p c
  else (c =? p)%N.

Definition citem_match (fl : flags) (it : citem) (c : char) : bool :=
  match it with
  | CChar p => chr_match fl p c
  | CSpace => is_space c
  | CDigit => is_decimal c
  | CWord => is_word c
  end.

Definition cls_match (fl : flags) (items : list citem) (c : char) : bool :=
  existsb (fun it => citem_match fl it c) items.

Definition any_match (fl : flags) (c : char) : bool :=
  DOTALL fl || negb (c =? NL)%N.

Definition at_bol (fl : flags) (cu : cursor) : bool :=
  match c_prev cu with
  | None => true
  | Some c => MULTILINE fl && (c =? NL)%N
  end.

Definition at_eol (fl : flags) (cu : cursor) : bool :=
  match c_rest cu with
  | [] => true
  | c :: t => (c =? NL)%N && (MULTILINE fl || match t with [] => true | _ => false end)
  end.

Definition at_end (cu : cursor) : bool :=
  match c_rest cu with
  | [] => true
  | _ => false
  end.

Definition at_word_boundary (cu : cursor) : bool :=
  let before := match c_prev cu with Some c => is_word c | None => false end in
  let after := match c_rest cu with c :: _ => is_word c | [] => false end in
  xorb before after.

(** One character consumed under the test [f]. *)
Definition step_if (f : char -> bool) (k : kont) (cu : cursor) (cs : caps)
  : option (cursor * caps) :=
  match c_rest cu with
  | c :: rest => if f c then k (advance cu c rest) cs else None
  | [] => None
  end.

(** The loop of a repetition [a*] (greedy) or [a*?] (lazy) over the
    matcher [body] of [a]: an iteration has to consume text, and [fuel]
    bounds the number of iterations by the length of the remaining text. *)
Fixpoint star_loop (body : kont -> kont) (greedy : bool) (k : kont)
         (fuel : nat) (cu : cursor) (cs : caps) {struct fuel} : option (cursor * caps) :=
  match fuel with
  | O => k cu cs
  | S f =>
      let again : kont :=
        fun cu' cs' =>
          if Nat.ltb (c_pos cu) (c_pos cu') then star_loop body greedy k f cu' cs'
          else None in
      if greedy then
        match body again cu cs with
        | Some x => Some x
        | None => k cu cs
        end
      else
        match k cu cs with
        | Some x => Some x
        | None => body again cu cs
        end
  end.

(** The backtracking matcher, in continuation-passing style: [mt fl r k cu cs]
    matches [r] at [cu] and hands every way of doing so to [k], in the
    order of Python's [re], until [k] accepts. *)
Fixpoint mt (fl : flags) (r : regex) (k : kont) (cu : cursor) (cs : caps) {struct r}
  : option (cursor * caps) :=
  match r with
  | Eps => k cu cs
  | Chr p => step_if (chr_match fl p) k cu cs
  | Any => step_if (any_match fl) k cu cs
  | Cls items => step_if (cls_match fl items) k cu cs
  | Seq a b => mt fl a (mt fl b k) cu cs
  | Alt a b =>
      match mt fl a k cu cs with
      | Some x => Some x
      | None => mt fl b k cu cs
      end
  | Star greedy a => star_loop (mt fl a) greedy k (S (List.length (c_rest cu))) cu cs
  | Group n a => mt fl a (fun cu' cs' => k cu' ((n, (c_pos cu, c_pos cu')) :: cs')) cu cs
  | Look positive a =>
      match mt fl a k_done cu cs with
      | Some (_, cs') => if positive then k cu cs' else None
      | None => if positive then None else k cu cs
      end
  | Bol => if at_bol fl cu then k cu cs else None
  | Eol => if at_eol fl cu then k cu cs else None
  | EndZ => if at_end cu then k cu cs else None
  | WordB => if at_word_boundary cu then k cu cs else None
  end.

(** Acceptance at the top level: after an empty match the scan must not
    report another empty match at the same place. *)
Definition k_top (must_advance : bool) (start : nat) : kont :=
  fun cu cs => if must_advance && Nat.eqb (c_pos cu) start then None else Some (cu, cs).

Definition match_at (fl : flags) (r : regex) (must_advance : bool) (cu : cursor)
  : option rmatch :=
  match mt fl r (k_top must_advance (c_pos cu)) cu [] with
  | Some (cu', cs) => Some (mkMatch (c_pos cu) cu' cs)
  | None => None
  end.

(** [re.search] from a cursor: the first position, left to right, where
    the pattern matches. *)
Fixpoint search_from (fl : flags) (r : regex) (must_advance : bool)
         (pos : nat) (prev : option char) (rest : pystr) {struct rest} : option rmatch :=
  match match_at fl r must_advance (mkCur pos prev rest) with
  | Some m => Some m
  | None =>
      match rest with
      | [] => None
      | c :: rest' => search_from fl r false (S pos) (Some c) rest'
      end
  end.

Definition re_search (fl : flags) (r : regex) (s : pystr) : option rmatch :=
  search_from fl r false 0 None s.

(** [re.match]: a match at the start of the subject. *)
Definition re_match (fl : flags) (r : regex) (s : pystr) : option rmatch :=
  match_at fl r false (start_of s).

(** The scan behind [finditer], [findall] and [split]: successive
    non-overlapping matches, each search starting where the previous
    match ended. *)
Fixpoint scan (fl : flags) (r : regex) (fuel : nat) (must_advance : bool) (cu : cursor)
  : list rmatch :=
  match fuel with
  | O => []
  | S f =>
      match search_from fl r must_advance (c_pos cu) (c_prev cu) (c_rest cu) with
      | None => []
      | Some m => m :: scan fl r f (Nat.eqb (m_stop m) (m_start m)) (m_end m)
      end
  end.

Definition re_finditer (fl : flags) (r : regex) (s : pystr) : list rmatch :=
  scan fl r (2 * List.length s + 2) false (start_of s).

(** [re.findall] for a pattern with one group and with two groups. *)
Definition re_findall1 (fl : flags) (r : regex) (s : pystr) : list pystr :=
  map (fun m => group_or_empty s m 1) (re_finditer fl r s).

Definition re_findall2 (fl : flags) (r : regex) (s : pystr) : list (pystr * pystr) :=
  map (fun m => (group_or_empty s m 1, group_or_empty s m 2)) (re_finditer fl r s).

(** [re.split] for a pattern without groups: the text between the
    matches. *)
Fixpoint split_pieces (s : pystr) (last : nat) (ms : list rmatch) : list pystr :=
  match ms with
  | [] => [slice s last (List.length s)]
  | m :: ms' => slice s last (m_start m) :: split_pieces s (m_stop m) ms'
  end.

Definition re_split (fl : flags) (r : regex) (s : pystr) : list pystr :=
  split_pieces s 0 (re_finditer fl r s).

(* ================================================================= *)
(** ** The patterns of [processor.py] *)

Definition L (x : string) : regex := Lit (raw x).

Definition QUOTES : regex := Cls [CChar QUOTE; CChar 39%N].

Definition F_NONE : flags := NOFLAGS.
Definition F_M : flags := mkFlags false true false.
Definition F_S : flags := mkFlags false false true.
Definition F_SM : flags := mkFlags false true true.
Definition F_IM : flags := mkFlags true true false.

(** [r'```(?:json|patch|diff)'] *)
Definition fence_tag_pattern : regex :=
  Seq (L "```") (Alts [L "json"; L "patch"; L "diff"]).

(** [r'^#+\s+'] *)
Definition header_pattern : regex :=
  Seqs [Bol; Plus true (L "#"); Plus true SPACE].

(** [r'```json\s*\n(.*?)\n```'] *)
Definition json_pattern : regex :=
  Seqs [L "```json"; Star true SPACE; Chr NL; Group 1 (Star false Any); Chr NL; L "```"].

(** [r'\n#+\s+'] *)
Definition section_pattern : regex :=
  Seqs [Chr NL; Plus true (L "#"); Plus true SPACE].

(** [r'```(?!json)(\w+)?\s*\n(.*?)\n```'] *)
Definition code_pattern : regex :=
  Seqs [L "```"; Look false (L "json"); Opt true (Group 1 (Plus true WORD));
        Star true SPACE; Chr NL; Group 2 (Star false Any); Chr NL; L "```"].

(** The four [file_patterns]:
    [r'File:\s*(.+?)(?:\n|$)'],
    [r'File\s*[#:]?\s*(.+?)(?:\n|$)'],
    [r'^(?:-|\*|\d+\.)\s*(.+?\.(?:py|js|ts|java|cpp|c|h|go|rs|php|rb|sh|md|txt|json|yaml|yml))'],
    [r'\b(?:modif|chang|updat|add|remov|delet).*?\s+file\s+["\']?(.+?)["\']?(?:\s|$|\.)']. *)
Definition file_patterns : list regex :=
  [ Seqs [L "File:"; Star true SPACE; Group 1 (Plus false Any); Alt (Chr NL) Eol];
    Seqs [L "File"; Star true SPACE; Opt true (Cls [CChar 35%N; CChar 58%N]);
          Star true SPACE; Group 1 (Plus false Any); Alt (Chr NL) Eol];
    Seqs [Bol; Alts [L "-"; L "*"; Seq (Plus true DIGIT) (L ".")]; Star true SPACE;
          Group 1 (Seqs [Plus false Any; L ".";
                         Alts [L "py"; L "js"; L "ts"; L "java"; L "cpp"; L "c"; L "h";
                               L "go"; L "rs"; L "php"; L "rb"; L "sh"; L "md"; L "txt";
                               L "json"; L "yaml"; L "yml"]])];
    Seqs [WordB; Alts [L "modif"; L "chang"; L "updat"; L "add"; L "remov"; L "delet"];
          Star false Any; Plus true SPACE; L "file"; Plus true SPACE; Opt true QUOTES;
          Group 1 (Plus false Any); Opt true QUOTES; Alts [SPACE; Eol; L "."]] ].

(** [r'^\s*(.+?)\s*[:=]\s*(.+?)\s*$'] *)
Definition kv_pattern : regex :=
  Seqs [Bol; Star true SPACE; Group 1 (Plus false Any); Star true SPACE;
        Cls [CChar 58%N; CChar 61%N]; Star true SPACE; Group 2 (Plus false Any);
        Star true SPACE; Eol].

(** The three [diff_patterns]:
    [r'```(?:patch|diff)\s*\n(.*?)\n```'],
    [r'^--- a/(.+?)\n\+\+\+ b/(.+?)(?:\n@@.*?(?:\n.*?)*?)(?=\n---|\n```|\Z)'],
    [r'@@ -\d+,\d+ \+\d+,\d+ @@\n(?:.*?\n)*?(?=\n@@|\n---|\n```|\Z)']. *)
Definition diff_lookahead (first : regex) : regex :=
  Look true (Alts [first; Seq (Chr NL) (L "---"); Seq (Chr NL) (L "```"); EndZ]).

Definition fenced_diff_pattern : regex :=
  Seqs [L "```"; Alt (L "patch") (L "diff"); Star true SPACE; Chr NL;
        Group 1 (Star false Any); Chr NL; L "```"].

Definition raw_diff_pattern : regex :=
  Seqs [Bol; L "--- a/"; Group 1 (Plus false Any); Chr NL; L "+++ b/";
        Group 2 (Plus false Any);
        Seqs [Chr NL; L "@@"; Star false Any; Star false (Seq (Chr NL) (Star false Any))];
        Look true (Alts [Seq (Chr NL) (L "---"); Seq (Chr NL) (L "```"); EndZ])].

Definition hunk_pattern : regex :=
  Seqs [L "@@ -"; Plus true DIGIT; L ","; Plus true DIGIT; L " +"; Plus true DIGIT;
        L ","; Plus true DIGIT; L " @@"; Chr NL;
        Star false (Seq (Star false Any) (Chr NL));
        diff_lookahead (Seq (Chr NL) (L "@@"))].

Definition diff_patterns : list regex :=
  [fenced_diff_pattern; raw_diff_pattern; hunk_pattern].

(** [r'--- a/(.+?)\n\+\+\+ b/(.+?)\n'] *)
Definition file_header_pattern : regex :=
  Seqs [L "--- a/"; Group 1 (Plus false Any); Chr NL; L "+++ b/";
        Group 2 (Plus false Any); Chr NL].

(** [r'Replace:\s*["\']?(.+?)["\']?\s*→\s*["\']?(.+?)["\']?(?:\s|$)'] *)
Definition simple_pattern : regex :=
  Seqs [L "Replace:"; Star true SPACE; Opt true QUOTES; Group 1 (Plus false Any);
        Opt true QUOTES; Star true SPACE; Chr ARROW; Star true SPACE; Opt true QUOTES;
        Group 2 (Plus false Any); Opt true QUOTES; Alt SPACE Eol].

(** The four [commit_patterns]:
    [r'Commit(?: Message)?:\s*(.+?)(?:\n|$)'],
    [r'^`(.+?)`\s*$'],
    [r'feat(?:ure)?:\s*(.+?)(?:\n|$)'],
    [r'^(?:-|\*|\d+\.)\s*(.+?)(?:\n|$)']. *)
Definition commit_patterns : list regex :=
  [ Seqs [L "Commit"; Opt true (L " Message"); L ":"; Star true SPACE;
          Group 1 (Plus false Any); Alt (Chr NL) Eol];
    Seqs [Bol; L "`"; Group 1 (Plus false Any); L "`"; Star true SPACE; Eol];
    Seqs [L "feat"; Opt true (L "ure"); L ":"; Star true SPACE;
          Group 1 (Plus false Any); Alt (Chr NL) Eol];
    Seqs [Bol; Alts [L "-"; L "*"; Seq (Plus true DIGIT) (L ".")]; Star true SPACE;
          Group 1 (Plus false Any); Alt (Chr NL) Eol] ].

(* ================================================================= *)
(** ** [LLMResponseProcessor] *)

(** [_detect_response_type]. Both [try] blocks have a bare [except], so
    any exception of a decoder falls through to the next test. *)
Definition _detect_response_type (content : pystr) : pystr :=
  if (startswith (py "{") (strip content) || startswith (py "[") (strip content))
     && is_ok (json_loads content)
  then py "json"
  else if contains (py "---") (firstn 100 content) && is_ok (yaml_safe_load content)
  then py "yaml"
  else if is_some (re_search F_NONE fence_tag_pattern content)
  then py "mixed"
  else if is_some (re_search F_M header_pattern content)
  then py "markdown"
  else py "text".

(** The record appended by [_extract_changes_from_text] for a match. *)
Definition change_record (m : pystr) : value :=
  VDict [ (py "file_path", VStr (strip m));
          (py "change_type", VStr (py "modify"));
          (py "description", VStr (py "Change detected in " ++ strip m));
          (py "source", VStr (py "text_extraction")) ].

(** [_extract_changes_from_text] *)
Definition _extract_changes_from_text (text : pystr) : list value :=
  flat_map (fun pattern =>
              flat_map (fun m =>
                          if nonempty (strip m) && contains (py ".") m
                          then [change_record m] else [])
                       (re_findall1 F_IM pattern text))
           file_patterns.

(** [_extract_structured_data]: the body of the loop over the lines, then
    the loop. *)
Definition structured_line (result : dict) (line : pystr) : dict :=
  match re_match F_NONE kv_pattern line with
  | Some m =>
      let key := replace_char 32%N 95%N
                   (str_lower (strip (group_or_empty line m 1))) in
      let value := strip (group_or_empty line m 2) in
      let value' :=
        if startswith (py "[") value || startswith (py "{") value
        then match json_loads value with
             | Ok v => v
             | Raise _ => VStr value
             end
        else VStr value in
      dict_set key value' result
  | None => result
  end.

Definition _extract_structured_data (content : pystr) : dict :=
  fold_left structured_line (split_on NL content) [].

(** [_parse_json_response]. Only [json.JSONDecodeError] is caught around
    the first [json.loads]; the second one sits under a bare [except]. *)
Definition _parse_json_response (content : pystr) : pyresult value :=
  match json_loads content with
  | Ok v => Ok v
  | Raise JSONDecodeError =>
      match re_search F_S json_pattern content with
      | Some m =>
          match group content m 1 with
          | Some g =>
              match json_loads g with
              | Ok v => Ok v
              | Raise _ => Ok (VDict (_extract_structured_data content))
              end
          | None => Ok (VDict (_extract_structured_data content))
          end
      | None => Ok (VDict (_extract_structured_data content))
      end
  | Raise e => Raise e
  end.

(** [d[k][k'] = v] *)
Definition setitem_in (k k' : pystr) (v : value) (d : dict) : pyresult dict :=
  match dict_get k d with
  | Some (VDict inner) => Ok (dict_set k (VDict (dict_set k' v inner)) d)
  | Some _ => Raise TypeError
  | None => Raise KeyError
  end.

(** The title and the body of a section. *)
Definition section_title (section : pystr) : pystr :=
  strip (hd [] (split_on NL section)).

Definition section_body (section : pystr) : pystr :=
  strip (join [NL] (tl (split_on NL section))).

(** [_parse_markdown_response]: the body of the loop over the sections,
    then the function. *)
Definition markdown_section (result : dict) (section : pystr) : pyresult dict :=
  if negb (nonempty (strip section)) then Ok result
  else
    let title := section_title section in
    let body := section_body section in
    if negb (nonempty title) then Ok result
    else
      let title_lower := str_lower title in
      if contains (py "change") title_lower || contains (py "modification") title_lower
      then Ok (dict_set (py "changes") (VList (_extract_changes_from_text body)) result)
      else if contains (py "summary") title_lower || contains (py "overview") title_lower
      then Ok (dict_set (py "summary") (VStr body) result)
      else if contains (py "implementation") title_lower || contains (py "plan") title_lower
      then Ok (dict_set (py "implementation_plan") (VStr body) result)
      else setitem_in (py "details") title (VStr body) result.

Fixpoint for_each {A S : Type} (f : S -> A -> pyresult S) (l : list A) (st : S) : pyresult S :=
  match l with
  | [] => Ok st
  | x :: t => st' <- f st x ;; for_each f t st'
  end.

Definition _parse_markdown_response (content : pystr) : pyresult value :=
  result <- for_each markdown_section (re_split F_NONE section_pattern content)
              [ (py "changes", VList []); (py "summary", VStr []); (py "details", VDict []) ] ;;
  Ok (VDict result).

(** [_parse_text_response] *)
Definition _parse_text_response (content : pystr) : pyresult value :=
  Ok (VDict [ (py "raw_content", VStr content);
              (py "changes", VList (_extract_changes_from_text content));
              (py "summary", VStr (if Nat.ltb 500 (List.length content)
                                   then firstn 500 content ++ py "..."
                                   else content)) ]).

(** [result[k].extend(x)] *)
Definition extend_in (k : pystr) (x : value) (d : dict) : pyresult dict :=
  match dict_get k d with
  | Some (VList l) => items <- iter_values x ;; Ok (dict_set k (VList (l ++ items)) d)
  | Some _ => Raise AttributeError
  | None => Raise KeyError
  end.

(** [result[k].append(x)] *)
Definition append_in (k : pystr) (x : value) (d : dict) : pyresult dict :=
  match dict_get k d with
  | Some (VList l) => Ok (dict_set k (VList (l ++ [x])) d)
  | Some _ => Raise AttributeError
  | None => Raise KeyError
  end.

(** [_parse_mixed_response]: the three loops, then the function. The
    body of the first loop is a [try] with a bare [except: pass]; none of
    its statements changes [result] before it raises. *)
Definition mixed_json_block (result : dict) (json_block : pystr) : pyresult dict :=
  let attempt :=
    data <- json_loads json_block ;;
    match data with
    | VList _ => extend_in (py "changes") data result
    | VDict d =>
        if dict_has (py "changes") d
        then match dict_get (py "changes") d with
             | Some c => extend_in (py "changes") c result
             | None => Raise KeyError
             end
        else Ok (dict_update result d)
    | _ => Ok result
    end in
  match attempt with
  | Ok result' => Ok result'
  | Raise _ => Ok result
  end.

Definition mixed_code_block (result : dict) (m : pystr * pystr) : pyresult dict :=
  let (lang, code) := m in
  append_in (py "code_blocks")
            (VDict [ (py "language", VStr (if nonempty lang then lang else py "text"));
                     (py "content", VStr code) ])
            result.

Definition mixed_section (result : dict) (section : pystr) : pyresult dict :=
  if negb (nonempty (strip section)) then Ok result
  else
    let title := section_title section in
    let body := section_body section in
    if nonempty title && nonempty body
    then setitem_in (py "sections") title (VStr body) result
    else Ok result.

Definition _parse_mixed_response (content : pystr) : pyresult value :=
  result <- for_each mixed_json_block (re_findall1 F_S json_pattern content)
              [ (py "changes", VList []); (py "code_blocks", VList []);
                (py "sections", VDict []) ] ;;
  result <- for_each mixed_code_block (re_findall2 F_S code_pattern content) result ;;
  result <- for_each mixed_section (re_split F_NONE section_pattern content) result ;;
  Ok (VDict result).

(** The record appended by [_extract_patches] for a match of one of the
    [diff_patterns]. *)
Definition diff_record (patch_content : pystr) : value :=
  let file_match := re_search F_NONE file_header_pattern patch_content in
  VDict [ (py "content", VStr patch_content);
          (py "file", VStr (match file_match with
                            | Some fm => group_or_empty patch_content fm 1
                            | None => py "unknown"
                            end));
          (py "format", VStr (py "unified_diff")) ].

Definition replace_record (m : pystr * pystr) : value :=
  let (old, new) := m in
  VDict [ (py "content", VStr (py "-" ++ old ++ py "\n+" ++ new));
          (py "file", VStr (py "unknown"));
          (py "format", VStr (py "simple_replace")) ].

(** [_extract_patches] *)
Definition _extract_patches (content : pystr) : list value :=
  flat_map (fun pattern =>
              map (fun m => diff_record (group0 content m))
                  (re_finditer F_SM pattern content))
           diff_patterns
  ++ map replace_record (re_findall2 F_M simple_pattern content).

(** [_extract_commit_messages] *)
Definition _extract_commit_messages (content : pystr) : list pystr :=
  let messages :=
    fold_left (fun messages pattern =>
                 messages ++
                 map strip
                     (filter (fun m => Nat.ltb 10 (List.length (strip m)))
                             (re_findall1 F_IM pattern content)))
              commit_patterns [] in
  let messages := fromkeys messages in
  firstn 5 messages.

(** The table [self.parsers] of [__init__]. *)
Definition parsers : list (pystr * (pystr -> pyresult value)) :=
  [ (py "json", _parse_json_response);
    (py "markdown", _parse_markdown_response);
    (py "text", _parse_text_response);
    (py "mixed", _parse_mixed_response) ].

(** [self.parsers.get(k, default)] *)
Fixpoint parsers_get (k : pystr) (table : list (pystr * (pystr -> pyresult value)))
         (default : pystr -> pyresult value) : pystr -> pyresult value :=
  match table with
  | [] => default
  | (k', f) :: t => if str_eqb k k' then f else parsers_get k t default
  end.

(** [x[k] = v] on an arbitrary value: only a dict takes a string key. *)
Definition setitem (k : pystr) (v : value) (x : value) : pyresult value :=
  match x with
  | VDict d => Ok (VDict (dict_set k v d))
  | _ => Raise TypeError
  end.

(** [parse_response]. The file has been read and decoded:
    [response_file] is [str(response_file)], [content] the text read and
    [now] the value of [datetime.now().isoformat()]. *)
Definition parse_response (response_file content now : pystr) : pyresult value :=
  let response_type := _detect_response_type content in
  let parser := parsers_get response_type parsers _parse_text_response in
  parsed_data <- parser content ;;
  parsed_data <- setitem (py "patches") (VList (_extract_patches content)) parsed_data ;;
  parsed_data <- setitem (py "commits")
                   (VList (map VStr (_extract_commit_messages content))) parsed_data ;;
  setitem (py "metadata")
          (VDict [ (py "response_file", VStr response_file);
                   (py "response_type", VStr response_type);
                   (py "parsed_at", VStr now);
                   (py "content_length", VInt (Z.of_nat (List.length content))) ])
          parsed_data.

(* ================================================================= *)
(** ** What a pattern matches, declaratively *)

(** The position after the text [pre], with [post] still to read. *)
Definition last_char (pre : pystr) : option char :=
  match rev pre with
  | [] => None
  | c :: _ => Some c
  end.

Definition cur (pre post : pystr) : cursor := mkCur (List.length pre) (last_char pre) post.

(** Zero or more iterations of [R], each of which moves forward. *)
Inductive iter (R : cursor -> cursor -> Prop) : cursor -> cursor -> Prop :=
| iter_stop : forall cu, iter R cu cu
| iter_more : forall cu mid cu',
    R cu mid -> c_pos cu < c_pos mid -> iter R mid cu' -> iter R cu cu'.

Definition step_rel (f : char -> bool) (cu cu' : cursor) : Prop :=
  exists c rest, c_rest cu = c :: rest /\ f c = true /\ cu' = advance cu c rest.

(** [matches fl r cu cu']: the pattern [r] can match the text between the
    positions [cu] and [cu']. Priorities and captures play no part
    here. *)
Fixpoint matches (fl : flags) (r : regex) (cu cu' : cursor) {struct r} : Prop :=
  match r with
  | Eps => cu' = cu
  | Chr p => step_rel (chr_match fl p) cu cu'
  | Any => step_rel (any_match fl) cu cu'
  | Cls items => step_rel (cls_match fl items) cu cu'
  | Seq a b => exists mid, matches fl a cu mid /\ matches fl b mid cu'
  | Alt a b => matches fl a cu cu' \/ matches fl b cu cu'
  | Star _ a => iter (matches fl a) cu cu'
  | Group _ a => matches fl a cu cu'
  | Look positive a =>
      cu' = cu /\
      if positive then exists e, matches fl a cu e
      else ~ exists e, matches fl a cu e
  | Bol => cu' = cu /\ at_bol fl cu = true
  | Eol => cu' = cu /\ at_eol fl cu = true
  | EndZ => cu' = cu /\ at_end cu = true
  | WordB => cu' = cu /\ at_word_boundary cu = true
  end.


(** [group_body n body r]: the pattern [r] holds the group number [n],
    with the sub-pattern [body]. *)
Fixpoint group_body (n : nat) (body r : regex) {struct r} : Prop :=
  match r with
  | Group m a => (m = n /\ a = body) \/ group_body n body a
  | Seq a b => group_body n body a \/ group_body n body b
  | Alt a b => group_body n body a \/ group_body n body b
  | Star _ a => group_body n body a
  | Look _ a => group_body n body a
  | _ => False
  end.

(** A recorded span [e] of a group of [r] in the subject [s]: the
    sub-pattern of the group matches the text of the span, where it
    stands. *)
Definition group_in (fl : flags) (r : regex) (s : pystr) (e : nat * (nat * nat)) : Prop :=
  exists body X g rest,
    s = X ++ g ++ rest /\
    snd e = (List.length X, List.length X + List.length g) /\
    group_body (fst e) body r /\
    matches fl body (cur X (g ++ rest)) (cur (X ++ g) rest).

(** A syntactic check: no text matched by [r] holds a newline. The
    literals have to be ASCII, the case folding of the others being left
    to the Unicode tables. *)
Definition citem_nl_free (it : citem) : bool :=
  match it with
  | CChar p => is_ascii p && negb (p =? NL)%N
  | CSpace => false
  | CDigit => true
  | CWord => true
  end.

Fixpoint nl_free (fl : flags) (r : regex) {struct r} : bool :=
  match r with
  | Chr p => is_ascii p && negb (p =? NL)%N
  | Any => negb (DOTALL fl)
  | Cls items => forallb citem_nl_free items
  | Seq a b => nl_free fl a && nl_free fl b
  | Alt a b => nl_free fl a && nl_free fl b
  | Star _ a => nl_free fl a
  | Group _ a => nl_free fl a
  | _ => true
  end.

(** The same check on the sub-patterns of the groups numbered [n]. *)
Fixpoint groups_nl_free (fl : flags) (n : nat) (r : regex) {struct r} : bool :=
  match r with
  | Group m a => (negb (Nat.eqb m n) || nl_free fl a) && groups_nl_free fl n a
  | Seq a b => groups_nl_free fl n a && groups_nl_free fl n b
  | Alt a b => groups_nl_free fl n a && groups_nl_free fl n b
  | Star _ a => groups_nl_free fl n a
  | Look _ a => groups_nl_free fl n a
  | _ => true
  end.
(* ================================================================= *)
(** ** Repetitions of one character, unrolled *)

(** The cursor after reading [txt]. *)
Definition cur_after (cu : cursor) (txt : pystr) : cursor :=
  mkCur (c_pos cu + List.length txt)
        (match rev txt with [] => c_prev cu | c :: _ => Some c end)
        (skipn (List.length txt) (c_rest cu)).

(** [a*?] for a one-character [a] with test [f]: the continuation is
    tried at every position in turn, reading on while [f] holds. *)
Fixpoint lazy_run (f : char -> bool) (k : kont) (pos : nat) (prev : option char)
         (rest : pystr) (cs : caps) {struct rest} : option (cursor * caps) :=
  match k (mkCur pos prev rest) cs with
  | Some x => Some x
  | None =>
      match rest with
      | c :: t => if f c then lazy_run f k (S pos) (Some c) t cs else None
      | [] => None
      end
  end.

(** [a*] for a one-character [a] with test [f]: the longest run first,
    then shorter ones. *)
Fixpoint greedy_run (f : char -> bool) (k : kont) (pos : nat) (prev : option char)
         (rest : pystr) (cs : caps) {struct rest} : option (cursor * caps) :=
  match rest with
  | c :: t =>
      if f c then
        match greedy_run f k (S pos) (Some c) t cs with
        | Some x => Some x
        | None => k (mkCur pos prev rest) cs
        end
      else k (mkCur pos prev rest) cs
  | [] => k (mkCur pos prev rest) cs
  end.

(** The text up to the next newline, and what follows. *)
Fixpoint take_line (s : pystr) : pystr * pystr :=
  match s with
  | [] => ([], [])
  | c :: t => if (c =? NL)%N then ([], s)
              else let (line, r) := take_line t in (c :: line, r)
  end.

(** The matcher with the repetitions of one character unrolled into
    runs; it computes on a text whose end is not known. *)
Definition run (greedy : bool) (f : char -> bool) (k : kont) (cu : cursor) (cs : caps)
  : option (cursor * caps) :=
  if greedy then greedy_run f k (c_pos cu) (c_prev cu) (c_rest cu) cs
  else lazy_run f k (c_pos cu) (c_prev cu) (c_rest cu) cs.

Fixpoint mtr (fl : flags) (r : regex) (k : kont) (cu : cursor) (cs : caps) {struct r}
  : option (cursor * caps) :=
  match r with
  | Eps => k cu cs
  | Chr p => step_if (chr_match fl p) k cu cs
  | Any => step_if (any_match fl) k cu cs
  | Cls items => step_if (cls_match fl items) k cu cs
  | Seq a b => mtr fl a (mtr fl b k) cu cs
  | Alt a b =>
      match mtr fl a k cu cs with
      | Some x => Some x
      | None => mtr fl b k cu cs
      end
  | Star greedy (Chr p) => run greedy (chr_match fl p) k cu cs
  | Star greedy Any => run greedy (any_match fl) k cu cs
  | Star greedy (Cls items) => run greedy (cls_match fl items) k cu cs
  | Star greedy a => star_loop (mtr fl a) greedy k (S (List.length (c_rest cu))) cu cs
  | Group n a => mtr fl a (fun cu' cs' => k cu' ((n, (c_pos cu, c_pos cu')) :: cs')) cu cs
  | Look positive a =>
      match mtr fl a k_done cu cs with
      | Some (_, cs') => if positive then k cu cs' else None
      | None => if positive then None else k cu cs
      end
  | Bol => if at_bol fl cu then k cu cs else None
  | Eol => if at_eol fl cu then k cu cs else None
  | EndZ => if at_end cu then k cu cs else None
  | WordB => if at_word_boundary cu then k cu cs else None
  end.

(** The end of the two fenced-block patterns: [(.*?)\n```] with the group
    numbered [n], and the same after [\s*\n]. *)
Definition body_tail (n : nat) : regex :=
  Seq (Group n (Star false Any)) (Seq (Chr NL) (Lit (py "```"))).

Definition ws_body_tail (n : nat) : regex :=
  Seq (Star true (Cls [CSpace])) (Seq (Chr NL) (body_tail n)).

Definition mtr_tail (fl : flags) (n : nat) (k : kont) : kont := mtr fl (body_tail n) k.

Definition mtr_ws_tail (fl : flags) (n : nat) (k : kont) : kont :=
  mtr fl (ws_body_tail n) k.

Definition no_backtick (s : pystr) : bool := forallb (fun c => negb (c =? 96)%N) s.


(** A continuation that cannot accept before a character failing [g]. *)
Definition fails_unless (g : char -> bool) (k : kont) : Prop :=
  forall cu cs c t, c_rest cu = c :: t -> g c = false -> k cu cs = None.
(* ================================================================= *)
(** ** The components as the specification words them *)

(** *** Format classifier *)

(** Rule 3 as amended: three backticks directly followed by the letters
    json, patch or diff stand somewhere in the text. Nothing is asked of
    what comes before or after them: the mark need not begin a line, no
    closing fence is looked for, and the tag may go on (jsonnet). *)
Definition has_fence_tag (s : pystr) : bool :=
  contains (py "```json") s || contains (py "```patch") s || contains (py "```diff") s.

(** Rule 3 as the claim words it, a fenced block tagged json, patch or
    diff: a line that is the opening fence with exactly this tag, and a
    later line that begins with a closing fence. *)
Fixpoint tagged_block_in (ls : list pystr) : bool :=
  match ls with
  | [] => false
  | l :: rest =>
      (existsb (fun tag => str_eqb (strip l) (py "```" ++ tag))
               [py "json"; py "patch"; py "diff"]
       && existsb (fun l' => startswith (py "```") (lstrip l')) rest)
      || tagged_block_in rest
  end.

Definition has_tagged_block (s : pystr) : bool := tagged_block_in (split_on NL s).

Fixpoint drop_hashes (s : pystr) : pystr :=
  match s with
  | c :: t => if (c =? 35)%N then drop_hashes t else s
  | [] => []
  end.

(** One or more [#] and then a whitespace character. *)
Definition heading_here (s : pystr) : bool :=
  match s with
  | c :: t => (c =? 35)%N &&
              match drop_hashes t with
              | w :: _ => is_space w
              | [] => false
              end
  | [] => false
  end.

(** A heading at the beginning of some line of [s]; [line_start] tells
    whether [s] itself begins a line. *)
Fixpoint has_heading_from (line_start : bool) (s : pystr) : bool :=
  (line_start && heading_here s) ||
  match s with
  | [] => false
  | c :: t => has_heading_from (c =? NL)%N t
  end.

Definition has_heading (s : pystr) : bool := has_heading_from true s.

(** The decision list of the claim as amended, first match wins: rule 1
    decodes the text as given (only the test for the opening brace or
    bracket looks at the trimmed text), rule 3 is [has_fence_tag]. *)
Definition classify_spec (content : pystr) : pystr :=
  let trimmed := strip content in
  if (startswith (py "{") trimmed || startswith (py "[") trimmed)
     && is_ok (json_loads content) then py "json"
  else if contains (py "---") (firstn 100 content) && is_ok (yaml_safe_load content)
  then py "yaml"
  else if has_fence_tag content then py "mixed"
  else if has_heading content then py "markdown"
  else py "text".

(** The decision list as the claim words it: rule 1 decodes the trimmed
    text, rule 3 asks for a fenced block with one of the three tags. *)
Definition classify_claimed (content : pystr) : pystr :=
  let trimmed := strip content in
  if (startswith (py "{") trimmed || startswith (py "[") trimmed)
     && is_ok (json_loads trimmed) then py "json"
  else if contains (py "---") (firstn 100 content) && is_ok (yaml_safe_load content)
  then py "yaml"
  else if has_tagged_block content then py "mixed"
  else if has_heading content then py "markdown"
  else py "text".

Definition shape_tags : list pystr :=
  [py "json"; py "yaml"; py "mixed"; py "markdown"; py "text"].

(** *** Commit-message extractor *)

(** Deduplication that keeps the first occurrence of every entry, in the
    order of these first occurrences; [seen] holds the entries already
    met. *)
Fixpoint dedup_seen (seen l : list pystr) : list pystr :=
  match l with
  | [] => []
  | x :: t =>
      if existsb (str_eqb x) seen then dedup_seen seen t
      else x :: dedup_seen (seen ++ [x]) t
  end.

Definition dedup_first (l : list pystr) : list pystr := dedup_seen [] l.

(** The captures of one pattern family, trimmed, those longer than 10
    characters kept. *)
Definition family_candidates (content : pystr) (pattern : regex) : list pystr :=
  filter (fun t => Nat.ltb 10 (List.length t))
         (map strip (re_findall1 F_IM pattern content)).

Definition commit_candidates (content : pystr) : list pystr :=
  List.concat (map (family_candidates content) commit_patterns).

Definition commit_messages_spec (content : pystr) : list pystr :=
  firstn 5 (dedup_first (commit_candidates content)).

(** *** Response record *)

(** The fields of the data model. *)
Definition has_key (k : pystr) (r : value) : bool :=
  match r with
  | VDict d => dict_has k d
  | _ => false
  end.

Definition has_all_fields (r : value) : bool :=
  has_key (py "changes") r && has_key (py "patches") r && has_key (py "commits") r
  && has_key (py "summary") r && (has_key (py "sections") r || has_key (py "details") r)
  && has_key (py "metadata") r.

Definition get_key (k : pystr) (r : value) : option value :=
  match r with
  | VDict d => dict_get k d
  | _ => None
  end.

(** The metadata attached by the assembler. *)
Definition metadata_record (response_file response_type now : pystr) (content : pystr)
  : value :=
  VDict [ (py "response_file", VStr response_file);
          (py "response_type", VStr response_type);
          (py "parsed_at", VStr now);
          (py "content_length", VInt (Z.of_nat (List.length content))) ].

(** *** Patch extractor *)

(** The header pair at the beginning of [s]: [--- a/], a non-empty path
    up to the end of the line, then the line [+++ b/] with a non-empty
    path and its newline. The result holds the two paths. *)
Definition header_here (s : pystr) : option (pystr * pystr) :=
  if startswith (py "--- a/") s then
    let s1 := skipn 6 s in
    let path := fst (take_line s1) in
    if nonempty path then
      let s2 := skipn (List.length path) s1 in
      if startswith [NL] s2 then
        let s3 := skipn 1 s2 in
        if startswith (py "+++ b/") s3 then
          let s4 := skipn 6 s3 in
          let path' := fst (take_line s4) in
          if nonempty path' then
            if startswith [NL] (skipn (List.length path') s4) then Some (path, path')
            else None
          else None
        else None
      else None
    else None
  else None.

(** The first header pair of [s], left to right. *)
Fixpoint first_header (s : pystr) : option (pystr * pystr) :=
  match header_here s with
  | Some p => Some p
  | None =>
      match s with
      | [] => None
      | _ :: t => first_header t
      end
  end.

(** The file of a patch: the path on the [a/] side of its first header
    pair, else unknown. *)
Definition header_file (s : pystr) : pystr :=
  match first_header s with
  | Some (path, _) => path
  | None => py "unknown"
  end.

(** The record of a patch found as a diff. *)
Definition patch_record (content file : pystr) : value :=
  VDict [ (py "content", VStr content);
          (py "file", VStr file);
          (py "format", VStr (py "unified_diff")) ].

(** *** Fenced blocks *)







(** *** Markdown parser *)

(** No line of [b] begins with [#], also when [b] follows a newline. *)
Definition no_heading_line (b : pystr) : Prop := contains (py "\n#") (NL :: b) = false.

(** A text after which a line begins: it is empty or ends with a
    newline. *)
Definition line_start (pre : pystr) : bool :=
  match last_char pre with
  | None => true
  | Some c => (c =? NL)%N
  end.

(** No match of [\n#+\s+] can begin in [skip] when [rest] follows it:
    nowhere in [skip] does the text go on with a newline and a [#]. *)
Definition quiet (skip rest : pystr) : Prop :=
  forall s1 s2, skip = s1 ++ s2 -> s2 <> [] -> startswith (py "\n#") (s2 ++ rest) = false.


(** *** The records of the shape parsers *)

(** The record of the markdown parser: a list under [changes], a string
    under [summary], a dictionary under [details]. *)
Definition markdown_record (d : dict) : Prop :=
  (exists changes, dict_get (py "changes") d = Some (VList changes)) /\
  (exists summary, dict_get (py "summary") d = Some (VStr summary)) /\
  (exists details, dict_get (py "details") d = Some (VDict details)).

(** The record of the mixed parser: lists under [changes] and
    [code_blocks], a dictionary under [sections]. *)
Definition mixed_record (d : dict) : Prop :=
  (exists changes, dict_get (py "changes") d = Some (VList changes)) /\
  (exists code_blocks, dict_get (py "code_blocks") d = Some (VList code_blocks)) /\
  (exists sections, dict_get (py "sections") d = Some (VDict sections)).

(** A path on a header line inside a fenced block: not empty, on one
    line, without a backtick. *)
Definition path_text (p : pystr) : bool :=
  nonempty p && forallb (fun c => negb (c =? NL)%N && negb (c =? 96)%N) p.

(** *** Key-value lines *)

(** A string that is not empty and has no whitespace at its ends. *)
Definition trimmed (s : pystr) : bool :=
  match s with
  | [] => false
  | c :: _ => negb (is_space c)
  end
  && match rev s with
     | [] => false
     | c :: _ => negb (is_space c)
     end.

(** Whitespace within a line. *)
Definition blanks (ws : pystr) : bool :=
  forallb (fun c => is_space c && negb (c =? NL)%N) ws.

(** A key: trimmed, on one line, without colon and equals sign. *)
Definition key_text (k : pystr) : bool :=
  trimmed k
  && forallb (fun c => negb (c =? NL)%N && negb (c =? 58)%N && negb (c =? 61)%N) k.

(** A value: trimmed, on one line, not opening a JSON list or object. *)
Definition value_text (v : pystr) : bool :=
  trimmed v && forallb (fun c => negb (c =? NL)%N) v
  && negb (startswith (py "[") v) && negb (startswith (py "{") v).

(** *** Lines *)

(** The end of a line: the end of the text, or a newline. *)
Definition line_end (tail : pystr) : bool :=
  match tail with
  | [] => true
  | c :: _ => (c =? NL)%N
  end.

(** The text read by [(?:\n|$)] at a line end. *)
Definition line_break (tail : pystr) : pystr :=
  match tail with
  | [] => []
  | c :: _ => [c]
  end.

(** A file name on a line: trimmed, without a newline, with a dot. *)
Definition file_text (p : pystr) : bool :=
  trimmed p && forallb (fun c => negb (c =? NL)%N) p && contains (py ".") p.

(** A line of prose: trimmed, without a newline, longer than ten
    characters, without a colon and without a backtick. *)
Definition prose_text (s : pystr) : bool :=
  trimmed s && Nat.ltb 10 (List.length s)
  && forallb (fun c => negb (c =? NL)%N && negb (c =? 58)%N && negb (c =? 96)%N) s.

(** *** Replacement directives *)

Definition is_quote (c : char) : bool := (c =? QUOTE)%N || (c =? 39)%N.

(** The text to replace: not empty, on one line, without quotes and
    without the arrow. *)
Definition old_text (s : pystr) : bool :=
  nonempty s
  && forallb (fun c => negb (c =? NL)%N && negb (is_quote c) && negb (c =? ARROW)%N) s.

(** The replacement: not empty, without whitespace and without quotes. *)
Definition new_text (s : pystr) : bool :=
  nonempty s && forallb (fun c => negb (is_space c) && negb (is_quote c)) s.
(* ================================================================= *)
(** ** The matcher against the declarative reading *)

Lemma step_if_some f k cu cs x :
  step_if f k cu cs = Some x ->
  exists c rest, c_rest cu = c :: rest /\ f c = true /\ k (advance cu c rest) cs = Some x.
Proof.
  unfold step_if. destruct (c_rest cu) as [|c rest]; [discriminate|].
  destruct (f c) eqn:E; [|discriminate].
  intros H. exists c, rest. auto.
Qed.

Lemma step_if_complete f (k : kont) cu cu' cs :
  step_rel f cu cu' -> (forall cs', k cu' cs' <> None) -> step_if f k cu cs <> None.
Proof.
  intros (c & rest & Hr & Hf & ->) Hk. unfold step_if. rewrite Hr, Hf. apply Hk.
Qed.

(** A match reads a piece of the remaining text and moves the cursor
    over it. *)
Definition spans (cu cu' : cursor) (txt : pystr) : Prop :=
  c_rest cu = txt ++ c_rest cu' /\
  c_pos cu' = c_pos cu + List.length txt /\
  c_prev cu' = match rev txt with [] => c_prev cu | c :: _ => Some c end.

Lemma spans_refl cu : spans cu cu [].
Proof. repeat split; simpl; auto. Qed.

Lemma spans_trans cu mid cu' t1 t2 :
  spans cu mid t1 -> spans mid cu' t2 -> spans cu cu' (t1 ++ t2).
Proof.
  intros (R1 & P1 & V1) (R2 & P2 & V2). repeat split.
  - rewrite R1, R2, app_assoc. reflexivity.
  - rewrite P2, P1, length_app. lia.
  - rewrite V2, rev_app_distr. destruct (rev t2); simpl; auto.
Qed.

Lemma step_rel_spans f cu cu' : step_rel f cu cu' -> exists c, spans cu cu' [c] /\ f c = true.
Proof.
  intros (c & rest & Hr & Hf & ->). exists c. split; [|exact Hf].
  repeat split; simpl; auto. lia.
Qed.

Lemma iter_spans (R : cursor -> cursor -> Prop) :
  (forall cu cu', R cu cu' -> exists txt, spans cu cu' txt) ->
  forall cu cu', iter R cu cu' -> exists txt, spans cu cu' txt.
Proof.
  intros HR cu cu' H. induction H as [cu | cu mid cu' H1 _ _ IH].
  - exists []. apply spans_refl.
  - destruct (HR _ _ H1) as (t1 & S1). destruct IH as (t2 & S2).
    exists (t1 ++ t2). eapply spans_trans; eauto.
Qed.

Lemma matches_spans fl r : forall cu cu', matches fl r cu cu' -> exists txt, spans cu cu' txt.
Proof.
  induction r as [ | p | | items | a IHa b IHb | a IHa b IHb | g a IHa | n a IHa
                   | p a IHa | | | | ]; simpl; intros cu cu' H.
  - subst. exists []. apply spans_refl.
  - destruct (step_rel_spans _ _ _ H) as (c & S & _). eauto.
  - destruct (step_rel_spans _ _ _ H) as (c & S & _). eauto.
  - destruct (step_rel_spans _ _ _ H) as (c & S & _). eauto.
  - destruct H as (mid & H1 & H2).
    destruct (IHa _ _ H1) as (t1 & S1). destruct (IHb _ _ H2) as (t2 & S2).
    exists (t1 ++ t2). eapply spans_trans; eauto.
  - destruct H as [H | H]; eauto.
  - eapply iter_spans; eauto.
  - eauto.
  - destruct H as [-> _]. exists []. apply spans_refl.
  - destruct H as [-> _]. exists []. apply spans_refl.
  - destruct H as [-> _]. exists []. apply spans_refl.
  - destruct H as [-> _]. exists []. apply spans_refl.
  - destruct H as [-> _]. exists []. apply spans_refl.
Qed.

Lemma spans_length cu cu' txt :
  spans cu cu' txt ->
  List.length (c_rest cu) = List.length txt + List.length (c_rest cu').
Proof. intros (R & _ & _). rewrite R, length_app. reflexivity. Qed.

(** Soundness and completeness of the loop of a repetition, given those
    of its body. *)
Lemma star_loop_sound (body : kont -> kont) (R : cursor -> cursor -> Prop) greedy k fuel :
  (forall k cu cs x,
      body k cu cs = Some x -> exists cu' cs', R cu cu' /\ k cu' cs' = Some x) ->
  forall cu cs x,
  star_loop body greedy k fuel cu cs = Some x ->
  exists cu' cs', iter R cu cu' /\ k cu' cs' = Some x.
Proof.
  intros body_sound. induction fuel as [|f IH]; simpl; intros cu cs x H.
  - exists cu, cs. split; [constructor | exact H].
  - assert (Hagain : forall y,
      body (fun cu' cs' => if Nat.ltb (c_pos cu) (c_pos cu')
                           then star_loop body greedy k f cu' cs' else None) cu cs = Some y ->
      exists cu' cs', iter R cu cu' /\ k cu' cs' = Some y).
    { intros y Hy. apply body_sound in Hy. destruct Hy as (mid & cs1 & HR & Hk).
      destruct (Nat.ltb (c_pos cu) (c_pos mid)) eqn:E; [|discriminate].
      apply Nat.ltb_lt in E. apply IH in Hk. destruct Hk as (cu' & cs' & Hi & Hk).
      exists cu', cs'. split; [|exact Hk]. econstructor; eauto. }
    destruct greedy.
    + destruct (body _ cu cs) as [y|] eqn:E.
      * inversion H; subst. apply Hagain. reflexivity.
      * exists cu, cs. split; [constructor | exact H].
    + destruct (k cu cs) as [y|] eqn:E.
      * inversion H; subst. exists cu, cs. split; [constructor | exact E].
      * apply Hagain. exact H.
Qed.

Lemma star_loop_complete (body : kont -> kont) (R : cursor -> cursor -> Prop)
      greedy (k : kont) cu cu' :
  (forall (k : kont) cu cu' cs,
      R cu cu' -> (forall cs', k cu' cs' <> None) -> body k cu cs <> None) ->
  (forall cu cu', R cu cu' -> exists txt, spans cu cu' txt) ->
  iter R cu cu' -> (forall cs', k cu' cs' <> None) ->
  forall fuel cs, List.length (c_rest cu) < fuel ->
  star_loop body greedy k fuel cu cs <> None.
Proof.
  intros body_complete R_spans Hi Hk. induction Hi as [cu | cu mid cu' H1 Hlt Hi IH]; intros fuel cs Hfuel.
  - destruct fuel as [|f]; simpl; [apply Hk|].
    destruct greedy.
    + destruct (body _ cu cs); [discriminate | apply Hk].
    + destruct (k cu cs) eqn:E; [discriminate | exfalso; eapply Hk; eauto].
  - destruct fuel as [|f]; [lia|]. simpl.
    assert (Hagain :
      body (fun cu' cs' => if Nat.ltb (c_pos cu) (c_pos cu')
                           then star_loop body greedy k f cu' cs' else None) cu cs <> None).
    { eapply body_complete; [exact H1|]. intros cs'.
      apply Nat.ltb_lt in Hlt as E. rewrite E. apply IH; [exact Hk|].
      destruct (R_spans _ _ H1) as (txt & S). pose proof (spans_length _ _ _ S) as L.
      destruct S as (_ & P & _). lia. }
    destruct greedy.
    + destruct (body _ cu cs); [discriminate | contradiction].
    + destruct (k cu cs); [discriminate | exact Hagain].
Qed.

(** The matcher accepts exactly when the declarative reading has a match
    that the continuation accepts. *)
Lemma mt_correct fl r :
  (forall k cu cs x, mt fl r k cu cs = Some x ->
                     exists cu' cs', matches fl r cu cu' /\ k cu' cs' = Some x) /\
  (forall (k : kont) cu cu' cs, matches fl r cu cu' ->
                       (forall cs', k cu' cs' <> None) -> mt fl r k cu cs <> None).
Proof.
  induction r as [ | p | | items | a [Sa Ca] b [Sb Cb] | a [Sa Ca] b [Sb Cb] | g a [Sa Ca]
                   | n a [Sa Ca] | p a [Sa Ca] | | | | ]; cbn [mt matches].
  - split.
    + intros k cu cs x H. eauto.
    + intros k cu cu' cs -> Hk. apply Hk.
  - split.
    + intros k cu cs x H. apply step_if_some in H. destruct H as (c & rest & ? & ? & ?).
      exists (advance cu c rest), cs. split; [|assumption]. exists c, rest. auto.
    + intros k cu cu' cs H Hk. eapply step_if_complete; eauto.
  - split.
    + intros k cu cs x H. apply step_if_some in H. destruct H as (c & rest & ? & ? & ?).
      exists (advance cu c rest), cs. split; [|assumption]. exists c, rest. auto.
    + intros k cu cu' cs H Hk. eapply step_if_complete; eauto.
  - split.
    + intros k cu cs x H. apply step_if_some in H. destruct H as (c & rest & ? & ? & ?).
      exists (advance cu c rest), cs. split; [|assumption]. exists c, rest. auto.
    + intros k cu cu' cs H Hk. eapply step_if_complete; eauto.
  - split.
    + intros k cu cs x H. apply Sa in H. destruct H as (mid & cs1 & H1 & H).
      apply Sb in H. destruct H as (cu' & cs' & H2 & H). exists cu', cs'. eauto.
    + intros k cu cu' cs (mid & H1 & H2) Hk. eapply Ca; [exact H1|].
      intros cs'. eapply Cb; eauto.
  - split.
    + intros k cu cs x H. destruct (mt fl a k cu cs) as [y|] eqn:E.
      * inversion H; subst. apply Sa in E. destruct E as (cu' & cs' & ? & ?). eauto.
      * apply Sb in H. destruct H as (cu' & cs' & ? & ?). eauto.
    + intros k cu cu' cs [H | H] Hk.
      * destruct (mt fl a k cu cs) eqn:E; [discriminate|]. exfalso. eapply Ca; eauto.
      * destruct (mt fl a k cu cs) eqn:E; [discriminate|]. eapply Cb; eauto.
  - split.
    + intros k cu cs x H. eapply star_loop_sound; eauto.
    + intros k cu cu' cs H Hk.
      eapply star_loop_complete; eauto using matches_spans.
  - split.
    + intros k cu cs x H. apply Sa in H. destruct H as (cu' & cs' & ? & ?). eauto.
    + intros k cu cu' cs H Hk. eapply Ca; eauto.
  - split.
    + intros k cu cs x H. destruct (mt fl a k_done cu cs) as [[e cs1]|] eqn:E.
      * destruct p; [|discriminate]. exists cu, cs1. split; [|exact H].
        split; [reflexivity|]. apply Sa in E. destruct E as (cu' & _ & ? & _). eauto.
      * destruct p; [discriminate|]. exists cu, cs. split; [|exact H].
        split; [reflexivity|]. intros (e & He).
        eapply Ca; [exact He | | exact E]. intros cs'. discriminate.
    + intros k cu cu' cs [-> H] Hk. destruct (mt fl a k_done cu cs) as [[e cs1]|] eqn:E.
      * destruct p; [apply Hk|]. exfalso. apply H.
        apply Sa in E. destruct E as (cu' & _ & ? & _). eauto.
      * destruct p; [|apply Hk]. destruct H as (e & He). exfalso.
        eapply Ca; [exact He | | exact E]. intros cs'. discriminate.
  - split.
    + intros k cu cs x H. destruct (at_bol fl cu) eqn:E; [|discriminate]. eauto.
    + intros k cu cu' cs [-> H] Hk. rewrite H. apply Hk.
  - split.
    + intros k cu cs x H. destruct (at_eol fl cu) eqn:E; [|discriminate]. eauto.
    + intros k cu cu' cs [-> H] Hk. rewrite H. apply Hk.
  - split.
    + intros k cu cs x H. destruct (at_end cu) eqn:E; [|discriminate]. eauto.
    + intros k cu cu' cs [-> H] Hk. rewrite H. apply Hk.
  - split.
    + intros k cu cs x H. destruct (at_word_boundary cu) eqn:E; [|discriminate]. eauto.
    + intros k cu cu' cs [-> H] Hk. rewrite H. apply Hk.
Qed.

(* ================================================================= *)
(** ** Searching and scanning *)

Lemma last_char_app pre txt :
  last_char (pre ++ txt) = match rev txt with [] => last_char pre | c :: _ => Some c end.
Proof.
  unfold last_char. rewrite rev_app_distr. destruct (rev txt); reflexivity.
Qed.

Lemma spans_cur pre post cu' txt :
  spans (cur pre post) cu' txt ->
  post = txt ++ c_rest cu' /\ cu' = cur (pre ++ txt) (c_rest cu').
Proof.
  intros (R & P & V). simpl in R, P, V. split; [exact R|].
  destruct cu' as [p v rest]. simpl in R, P, V |- *. unfold cur.
  rewrite length_app, last_char_app. congruence.
Qed.

Lemma matches_cur fl r pre post cu' :
  matches fl r (cur pre post) cu' ->
  exists txt post', post = txt ++ post' /\ cu' = cur (pre ++ txt) post'.
Proof.
  intros H. destruct (matches_spans _ _ _ _ H) as (txt & S).
  apply spans_cur in S. destruct S as [S1 S2]. eauto.
Qed.

Lemma cur_snoc pre c post : advance (cur pre (c :: post)) c post = cur (pre ++ [c]) post.
Proof.
  unfold advance, cur. simpl. rewrite length_app, last_char_app. simpl.
  f_equal. lia.
Qed.

Lemma match_at_sound fl r ma cu m :
  match_at fl r ma cu = Some m ->
  m_start m = c_pos cu /\ matches fl r cu (m_end m) /\
  (ma = true -> c_pos (m_end m) <> c_pos cu).
Proof.
  unfold match_at. destruct (mt fl r _ cu []) as [[cu' cs]|] eqn:E; [|discriminate].
  intros H. inversion H; subst; clear H. simpl.
  apply (proj1 (mt_correct fl r)) in E. destruct E as (e & cs' & Hm & Hk).
  unfold k_top in Hk.
  destruct (ma && Nat.eqb (c_pos e) (c_pos cu)) eqn:B; [discriminate|].
  inversion Hk; subst. repeat split; auto.
  intros ->. simpl in B. apply Nat.eqb_neq in B. exact B.
Qed.

Lemma match_at_complete fl r ma cu cu' :
  matches fl r cu cu' -> (ma = false \/ c_pos cu' <> c_pos cu) ->
  match_at fl r ma cu <> None.
Proof.
  intros Hm Hma. unfold match_at.
  destruct (mt fl r _ cu []) as [[e cs]|] eqn:E; [discriminate|].
  exfalso. eapply (proj2 (mt_correct fl r)); [exact Hm | | exact E].
  intros cs'. unfold k_top. destruct Hma as [-> | Hne]; simpl; [discriminate|].
  apply Nat.eqb_neq in Hne. rewrite Hne, andb_false_r. discriminate.
Qed.

Lemma match_at_cur fl r ma pre post m :
  match_at fl r ma (cur pre post) = Some m ->
  exists txt post',
    post = txt ++ post' /\
    m_start m = List.length pre /\
    m_end m = cur (pre ++ txt) post' /\
    matches fl r (cur pre (txt ++ post')) (m_end m) /\
    (ma = true -> txt <> []).
Proof.
  intros E. apply match_at_sound in E. destruct E as (St & Hm & Hma).
  destruct (matches_cur _ _ _ _ _ Hm) as (txt & post' & Hp & He).
  exists txt, post'. split; [exact Hp|]. split; [exact St|]. split; [exact He|].
  split; [rewrite <- Hp; exact Hm|].
  intros Ht Hn. apply (Hma Ht). rewrite He, Hn. simpl. rewrite app_nil_r. reflexivity.
Qed.

(** A successful search: some text is skipped, then the pattern
    matches. *)
Lemma search_from_sound fl r : forall post ma pre m,
  search_from fl r ma (List.length pre) (last_char pre) post = Some m ->
  exists skip txt post',
    post = skip ++ txt ++ post' /\
    m_start m = List.length (pre ++ skip) /\
    m_end m = cur (pre ++ skip ++ txt) post' /\
    matches fl r (cur (pre ++ skip) (txt ++ post')) (m_end m) /\
    (ma = true -> skip = [] -> txt <> []).
Proof.
  assert (Hhere : forall post ma pre m,
             match_at fl r ma (cur pre post) = Some m ->
             exists skip txt post',
               post = skip ++ txt ++ post' /\
               m_start m = List.length (pre ++ skip) /\
               m_end m = cur (pre ++ skip ++ txt) post' /\
               matches fl r (cur (pre ++ skip) (txt ++ post')) (m_end m) /\
               (ma = true -> skip = [] -> txt <> [])).
  { intros post ma pre m E. apply match_at_cur in E.
    destruct E as (txt & post' & Hp & St & He & Hm & Hma).
    exists [], txt, post'. rewrite app_nil_r. simpl. auto 6. }
  induction post as [|c post IH]; intros ma pre m; simpl.
  - fold (cur pre []). destruct (match_at fl r ma (cur pre [])) as [m'|] eqn:E; [|discriminate].
    intros H; inversion H; subst; clear H. apply Hhere. exact E.
  - fold (cur pre (c :: post)).
    destruct (match_at fl r ma (cur pre (c :: post))) as [m'|] eqn:E.
    + intros H; inversion H; subst; clear H. apply Hhere. exact E.
    + intros H.
      replace (S (List.length pre)) with (List.length (pre ++ [c])) in H
        by (rewrite length_app; simpl; lia).
      replace (Some c) with (last_char (pre ++ [c])) in H
        by (rewrite last_char_app; reflexivity).
      apply IH in H. destruct H as (skip & txt & post' & Hp & St & He & Hm & _).
      exists (c :: skip), txt, post'.
      rewrite <- ?app_assoc in St, He, Hm. simpl in St, He, Hm |- *.
      split; [congruence|]. split; [exact St|]. split; [exact He|]. split; [exact Hm|].
      intros _ Hn. discriminate.
Qed.

(** A failed search: the pattern matches nowhere. *)
Lemma search_from_none fl r : forall post pre,
  search_from fl r false (List.length pre) (last_char pre) post = None ->
  forall skip rest cu', post = skip ++ rest -> ~ matches fl r (cur (pre ++ skip) rest) cu'.
Proof.
  induction post as [|c post IH]; intros pre; simpl.
  - fold (cur pre []). destruct (match_at fl r false (cur pre [])) eqn:E; [discriminate|].
    intros _ skip rest cu' Hp Hm.
    symmetry in Hp. apply app_eq_nil in Hp. destruct Hp as [-> ->].
    rewrite app_nil_r in Hm. eapply match_at_complete; eauto.
  - fold (cur pre (c :: post)).
    destruct (match_at fl r false (cur pre (c :: post))) eqn:E; [discriminate|].
    intros H skip rest cu' Hp Hm.
    destruct skip as [|c' skip]; simpl in Hp.
    + subst rest. rewrite app_nil_r in Hm. eapply match_at_complete; eauto.
    + inversion Hp; subst c' post.
      replace (S (List.length pre)) with (List.length (pre ++ [c])) in H
        by (rewrite length_app; simpl; lia).
      replace (Some c) with (last_char (pre ++ [c])) in H
        by (rewrite last_char_app; reflexivity).
      eapply (IH _ H skip rest cu' eq_refl).
      rewrite <- app_assoc. exact Hm.
Qed.

Lemma search_from_complete fl r pre skip rest cu' :
  matches fl r (cur (pre ++ skip) rest) cu' ->
  search_from fl r false (List.length pre) (last_char pre) (skip ++ rest) <> None.
Proof.
  intros Hm Hn. eapply search_from_none; eauto.
Qed.

(** [re.search] finds a match exactly when the pattern matches somewhere
    in the subject. *)
Lemma re_search_iff fl r s :
  is_some (re_search fl r s) = true <->
  exists pre post cu', s = pre ++ post /\ matches fl r (cur pre post) cu'.
Proof.
  unfold re_search. split.
  - destruct (search_from fl r false 0 None s) as [m|] eqn:E; [|discriminate].
    intros _. apply (search_from_sound fl r s false []) in E.
    destruct E as (skip & txt & post' & Hp & _ & _ & Hm & _).
    exists skip, (txt ++ post'), (m_end m). auto.
  - intros (pre & post & cu' & -> & Hm).
    pose proof (@search_from_complete fl r [] pre post cu' Hm) as H.
    change (last_char []) with (@None char) in H. simpl in H.
    destruct (search_from fl r false 0 None (pre ++ post)); [reflexivity | contradiction].
Qed.

(** Every match reported by a scan lies in the subject and is a match of
    the pattern there. *)
Definition match_in (fl : flags) (r : regex) (s : pystr) (m : rmatch) : Prop :=
  exists pre txt post,
    s = pre ++ txt ++ post /\
    m_start m = List.length pre /\
    m_end m = cur (pre ++ txt) post /\
    matches fl r (cur pre (txt ++ post)) (m_end m).

Lemma scan_sound fl r : forall fuel ma pre post m,
  In m (scan fl r fuel ma (cur pre post)) -> match_in fl r (pre ++ post) m.
Proof.
  induction fuel as [|f IH]; intros ma pre post m; simpl; [intros []|].
  destruct (search_from fl r ma (List.length pre) (last_char pre) post) as [m1|] eqn:E;
    [|intros []].
  apply search_from_sound in E.
  destruct E as (skip & txt & post' & Hp & St & He & Hm & _).
  rewrite Hp. intros [Hm1 | Hin].
  - rewrite <- Hm1. exists (pre ++ skip), txt, post'.
    split; [rewrite <- app_assoc; reflexivity|]. split; [exact St|].
    split; [rewrite <- app_assoc; exact He | exact Hm].
  - rewrite He in Hin. apply IH in Hin.
    rewrite <- !app_assoc in Hin. exact Hin.
Qed.

Lemma re_finditer_sound fl r s m : In m (re_finditer fl r s) -> match_in fl r s m.
Proof.
  unfold re_finditer. intros H. apply (scan_sound fl r _ false [] s) in H. exact H.
Qed.

Lemma match_in_group0 fl r s m :
  match_in fl r s m ->
  exists pre txt post, s = pre ++ txt ++ post /\ group0 s m = txt /\
                       matches fl r (cur pre (txt ++ post)) (cur (pre ++ txt) post).
Proof.
  intros (pre & txt & post & Hs & St & He & Hm).
  exists pre, txt, post. split; [exact Hs|]. split; [|rewrite <- He; exact Hm].
  unfold group0, m_stop, slice. rewrite St, He, Hs. simpl.
  rewrite skipn_app, skipn_all, Nat.sub_diag. simpl.
  rewrite length_app.
  replace (List.length pre + List.length txt - List.length pre) with (List.length txt) by lia.
  rewrite firstn_app, firstn_all, Nat.sub_diag. simpl. apply app_nil_r.
Qed.

(* ================================================================= *)
(** ** Reading patterns at a position of the subject *)

Lemma bool_eq_iff (a b : bool) : (a = true <-> b = true) -> a = b.
Proof.
  destruct a, b; intros [H1 H2]; try reflexivity.
  - symmetry. apply H1. reflexivity.
  - apply H2. reflexivity.
Qed.

Lemma startswith_iff p : forall s, startswith p s = true <-> exists rest, s = p ++ rest.
Proof.
  induction p as [|a p IH]; intros s; simpl.
  - split; [intros _; eauto | reflexivity].
  - destruct s as [|b s].
    + split; [discriminate | intros (rest & H); discriminate].
    + rewrite andb_true_iff, N.eqb_eq, IH. split.
      * intros [-> (rest & ->)]. eauto.
      * intros (rest & H). inversion H; subst. eauto.
Qed.

Lemma contains_iff sub : forall s,
  contains sub s = true <-> exists pre rest, s = pre ++ sub ++ rest.
Proof.
  induction s as [|c s IH].
  - simpl. rewrite orb_false_r, startswith_iff. split.
    + intros (rest & H). exists [], rest. exact H.
    + intros (pre & rest & H). destruct pre; simpl in H; [eauto | discriminate].
  - cbn [contains]. rewrite orb_true_iff, startswith_iff, IH. split.
    + intros [(rest & H) | (pre & rest & H)].
      * exists [], rest. exact H.
      * exists (c :: pre), rest. rewrite H. reflexivity.
    + intros (pre & rest & H). destruct pre as [|c' pre]; simpl in H.
      * left. eauto.
      * right. inversion H; subst. eauto.
Qed.

Lemma cur_inj_rest pre post pre' post' : cur pre post = cur pre' post' -> post = post'.
Proof. unfold cur. intros H. inversion H. reflexivity. Qed.

Lemma step_rel_cur f pre post cu' :
  step_rel f (cur pre post) cu' <->
  exists c rest, post = c :: rest /\ f c = true /\ cu' = cur (pre ++ [c]) rest.
Proof.
  unfold step_rel. split; intros (c & rest & Hr & Hf & ->); exists c, rest.
  - simpl in Hr. subst post. rewrite cur_snoc. auto.
  - simpl. subst post. rewrite cur_snoc. auto.
Qed.

(** A repetition of a one-character pattern reads a run of characters. *)
Lemma iter_steps_cur f cu cu' :
  iter (step_rel f) cu cu' ->
  forall pre post, cu = cur pre post ->
  exists run rest, post = run ++ rest /\ forallb f run = true /\ cu' = cur (pre ++ run) rest.
Proof.
  induction 1 as [cu | cu mid cu' H1 _ _ IH]; intros pre post ->.
  - exists [], post. rewrite app_nil_r. auto.
  - apply step_rel_cur in H1. destruct H1 as (c & rest & -> & Hf & ->).
    destruct (IH _ _ eq_refl) as (run & rest' & -> & Hrun & ->).
    exists (c :: run), rest'. simpl. rewrite Hf, Hrun, <- app_assoc. auto.
Qed.

Lemma iter_steps_cur_intro f run : forall pre rest,
  forallb f run = true -> iter (step_rel f) (cur pre (run ++ rest)) (cur (pre ++ run) rest).
Proof.
  induction run as [|c run IH]; intros pre rest H; simpl in H |- *.
  - rewrite app_nil_r. constructor.
  - apply andb_true_iff in H. destruct H as [Hc Hrun].
    apply iter_more with (mid := cur (pre ++ [c]) (run ++ rest)).
    + apply step_rel_cur. exists c, (run ++ rest). auto.
    + simpl. rewrite length_app. simpl. lia.
    + replace (pre ++ c :: run) with ((pre ++ [c]) ++ run)
        by (rewrite <- app_assoc; reflexivity).
      apply IH. exact Hrun.
Qed.

(** Literal text, case-sensitively. *)
Lemma matches_Chr fl c pre post cu' : IGNORECASE fl = false ->
  (matches fl (Chr c) (cur pre post) cu' <->
   exists rest, post = c :: rest /\ cu' = cur (pre ++ [c]) rest).
Proof.
  intros Hfl. cbn [matches]. rewrite step_rel_cur. unfold chr_match. rewrite Hfl. split.
  - intros (c' & rest & -> & E & ->). apply N.eqb_eq in E. subst. eauto.
  - intros (rest & -> & ->). exists c, rest. rewrite N.eqb_refl. auto.
Qed.

Lemma matches_Lit fl w : IGNORECASE fl = false -> forall pre post cu',
  matches fl (Lit w) (cur pre post) cu' <->
  exists rest, post = w ++ rest /\ cu' = cur (pre ++ w) rest.
Proof.
  intros Hfl. induction w as [|c w IH]; intros pre post cu'.
  - simpl. rewrite app_nil_r. split.
    + intros ->. eauto.
    + intros (rest & -> & ->). reflexivity.
  - destruct w as [|c2 w]; [apply matches_Chr; exact Hfl|].
    change (Lit (c :: c2 :: w)) with (Seq (Chr c) (Lit (c2 :: w))).
    cbn [matches]. split.
    + intros (mid & H1 & H2).
      apply matches_Chr in H1; [|exact Hfl]. destruct H1 as (rest & -> & ->).
      apply IH in H2. destruct H2 as (rest' & -> & ->).
      exists rest'. rewrite <- app_assoc. auto.
    + intros (rest & -> & ->). exists (cur (pre ++ [c]) ((c2 :: w) ++ rest)). split.
      * apply matches_Chr; [exact Hfl|]. exists ((c2 :: w) ++ rest). auto.
      * apply IH. exists rest. rewrite <- app_assoc. auto.
Qed.

(* ================================================================= *)
(** ** The spans of the groups *)

Lemma group_in_weaken fl r r' s e :
  (forall n body, group_body n body r' -> group_body n body r) ->
  group_in fl r' s e -> group_in fl r s e.
Proof.
  intros Hw (body & X & g & rest & Hs & He & Hg & Hm).
  exists body, X, g, rest. auto.
Qed.

Lemma Forall_group_in_weaken fl r r' s l :
  (forall n body, group_body n body r' -> group_body n body r) ->
  Forall (group_in fl r' s) l -> Forall (group_in fl r s) l.
Proof.
  intros Hw H. eapply Forall_impl; [|exact H]. intros e. apply group_in_weaken. exact Hw.
Qed.

(** What the matcher hands to its continuation: the position after a
    match of the pattern, and the captures so far with the spans of the
    groups that took part put in front. *)
Definition mt_reports (fl : flags) (r : regex) (R : cursor -> cursor -> Prop) : Prop :=
  forall (k : kont) pre post cs x,
    mt fl r k (cur pre post) cs = Some x ->
    exists txt post' new,
      post = txt ++ post' /\
      R (cur pre post) (cur (pre ++ txt) post') /\
      k (cur (pre ++ txt) post') (new ++ cs) = Some x /\
      Forall (group_in fl r (pre ++ post)) new.

Lemma step_if_reports f (k : kont) pre post cs x :
  step_if f k (cur pre post) cs = Some x ->
  exists txt post',
    post = txt ++ post' /\ step_rel f (cur pre post) (cur (pre ++ txt) post') /\
    k (cur (pre ++ txt) post') cs = Some x.
Proof.
  intros H. apply step_if_some in H. destruct H as (c & rest & Hr & Hf & Hk).
  cbn [cur c_rest] in Hr. subst post. rewrite cur_snoc in Hk.
  exists [c], rest. split; [reflexivity|]. split; [|exact Hk].
  exists c, rest. split; [reflexivity|]. split; [exact Hf|]. symmetry. apply cur_snoc.
Qed.

Lemma star_loop_reports fl a greedy (k : kont) :
  mt_reports fl a (matches fl a) ->
  forall fuel pre post cs x,
    star_loop (mt fl a) greedy k fuel (cur pre post) cs = Some x ->
    exists txt post' new,
      post = txt ++ post' /\
      iter (matches fl a) (cur pre post) (cur (pre ++ txt) post') /\
      k (cur (pre ++ txt) post') (new ++ cs) = Some x /\
      Forall (group_in fl (Star greedy a) (pre ++ post)) new.
Proof.
  intros Ha. induction fuel as [|f IH]; intros pre post cs x H.
  - cbn [star_loop] in H. exists [], post, []. rewrite app_nil_r.
    split; [reflexivity|]. split; [apply iter_stop|]. split; [exact H | constructor].
  - cbn [star_loop] in H.
    assert (Hstop : forall x, k (cur pre post) cs = Some x ->
                    exists txt post' new,
                      post = txt ++ post' /\
                      iter (matches fl a) (cur pre post) (cur (pre ++ txt) post') /\
                      k (cur (pre ++ txt) post') (new ++ cs) = Some x /\
                      Forall (group_in fl (Star greedy a) (pre ++ post)) new).
    { intros x0 Hk. exists [], post, []. rewrite app_nil_r.
      split; [reflexivity|]. split; [apply iter_stop|]. split; [exact Hk | constructor]. }
    assert (Hmore : forall x, mt fl a
                      (fun cu' cs' =>
                         if Nat.ltb (c_pos (cur pre post)) (c_pos cu')
                         then star_loop (mt fl a) greedy k f cu' cs' else None)
                      (cur pre post) cs = Some x ->
                    exists txt post' new,
                      post = txt ++ post' /\
                      iter (matches fl a) (cur pre post) (cur (pre ++ txt) post') /\
                      k (cur (pre ++ txt) post') (new ++ cs) = Some x /\
                      Forall (group_in fl (Star greedy a) (pre ++ post)) new).
    { intros x0 Hb. apply Ha in Hb.
      destruct Hb as (t1 & p1 & n1 & Hp & Hm & Hk & Hg). subst post.
      destruct (Nat.ltb (c_pos (cur pre (t1 ++ p1))) (c_pos (cur (pre ++ t1) p1))) eqn:Elt;
        [|discriminate].
      apply IH in Hk. destruct Hk as (t2 & p2 & n2 & Hp2 & Hit & Hk & Hg2). subst p1.
      exists (t1 ++ t2), p2, (n2 ++ n1).
      rewrite <- ?app_assoc in Hit, Hk, Hg2 |- *.
      split; [reflexivity|]. split.
      - eapply iter_more; [exact Hm | apply Nat.ltb_lt; exact Elt | exact Hit].
      - split; [rewrite <- app_assoc; exact Hk|].
        apply Forall_app. split; [exact Hg2 | exact Hg]. }
    destruct greedy.
    + destruct (mt fl a _ (cur pre post) cs) as [y|] eqn:E.
      * inversion H; subst y. apply Hmore. reflexivity.
      * apply Hstop. exact H.
    + destruct (k (cur pre post) cs) as [y|] eqn:E.
      * inversion H; subst y. apply Hstop. reflexivity.
      * apply Hmore. exact H.
Qed.

Lemma mt_reports_all fl r : mt_reports fl r (matches fl r).
Proof.
  induction r as [|c| |items|a IHa b IHb|a IHa b IHb|greedy a IHa|n a IHa|positive a IHa
                  | | | | ];
    intros k pre post cs x H; cbn [mt] in H.
  - exists [], post, []. rewrite app_nil_r.
    split; [reflexivity|]. split; [reflexivity|]. split; [exact H | constructor].
  - apply step_if_reports in H. destruct H as (txt & post' & Hp & Hs & Hk).
    exists txt, post', []. split; [exact Hp|]. split; [exact Hs|]. split; [exact Hk | constructor].
  - apply step_if_reports in H. destruct H as (txt & post' & Hp & Hs & Hk).
    exists txt, post', []. split; [exact Hp|]. split; [exact Hs|]. split; [exact Hk | constructor].
  - apply step_if_reports in H. destruct H as (txt & post' & Hp & Hs & Hk).
    exists txt, post', []. split; [exact Hp|]. split; [exact Hs|]. split; [exact Hk | constructor].
  - apply IHa in H. destruct H as (t1 & p1 & n1 & Hp & Hm & Hk & Hg). subst post.
    apply IHb in Hk. destruct Hk as (t2 & p2 & n2 & Hp2 & Hm2 & Hk & Hg2). subst p1.
    exists (t1 ++ t2), p2, (n2 ++ n1).
    rewrite <- ?app_assoc in Hm2, Hk, Hg2 |- *.
    split; [reflexivity|]. split.
    + cbn [matches]. exists (cur (pre ++ t1) (t2 ++ p2)). split; [exact Hm | exact Hm2].
    + split; [rewrite <- app_assoc; exact Hk|]. apply Forall_app. split.
      * eapply Forall_group_in_weaken; [|exact Hg2]. intros n body Hb. right. exact Hb.
      * eapply Forall_group_in_weaken; [|exact Hg]. intros n body Hb. left. exact Hb.
  - destruct (mt fl a k (cur pre post) cs) as [y|] eqn:E.
    + inversion H; subst y. apply IHa in E.
      destruct E as (t1 & p1 & n1 & Hp & Hm & Hk & Hg).
      exists t1, p1, n1. split; [exact Hp|]. split; [left; exact Hm|]. split; [exact Hk|].
      eapply Forall_group_in_weaken; [|exact Hg]. intros n body Hb. left. exact Hb.
    + apply IHb in H. destruct H as (t1 & p1 & n1 & Hp & Hm & Hk & Hg).
      exists t1, p1, n1. split; [exact Hp|]. split; [right; exact Hm|]. split; [exact Hk|].
      eapply Forall_group_in_weaken; [|exact Hg]. intros n body Hb. right. exact Hb.
  - apply (star_loop_reports fl a greedy k IHa) in H. exact H.
  - apply IHa in H. destruct H as (t1 & p1 & n1 & Hp & Hm & Hk & Hg).
    exists t1, p1, ((n, (c_pos (cur pre post), c_pos (cur (pre ++ t1) p1))) :: n1).
    split; [exact Hp|]. split; [exact Hm|]. split; [exact Hk|].
    constructor.
    + exists a, pre, t1, p1. cbn [fst snd cur c_pos]. rewrite length_app.
      split; [rewrite Hp; reflexivity|]. split; [reflexivity|].
      split; [left; split; reflexivity|]. rewrite <- Hp. exact Hm.
    + eapply Forall_group_in_weaken; [|exact Hg]. intros m body Hb. right. exact Hb.
  - destruct (mt fl a k_done (cur pre post) cs) as [[cu1 cs1]|] eqn:E.
    + destruct positive; [|discriminate].
      apply IHa in E. destruct E as (t1 & p1 & n1 & Hp & Hm & Hk & Hg).
      unfold k_done in Hk. inversion Hk; subst cu1 cs1.
      exists [], post, n1. rewrite app_nil_r. split; [reflexivity|]. split.
      * cbn [matches]. split; [reflexivity|]. eauto.
      * split; [exact H|]. eapply Forall_group_in_weaken; [|exact Hg]. auto.
    + destruct positive; [discriminate|].
      exists [], post, []. rewrite app_nil_r. split; [reflexivity|]. split.
      * cbn [matches]. split; [reflexivity|]. intros (e & He).
        destruct (mt_correct fl a) as [_ Hc].
        apply (Hc k_done (cur pre post) e cs) in He; [contradiction|].
        intros cs'. discriminate.
      * split; [exact H | constructor].
  - destruct (at_bol fl (cur pre post)) eqn:E; [|discriminate].
    exists [], post, []. rewrite app_nil_r. split; [reflexivity|].
    split; [split; [reflexivity | exact E]|]. split; [exact H | constructor].
  - destruct (at_eol fl (cur pre post)) eqn:E; [|discriminate].
    exists [], post, []. rewrite app_nil_r. split; [reflexivity|].
    split; [split; [reflexivity | exact E]|]. split; [exact H | constructor].
  - destruct (at_end (cur pre post)) eqn:E; [|discriminate].
    exists [], post, []. rewrite app_nil_r. split; [reflexivity|].
    split; [split; [reflexivity | exact E]|]. split; [exact H | constructor].
  - destruct (at_word_boundary (cur pre post)) eqn:E; [|discriminate].
    exists [], post, []. rewrite app_nil_r. split; [reflexivity|].
    split; [split; [reflexivity | exact E]|]. split; [exact H | constructor].
Qed.

Lemma match_at_groups fl r ma pre post m :
  match_at fl r ma (cur pre post) = Some m ->
  Forall (group_in fl r (pre ++ post)) (m_caps m).
Proof.
  unfold match_at.
  destruct (mt fl r _ (cur pre post) []) as [[cu' cs']|] eqn:E; [|discriminate].
  intros H. inversion H; subst m. cbn [m_caps].
  apply mt_reports_all in E. destruct E as (t1 & p1 & n1 & Hp & Hm & Hk & Hg).
  unfold k_top in Hk. destruct (ma && _); [discriminate|].
  inversion Hk; subst cs'. rewrite app_nil_r. exact Hg.
Qed.

Lemma search_from_groups fl r : forall post ma pre m,
  search_from fl r ma (List.length pre) (last_char pre) post = Some m ->
  Forall (group_in fl r (pre ++ post)) (m_caps m).
Proof.
  induction post as [|c post IH]; intros ma pre m H; cbn [search_from] in H.
  - fold (cur pre []) in H. destruct (match_at fl r ma (cur pre [])) as [m1|] eqn:E;
      [|discriminate].
    inversion H; subst m1. eapply match_at_groups. exact E.
  - fold (cur pre (c :: post)) in H.
    destruct (match_at fl r ma (cur pre (c :: post))) as [m1|] eqn:E.
    + inversion H; subst m1. eapply match_at_groups. exact E.
    + replace (S (List.length pre)) with (List.length (pre ++ [c])) in H
        by (rewrite length_app; cbn [List.length]; lia).
      replace (Some c) with (last_char (pre ++ [c])) in H
        by (unfold last_char; rewrite rev_app_distr; reflexivity).
      apply IH in H. rewrite <- app_assoc in H. exact H.
Qed.

Lemma scan_groups fl r : forall fuel ma pre post m,
  In m (scan fl r fuel ma (cur pre post)) ->
  Forall (group_in fl r (pre ++ post)) (m_caps m).
Proof.
  induction fuel as [|f IH]; intros ma pre post m; cbn [scan]; [intros []|].
  cbn [cur c_pos c_prev c_rest].
  destruct (search_from fl r ma (List.length pre) (last_char pre) post) as [m1|] eqn:E;
    [|intros []].
  intros [Hm1 | Hin].
  - subst m1. eapply search_from_groups. exact E.
  - pose proof (search_from_sound fl r post ma pre m1 E) as Hs.
    destruct Hs as (skip & txt & post' & Hp & _ & He & _).
    rewrite He in Hin. apply IH in Hin.
    rewrite Hp. rewrite <- !app_assoc in Hin. exact Hin.
Qed.

Lemma cap_get_In n cs sp : cap_get n cs = Some sp -> In (n, sp) cs.
Proof.
  induction cs as [|[m sp'] t IH]; cbn [cap_get]; [discriminate|].
  destruct (Nat.eqb n m) eqn:E.
  - intros H. inversion H; subst. apply Nat.eqb_eq in E. subst. left. reflexivity.
  - intros H. right. apply IH. exact H.
Qed.

Lemma slice_middle_app X g rest :
  slice (X ++ g ++ rest) (List.length X) (List.length X + List.length g) = g.
Proof.
  unfold slice. rewrite skipn_app, skipn_all, Nat.sub_diag. cbn [skipn app].
  replace (List.length X + List.length g - List.length X) with (List.length g) by lia.
  rewrite firstn_app, firstn_all, Nat.sub_diag. cbn [firstn]. apply app_nil_r.
Qed.

(** The text of a group of a match found by [finditer] is matched by the
    sub-pattern of the group, where it stands in the subject. *)
Lemma finditer_group fl r s m n g :
  In m (re_finditer fl r s) -> group s m n = Some g ->
  exists body X rest,
    group_body n body r /\ s = X ++ g ++ rest /\
    matches fl body (cur X (g ++ rest)) (cur (X ++ g) rest).
Proof.
  intros Hin Hg. unfold re_finditer in Hin.
  apply (scan_groups fl r _ false [] s) in Hin. cbn [app] in Hin.
  unfold group in Hg. destruct (cap_get n (m_caps m)) as [[a b]|] eqn:E; [|discriminate].
  inversion Hg; subst g. apply cap_get_In in E.
  rewrite Forall_forall in Hin. apply Hin in E.
  destruct E as (body & X & g & rest & Hs & He & Hb & Hm).
  cbn [fst snd] in He, Hb. inversion He; subst a b. subst s.
  exists body, X, rest. rewrite slice_middle_app.
  split; [exact Hb|]. split; [reflexivity | exact Hm].
Qed.

(** The text of [(.+?)]: not empty, and on one line unless DOTALL is
    set. *)
Lemma matches_some_chars fl greedy X g rest :
  matches fl (Plus greedy Any) (cur X (g ++ rest)) (cur (X ++ g) rest) ->
  g <> [] /\ forallb (any_match fl) g = true.
Proof.
  unfold Plus. cbn [matches]. intros (mid & H1 & H2).
  apply step_rel_cur in H1. destruct H1 as (c & r1 & Hg & Hc & ->).
  eapply iter_steps_cur in H2; [|reflexivity].
  destruct H2 as (run & r2 & -> & Hrun & H2).
  apply cur_inj_rest in H2. subst r2.
  assert (Eg : g = c :: run).
  { apply (app_inv_tail rest). rewrite Hg. reflexivity. }
  subst g. split; [discriminate|]. cbn [forallb]. rewrite Hc, Hrun. reflexivity.
Qed.

Lemma any_match_line fl g :
  DOTALL fl = false -> forallb (any_match fl) g = true -> ~ In NL g.
Proof.
  intros Hd Hg Hin. rewrite forallb_forall in Hg. apply Hg in Hin.
  unfold any_match in Hin. rewrite Hd in Hin. discriminate.
Qed.
(* ================================================================= *)
(** ** Repetitions of one character *)

Lemma cursor_eta cu : mkCur (c_pos cu) (c_prev cu) (c_rest cu) = cu.
Proof. destruct cu; reflexivity. Qed.

Lemma star_loop_lazy_run f k : forall rest fuel pos prev cs,
  List.length rest < fuel ->
  star_loop (step_if f) false k fuel (mkCur pos prev rest) cs = lazy_run f k pos prev rest cs.
Proof.
  induction rest as [|c t IH]; intros fuel pos prev cs Hf;
    (destruct fuel as [|fuel]; [simpl in Hf; lia|]); cbn [star_loop lazy_run].
  - destruct (k _ cs); reflexivity.
  - destruct (k _ cs); [reflexivity|]. unfold step_if. cbn [c_rest].
    destruct (f c); [|reflexivity]. unfold advance. cbn [c_pos].
    rewrite (proj2 (Nat.ltb_lt pos (S pos))) by lia.
    apply IH. simpl in Hf. lia.
Qed.

Lemma star_loop_greedy_run f k : forall rest fuel pos prev cs,
  List.length rest < fuel ->
  star_loop (step_if f) true k fuel (mkCur pos prev rest) cs = greedy_run f k pos prev rest cs.
Proof.
  induction rest as [|c t IH]; intros fuel pos prev cs Hf;
    (destruct fuel as [|fuel]; [simpl in Hf; lia|]); cbn [star_loop greedy_run].
  - unfold step_if. reflexivity.
  - unfold step_if. cbn [c_rest].
    destruct (f c); [|reflexivity]. unfold advance. cbn [c_pos].
    rewrite (proj2 (Nat.ltb_lt pos (S pos))) by lia.
    rewrite IH by (simpl in Hf; lia). reflexivity.
Qed.

(** The repetitions of the patterns, as runs. *)
Lemma mt_star_any fl greedy k cu cs :
  mt fl (Star greedy Any) k cu cs =
  if greedy then greedy_run (any_match fl) k (c_pos cu) (c_prev cu) (c_rest cu) cs
  else lazy_run (any_match fl) k (c_pos cu) (c_prev cu) (c_rest cu) cs.
Proof.
  destruct cu as [pos prev rest]. cbn [mt c_pos c_prev c_rest].
  destruct greedy.
  - exact (star_loop_greedy_run (any_match fl) k rest (S (List.length rest)) pos prev cs
             (Nat.lt_succ_diag_r _)).
  - exact (star_loop_lazy_run (any_match fl) k rest (S (List.length rest)) pos prev cs
             (Nat.lt_succ_diag_r _)).
Qed.

Lemma mt_star_cls fl greedy items k cu cs :
  mt fl (Star greedy (Cls items)) k cu cs =
  if greedy then greedy_run (cls_match fl items) k (c_pos cu) (c_prev cu) (c_rest cu) cs
  else lazy_run (cls_match fl items) k (c_pos cu) (c_prev cu) (c_rest cu) cs.
Proof.
  destruct cu as [pos prev rest]. cbn [mt c_pos c_prev c_rest].
  destruct greedy.
  - exact (star_loop_greedy_run (cls_match fl items) k rest (S (List.length rest)) pos prev cs
             (Nat.lt_succ_diag_r _)).
  - exact (star_loop_lazy_run (cls_match fl items) k rest (S (List.length rest)) pos prev cs
             (Nat.lt_succ_diag_r _)).
Qed.

Lemma mt_star_chr fl greedy p k cu cs :
  mt fl (Star greedy (Chr p)) k cu cs =
  if greedy then greedy_run (chr_match fl p) k (c_pos cu) (c_prev cu) (c_rest cu) cs
  else lazy_run (chr_match fl p) k (c_pos cu) (c_prev cu) (c_rest cu) cs.
Proof.
  destruct cu as [pos prev rest]. cbn [mt c_pos c_prev c_rest].
  destruct greedy.
  - exact (star_loop_greedy_run (chr_match fl p) k rest (S (List.length rest)) pos prev cs
             (Nat.lt_succ_diag_r _)).
  - exact (star_loop_lazy_run (chr_match fl p) k rest (S (List.length rest)) pos prev cs
             (Nat.lt_succ_diag_r _)).
Qed.

Lemma cur_after_nil cu : cur_after cu [] = cu.
Proof.
  unfold cur_after. simpl. rewrite Nat.add_0_r. apply cursor_eta.
Qed.

Lemma cur_after_app cu a b : cur_after (cur_after cu a) b = cur_after cu (a ++ b).
Proof.
  unfold cur_after. cbn [c_pos c_prev c_rest].
  rewrite length_app, rev_app_distr, skipn_skipn, Nat.add_assoc.
  f_equal; [|f_equal; lia].
  destruct (rev b); reflexivity.
Qed.

Lemma cur_after_cur pre txt post : cur_after (cur pre (txt ++ post)) txt = cur (pre ++ txt) post.
Proof.
  unfold cur_after, cur. cbn [c_pos c_prev c_rest].
  rewrite length_app, last_char_app, skipn_app, skipn_all, Nat.sub_diag. reflexivity.
Qed.

Lemma skipn_length_app (a b l : pystr) :
  skipn (List.length (a ++ b)) l = skipn (List.length b) (skipn (List.length a) l).
Proof. rewrite length_app, skipn_skipn, Nat.add_comm. reflexivity. Qed.

Lemma cur_after_cons pos prev c t line :
  cur_after (mkCur pos prev (c :: t)) (c :: line) = cur_after (mkCur (S pos) (Some c) t) line.
Proof.
  unfold cur_after. cbn [c_pos c_prev c_rest List.length skipn rev].
  f_equal; [lia|]. destruct (rev line); reflexivity.
Qed.

Lemma advance_cur_after cu c rest :
  c_rest cu = c :: rest -> advance cu c rest = cur_after cu [c].
Proof.
  intros H. unfold advance, cur_after. rewrite H. simpl. f_equal. lia.
Qed.

Lemma mt_Seq fl a b k cu cs : mt fl (Seq a b) k cu cs = mt fl a (mt fl b k) cu cs.
Proof. reflexivity. Qed.

Lemma mt_Any fl k cu cs : mt fl Any k cu cs = step_if (any_match fl) k cu cs.
Proof. reflexivity. Qed.

Lemma mt_Cls fl items k cu cs :
  mt fl (Cls items) k cu cs = step_if (cls_match fl items) k cu cs.
Proof. reflexivity. Qed.

Lemma mt_Alt fl a b k cu cs :
  mt fl (Alt a b) k cu cs
  = match mt fl a k cu cs with Some x => Some x | None => mt fl b k cu cs end.
Proof. reflexivity. Qed.

Lemma mt_Group fl n a k cu cs :
  mt fl (Group n a) k cu cs
  = mt fl a (fun cu' cs' => k cu' ((n, (c_pos cu, c_pos cu')) :: cs')) cu cs.
Proof. reflexivity. Qed.

(** Literal text, case-sensitively. *)
Lemma mt_Chr fl p k cu cs : IGNORECASE fl = false ->
  mt fl (Chr p) k cu cs =
  if startswith [p] (c_rest cu) then k (cur_after cu [p]) cs else None.
Proof.
  intros Hfl. cbn [mt]. unfold step_if, chr_match. rewrite Hfl.
  destruct (c_rest cu) as [|c rest] eqn:E; [reflexivity|]. cbn [startswith].
  rewrite N.eqb_sym, andb_true_r. destruct (p =? c)%N eqn:Ec; [|reflexivity].
  apply N.eqb_eq in Ec. subst c. rewrite (advance_cur_after _ _ _ E). reflexivity.
Qed.

Lemma mt_Lit fl w : IGNORECASE fl = false -> w <> [] -> forall k cu cs,
  mt fl (Lit w) k cu cs =
  if startswith w (c_rest cu) then k (cur_after cu w) cs else None.
Proof.
  intros Hfl. induction w as [|p w IH]; intros Hw k cu cs; [contradiction|].
  destruct w as [|p2 w]; [apply mt_Chr; exact Hfl|].
  change (Lit (p :: p2 :: w)) with (Seq (Chr p) (Lit (p2 :: w))).
  rewrite mt_Seq, mt_Chr by exact Hfl.
  destruct (c_rest cu) as [|c rest] eqn:E; [reflexivity|].
  cbn [startswith]. rewrite andb_true_r.
  destruct (p =? c)%N eqn:Ec; [|reflexivity]. cbn [andb].
  rewrite IH by discriminate. rewrite cur_after_app.
  unfold cur_after at 1. cbn [c_rest]. rewrite E. reflexivity.
Qed.

(** A lazy run that stops before a newline, with a continuation that
    needs the newline: the run is the rest of the line. *)
Definition needs_newline (k : kont) : Prop :=
  forall cu cs, startswith [NL] (c_rest cu) = false -> k cu cs = None.

Lemma lazy_run_line k : needs_newline k -> forall rest pos prev cs,
  lazy_run (any_match F_NONE) k pos prev rest cs =
  k (cur_after (mkCur pos prev rest) (fst (take_line rest))) cs.
Proof.
  intros Hk. induction rest as [|c t IH]; intros pos prev cs; cbn [lazy_run take_line].
  - rewrite cur_after_nil. destruct (k _ cs); reflexivity.
  - destruct (c =? NL)%N eqn:Ec.
    + cbn [fst]. rewrite cur_after_nil.
      destruct (k _ cs); [reflexivity|].
      unfold any_match. rewrite Ec. reflexivity.
    + rewrite Hk by (cbn [startswith c_rest]; rewrite N.eqb_sym, Ec; reflexivity).
      unfold any_match. rewrite Ec. cbn [DOTALL F_NONE NOFLAGS orb negb].
      rewrite IH. destruct (take_line t) as [line r]. cbn [fst].
      rewrite cur_after_cons. reflexivity.
Qed.

Lemma take_line_spec s :
  s = fst (take_line s) ++ snd (take_line s) /\
  forallb (fun c => negb (c =? NL)%N) (fst (take_line s)) = true /\
  (snd (take_line s) = [] \/ exists r, snd (take_line s) = NL :: r).
Proof.
  induction s as [|c t (H1 & H2 & H3)]; simpl.
  - auto.
  - destruct (c =? NL)%N eqn:Ec; simpl.
    + apply N.eqb_eq in Ec. subst c. eauto.
    + destruct (take_line t) as [line r]. simpl in H1, H2, H3 |- *. rewrite Ec, H2.
      split; [congruence | auto].
Qed.

(** The matcher does not tell apart continuations that agree. *)
Lemma step_if_ext f (k k' : kont) cu cs :
  (forall cu cs, k cu cs = k' cu cs) -> step_if f k cu cs = step_if f k' cu cs.
Proof.
  intros H. unfold step_if. destruct (c_rest cu); [reflexivity|].
  destruct (f c); [apply H | reflexivity].
Qed.

Lemma star_loop_ext (body body' : kont -> kont) greedy (k k' : kont) :
  (forall (k1 k2 : kont) cu cs,
      (forall cu cs, k1 cu cs = k2 cu cs) -> body k1 cu cs = body' k2 cu cs) ->
  (forall cu cs, k cu cs = k' cu cs) ->
  forall fuel cu cs,
    star_loop body greedy k fuel cu cs = star_loop body' greedy k' fuel cu cs.
Proof.
  intros Hb Hk. induction fuel as [|f IH]; intros cu cs; cbn [star_loop]; [apply Hk|].
  rewrite (Hb _ (fun cu' cs' => if Nat.ltb (c_pos cu) (c_pos cu')
                                then star_loop body' greedy k' f cu' cs' else None) cu cs).
  - rewrite Hk. reflexivity.
  - intros cu' cs'. destruct (Nat.ltb (c_pos cu) (c_pos cu')); [apply IH | reflexivity].
Qed.

Lemma lazy_run_ext f (k k' : kont) :
  (forall cu cs, k cu cs = k' cu cs) ->
  forall rest pos prev cs, lazy_run f k pos prev rest cs = lazy_run f k' pos prev rest cs.
Proof.
  intros Hk. induction rest as [|c t IH]; intros pos prev cs; cbn [lazy_run];
    rewrite Hk; [reflexivity|].
  destruct (k' _ cs); [reflexivity|]. destruct (f c); [apply IH | reflexivity].
Qed.

Lemma greedy_run_ext f (k k' : kont) :
  (forall cu cs, k cu cs = k' cu cs) ->
  forall rest pos prev cs, greedy_run f k pos prev rest cs = greedy_run f k' pos prev rest cs.
Proof.
  intros Hk. induction rest as [|c t IH]; intros pos prev cs; cbn [greedy_run];
    [apply Hk|].
  destruct (f c); [|apply Hk]. rewrite IH, Hk. reflexivity.
Qed.

Lemma run_ext greedy f (k k' : kont) cu cs :
  (forall cu cs, k cu cs = k' cu cs) -> run greedy f k cu cs = run greedy f k' cu cs.
Proof.
  intros Hk. unfold run. destruct greedy; [apply greedy_run_ext | apply lazy_run_ext];
    exact Hk.
Qed.

(** The two matchers agree. *)
Lemma mt_mtr_ext fl r : forall (k k' : kont) cu cs,
  (forall cu cs, k cu cs = k' cu cs) -> mt fl r k cu cs = mtr fl r k' cu cs.
Proof.
  induction r as [ | p | | items | a IHa b IHb | a IHa b IHb | g a IHa | n a IHa
                   | p a IHa | | | | ]; intros k k' cu cs Hk.
  - cbn [mt mtr]. apply Hk.
  - cbn [mt mtr]. apply step_if_ext. exact Hk.
  - cbn [mt mtr]. apply step_if_ext. exact Hk.
  - cbn [mt mtr]. apply step_if_ext. exact Hk.
  - cbn [mt mtr]. apply IHa. intros cu' cs'. apply IHb. exact Hk.
  - cbn [mt mtr]. rewrite (IHa k k' cu cs Hk), (IHb k k' cu cs Hk). reflexivity.
  - assert (Hgen : mt fl (Star g a) k cu cs
                   = star_loop (mtr fl a) g k' (S (List.length (c_rest cu))) cu cs).
    { cbn [mt]. apply star_loop_ext; [|exact Hk]. intros k1 k2 cu' cs' H12.
      apply IHa. exact H12. }
    destruct a; try exact Hgen.
    + rewrite mt_star_chr. cbn [mtr]. apply run_ext. exact Hk.
    + rewrite mt_star_any. cbn [mtr]. apply run_ext. exact Hk.
    + rewrite mt_star_cls. cbn [mtr]. apply run_ext. exact Hk.
  - cbn [mt mtr]. apply IHa. intros cu' cs'. apply Hk.
  - cbn [mt mtr]. rewrite (IHa k_done k_done cu cs (fun _ _ => eq_refl)).
    destruct (mtr fl a k_done cu cs) as [[e cs1]|]; destruct p; try reflexivity; apply Hk.
  - cbn [mt mtr]. rewrite Hk. reflexivity.
  - cbn [mt mtr]. rewrite Hk. reflexivity.
  - cbn [mt mtr]. rewrite Hk. reflexivity.
  - cbn [mt mtr]. rewrite Hk. reflexivity.
Qed.

Lemma mt_mtr fl r k cu cs : mt fl r k cu cs = mtr fl r k cu cs.
Proof. apply mt_mtr_ext. reflexivity. Qed.

(* ================================================================= *)
(** ** Pieces of a text: slices, captures, trimmed strings *)

Lemma contains_nil s : contains [] s = true.
Proof. destruct s; reflexivity. Qed.

Lemma contains_trans a b c :
  contains a b = true -> contains b c = true -> contains a c = true.
Proof.
  rewrite !contains_iff. intros (p1 & r1 & H1) (p2 & r2 & H2).
  exists (p2 ++ p1), (r1 ++ r2). rewrite H2, H1, <- !app_assoc. reflexivity.
Qed.


Lemma contains_app_r a s t : contains a t = true -> contains a (s ++ t) = true.
Proof.
  rewrite !contains_iff. intros (p & r & H). exists (s ++ p), r.
  rewrite H, <- !app_assoc. reflexivity.
Qed.

Lemma slice_contains s a b : contains (slice s a b) s = true.
Proof.
  apply contains_iff. unfold slice.
  exists (firstn a s), (skipn (b - a) (skipn a s)).
  rewrite (firstn_skipn (b - a) (skipn a s)), firstn_skipn. reflexivity.
Qed.

Lemma group_or_empty_contains s m n : contains (group_or_empty s m n) s = true.
Proof.
  unfold group_or_empty, group. destruct (cap_get n (m_caps m)) as [[a b]|].
  - apply slice_contains.
  - apply contains_nil.
Qed.

Lemma group0_contains s m : contains (group0 s m) s = true.
Proof. apply slice_contains. Qed.

(** One character of a piece is a character of the text. *)
Lemma contains_char c a s :
  contains [c] a = true -> contains a s = true -> contains [c] s = true.
Proof. apply contains_trans. Qed.

Lemma contains_char_In c s : contains [c] s = true <-> In c s.
Proof.
  rewrite contains_iff. split.
  - intros (p & r & ->). apply in_or_app. right. left. reflexivity.
  - intros H. apply in_split in H. destruct H as (p & r & ->). exists p, r. reflexivity.
Qed.

(** *** Trimming *)

Lemma lstrip_decomp s : exists a, s = a ++ lstrip s /\ forallb is_space a = true.
Proof.
  induction s as [|c t IH].
  - exists []. split; reflexivity.
  - cbn [lstrip]. destruct (is_space c) eqn:E.
    + destruct IH as (a & Ha & Hs). exists (c :: a). split.
      * cbn [app]. rewrite <- Ha. reflexivity.
      * cbn [forallb]. rewrite E, Hs. reflexivity.
    + exists []. split; reflexivity.
Qed.

Lemma lstrip_head s c t : lstrip s = c :: t -> is_space c = false.
Proof.
  induction s as [|x s IH]; cbn [lstrip]; [discriminate|].
  destruct (is_space x) eqn:E; [exact IH|].
  intros H. inversion H; subst. exact E.
Qed.

Lemma lstrip_fixed c t : is_space c = false -> lstrip (c :: t) = c :: t.
Proof. intros H. cbn [lstrip]. rewrite H. reflexivity. Qed.

Lemma rstrip_decomp s : exists b, s = rstrip s ++ b /\ forallb is_space b = true.
Proof.
  destruct (lstrip_decomp (rev s)) as (a & Ha & Hs).
  exists (rev a). split.
  - unfold rstrip. rewrite <- rev_app_distr, <- Ha, rev_involutive. reflexivity.
  - rewrite forallb_forall in Hs |- *. intros x Hx. apply Hs. apply in_rev. exact Hx.
Qed.

Lemma strip_decomp s :
  exists a b, s = a ++ strip s ++ b /\
              forallb is_space a = true /\ forallb is_space b = true.
Proof.
  destruct (lstrip_decomp s) as (a & Ha & Hsa).
  destruct (rstrip_decomp (lstrip s)) as (b & Hb & Hsb).
  exists a, b. unfold strip. rewrite <- Hb. auto.
Qed.

Lemma strip_contains s : contains (strip s) s = true.
Proof.
  destruct (strip_decomp s) as (a & b & H & _). apply contains_iff. eauto.
Qed.

(** The first and the last character of a trimmed string are not
    whitespace. *)
Lemma strip_head s c t : strip s = c :: t -> is_space c = false.
Proof.
  intros H. destruct (rstrip_decomp (lstrip s)) as (b & Hb & _).
  fold (strip s) in Hb. rewrite H in Hb. cbn [app] in Hb.
  apply (lstrip_head s c (t ++ b)). exact Hb.
Qed.

Lemma strip_last s c t : rev (strip s) = c :: t -> is_space c = false.
Proof.
  unfold strip, rstrip. rewrite rev_involutive. apply lstrip_head.
Qed.

Lemma strip_idempotent s : strip (strip s) = strip s.
Proof.
  destruct (strip s) as [|c t] eqn:E; [reflexivity|].
  pose proof (strip_head s c t E) as Hh.
  unfold strip at 1. rewrite lstrip_fixed by exact Hh. unfold rstrip.
  destruct (rev (c :: t)) as [|x r] eqn:Er.
  - apply (f_equal (@List.length char)) in Er. rewrite length_rev in Er. discriminate.
  - rewrite lstrip_fixed.
    + rewrite <- Er. apply rev_involutive.
    + apply (strip_last s x r). rewrite E. exact Er.
Qed.

(** Trimming removes whitespace only: a character that is not whitespace
    is in the trimmed string when it is in the string. *)
Lemma strip_keeps_char c s :
  is_space c = false -> In c s -> In c (strip s).
Proof.
  intros Hc Hin. destruct (strip_decomp s) as (a & b & Hs & Ha & Hb).
  rewrite Hs in Hin. apply in_app_or in Hin. destruct Hin as [Hin|Hin].
  - rewrite forallb_forall in Ha. apply Ha in Hin. congruence.
  - apply in_app_or in Hin. destruct Hin as [Hin|Hin]; [exact Hin|].
    rewrite forallb_forall in Hb. apply Hb in Hin. congruence.
Qed.

(** A list without elements. *)
Lemma no_elements {A : Type} (l : list A) : (forall x, ~ In x l) -> l = [].
Proof.
  destruct l as [|x t]; [reflexivity|]. intros H. exfalso. apply (H x). left. reflexivity.
Qed.

(** The lines of a text are pieces of it. *)
Lemma split_on_first sep s :
  exists w ws r, split_on sep s = w :: ws /\ s = w ++ r.
Proof.
  induction s as [|c t IH].
  - exists [], [], []. split; reflexivity.
  - cbn [split_on]. destruct (c =? sep)%N.
    + exists [], (split_on sep t), (c :: t). split; reflexivity.
    + destruct IH as (w & ws & r & E & Ht). rewrite E.
      exists (c :: w), ws, r. split; [reflexivity|]. cbn [app]. rewrite <- Ht. reflexivity.
Qed.

Lemma split_on_contains sep : forall s l, In l (split_on sep s) -> contains l s = true.
Proof.
  induction s as [|c t IH]; intros l Hin.
  - cbn [split_on] in Hin. destruct Hin as [<-|[]]. reflexivity.
  - cbn [split_on] in Hin. destruct (c =? sep)%N.
    + destruct Hin as [<-|Hin]; [apply contains_nil|].
      apply (contains_app_r l [c] t). apply IH. exact Hin.
    + destruct (split_on_first sep t) as (w & ws & r & E & Ht). rewrite E in Hin.
      destruct Hin as [<-|Hin].
      * apply contains_iff. exists [], r. cbn [app]. rewrite <- Ht. reflexivity.
      * apply (contains_app_r l [c] t). apply IH. rewrite E. right. exact Hin.
Qed.
(* ================================================================= *)
(** ** Patterns that stay on one line *)

Lemma spans_unique cu cu' t t' : spans cu cu' t -> spans cu cu' t' -> t = t'.
Proof.
  intros (H1 & _) (H2 & _). rewrite H1 in H2. apply app_inv_tail in H2. exact H2.
Qed.

Lemma spans_same cu t : spans cu cu t -> t = [].
Proof. intros H. apply (spans_unique cu cu t [] H (spans_refl cu)). Qed.

Lemma chr_match_newline fl p :
  is_ascii p = true -> (p =? NL)%N = false -> chr_match fl p NL = false.
Proof.
  intros Ha Hp. unfold chr_match. rewrite Ha.
  destruct (IGNORECASE fl); [|rewrite N.eqb_sym; exact Hp].
  destruct (is_ascii_letter p) eqn:El; [|rewrite N.eqb_sym; exact Hp].
  change (is_ascii NL) with true. cbv iota.
  change (ascii_lower NL) with NL.
  unfold is_ascii_letter, is_ascii_upper, is_ascii_lower in El.
  unfold ascii_lower, is_ascii_upper.
  apply N.eqb_neq. unfold NL.
  destruct ((65 <=? p)%N && (p <=? 90)%N) eqn:Eu.
  - apply andb_true_iff in Eu. destruct Eu as [E1 E2].
    apply N.leb_le in E1. lia.
  - cbn [orb] in El. apply andb_true_iff in El. destruct El as [E1 E2].
    apply N.leb_le in E1. lia.
Qed.

Lemma is_word_newline : is_word NL = false.
Proof. reflexivity. Qed.

Lemma is_decimal_newline : is_decimal NL = false.
Proof. reflexivity. Qed.

Lemma citem_nl_free_sound fl it :
  citem_nl_free it = true -> citem_match fl it NL = false.
Proof.
  destruct it as [p| | |]; cbn [citem_nl_free citem_match]; try discriminate.
  - intros H. apply andb_true_iff in H. destruct H as [Ha Hp].
    apply negb_true_iff in Hp. apply chr_match_newline; assumption.
  - intros _. apply is_decimal_newline.
  - intros _. apply is_word_newline.
Qed.

Lemma nl_free_sound fl r :
  nl_free fl r = true ->
  forall cu cu' txt, matches fl r cu cu' -> spans cu cu' txt -> ~ In NL txt.
Proof.
  induction r as [|c| |items|a IHa b IHb|a IHa b IHb|greedy a IHa|n a IHa|positive a IHa
                  | | | | ];
    cbn [nl_free matches]; intros Hf cu cu' txt Hm Hs.
  - subst cu'. apply spans_same in Hs. subst txt. intros [].
  - apply step_rel_spans in Hm. destruct Hm as (x & Hx & Hc).
    rewrite (spans_unique _ _ _ _ Hs Hx). intros [->|[]].
    apply andb_true_iff in Hf. destruct Hf as [Ha Hp]. apply negb_true_iff in Hp.
    rewrite chr_match_newline in Hc by assumption. discriminate.
  - apply step_rel_spans in Hm. destruct Hm as (x & Hx & Hc).
    rewrite (spans_unique _ _ _ _ Hs Hx). intros [->|[]].
    unfold any_match in Hc. apply negb_true_iff in Hf. rewrite Hf in Hc. discriminate.
  - apply step_rel_spans in Hm. destruct Hm as (x & Hx & Hc).
    rewrite (spans_unique _ _ _ _ Hs Hx). intros [->|[]].
    unfold cls_match in Hc. apply existsb_exists in Hc. destruct Hc as (it & Hin & Hit).
    rewrite forallb_forall in Hf. apply Hf in Hin.
    rewrite (citem_nl_free_sound fl it Hin) in Hit. discriminate.
  - apply andb_true_iff in Hf. destruct Hf as [Hfa Hfb].
    destruct Hm as (mid & H1 & H2).
    destruct (matches_spans fl a _ _ H1) as (t1 & S1).
    destruct (matches_spans fl b _ _ H2) as (t2 & S2).
    rewrite (spans_unique _ _ _ _ Hs (spans_trans _ _ _ _ _ S1 S2)).
    intros Hin. apply in_app_or in Hin. destruct Hin as [Hin|Hin].
    + exact (IHa Hfa _ _ _ H1 S1 Hin).
    + exact (IHb Hfb _ _ _ H2 S2 Hin).
  - apply andb_true_iff in Hf. destruct Hf as [Hfa Hfb].
    destruct Hm as [Hm|Hm]; [exact (IHa Hfa _ _ _ Hm Hs) | exact (IHb Hfb _ _ _ Hm Hs)].
  - revert txt Hs. induction Hm as [cu0|cu0 mid cu1 H1 Hlt Hit IHit]; intros txt Hs.
    + apply spans_same in Hs. subst txt. intros [].
    + destruct (matches_spans fl a _ _ H1) as (t1 & S1).
      destruct (iter_spans (matches fl a) (matches_spans fl a) _ _ Hit) as (t2 & S2).
      rewrite (spans_unique _ _ _ _ Hs (spans_trans _ _ _ _ _ S1 S2)).
      intros Hin. apply in_app_or in Hin. destruct Hin as [Hin|Hin].
      * exact (IHa Hf _ _ _ H1 S1 Hin).
      * exact (IHit _ S2 Hin).
  - exact (IHa Hf _ _ _ Hm Hs).
  - destruct Hm as [-> _]. apply spans_same in Hs. subst txt. intros [].
  - destruct Hm as [-> _]. apply spans_same in Hs. subst txt. intros [].
  - destruct Hm as [-> _]. apply spans_same in Hs. subst txt. intros [].
  - destruct Hm as [-> _]. apply spans_same in Hs. subst txt. intros [].
  - destruct Hm as [-> _]. apply spans_same in Hs. subst txt. intros [].
Qed.

Lemma groups_nl_free_sound fl n body r :
  groups_nl_free fl n r = true -> group_body n body r -> nl_free fl body = true.
Proof.
  induction r as [|c| |items|a IHa b IHb|a IHa b IHb|greedy a IHa|m a IHa|positive a IHa
                  | | | | ];
    cbn [groups_nl_free group_body]; intros Hf Hg; try contradiction.
  - apply andb_true_iff in Hf. destruct Hf as [Hfa Hfb].
    destruct Hg as [Hg|Hg]; auto.
  - apply andb_true_iff in Hf. destruct Hf as [Hfa Hfb].
    destruct Hg as [Hg|Hg]; auto.
  - auto.
  - apply andb_true_iff in Hf. destruct Hf as [Hm Hfa].
    destruct Hg as [[-> ->]|Hg]; [|auto].
    rewrite Nat.eqb_refl in Hm. exact Hm.
  - auto.
Qed.

Lemma spans_cur_app X g rest : spans (cur X (g ++ rest)) (cur (X ++ g) rest) g.
Proof.
  unfold spans, cur. cbn [c_rest c_pos c_prev]. split; [reflexivity|].
  split; [apply length_app|]. apply last_char_app.
Qed.

(** The text reported for a group by [findall] has no newline when the
    sub-pattern of the group cannot read one. *)
Lemma finditer_group_line fl r s m n :
  In m (re_finditer fl r s) -> groups_nl_free fl n r = true ->
  ~ In NL (group_or_empty s m n).
Proof.
  intros Hin Hf. unfold group_or_empty. destruct (group s m n) as [g|] eqn:E; [|intros []].
  destruct (finditer_group fl r s m n g Hin E) as (body & X & rest & Hb & _ & Hm).
  apply (nl_free_sound fl body (groups_nl_free_sound fl n body r Hf Hb) _ _ g Hm).
  apply spans_cur_app.
Qed.

(** Trimmed text is text of the string. *)
Lemma strip_In c s : In c (strip s) -> In c s.
Proof.
  intros H. destruct (strip_decomp s) as (a & b & Hs & _). rewrite Hs.
  apply in_or_app. right. apply in_or_app. left. exact H.
Qed.
(* ================================================================= *)
(** ** Strings and dictionaries: basic facts *)

Lemma str_eqb_eq a : forall b, str_eqb a b = true <-> a = b.
Proof.
  induction a as [|x a IH]; intros [|y b]; simpl; split; intros H;
    try reflexivity; try discriminate.
  - apply andb_true_iff in H. destruct H as [H1 H2].
    apply N.eqb_eq in H1. apply IH in H2. congruence.
  - inversion H; subst. rewrite N.eqb_refl. simpl. apply IH. reflexivity.
Qed.

Lemma str_eqb_refl a : str_eqb a a = true.
Proof. apply str_eqb_eq. reflexivity. Qed.

Lemma str_eqb_neq a b : str_eqb a b = false <-> a <> b.
Proof.
  split.
  - intros H E. apply str_eqb_eq in E. congruence.
  - intros H. destruct (str_eqb a b) eqn:E; [|reflexivity].
    apply str_eqb_eq in E. contradiction.
Qed.

Lemma existsb_str_eqb x l : existsb (str_eqb x) l = true <-> In x l.
Proof.
  rewrite existsb_exists. split.
  - intros (y & Hy & E). apply str_eqb_eq in E. subst. exact Hy.
  - intros H. exists x. split; [exact H | apply str_eqb_refl].
Qed.

(* ================================================================= *)
(** ** Commit-message extractor *)

Lemma fromkeys_insert_spec k keys :
  fromkeys_insert k keys = if existsb (str_eqb k) keys then keys else keys ++ [k].
Proof.
  induction keys as [|k' t IH]; simpl; [reflexivity|].
  destruct (str_eqb k k') eqn:E; simpl; [reflexivity|].
  rewrite IH. destruct (existsb (str_eqb k) t); reflexivity.
Qed.

Lemma fromkeys_fold l : forall acc,
  fold_left (fun keys k => fromkeys_insert k keys) l acc = acc ++ dedup_seen acc l.
Proof.
  induction l as [|x t IH]; intros acc; simpl.
  - symmetry. apply app_nil_r.
  - rewrite IH, fromkeys_insert_spec.
    destruct (existsb (str_eqb x) acc); [reflexivity|].
    rewrite <- app_assoc. reflexivity.
Qed.

Lemma fromkeys_dedup_first l : fromkeys l = dedup_first l.
Proof. unfold fromkeys, dedup_first. rewrite fromkeys_fold. reflexivity. Qed.

Lemma dedup_seen_In seen l : forall x,
  In x (dedup_seen seen l) <-> In x l /\ ~ In x seen.
Proof.
  clear. revert seen. induction l as [|y t IH]; intros seen x; simpl; [tauto|].
  destruct (existsb (str_eqb y) seen) eqn:E.
  - apply existsb_str_eqb in E. rewrite IH. split.
    + tauto.
    + intros [[-> | H] Hn]; [contradiction | tauto].
  - assert (Hy : ~ In y seen).
    { intros H. apply existsb_str_eqb in H. congruence. }
    simpl. rewrite IH, in_app_iff. simpl. split.
    + intros [-> | [H Hn]]; [tauto|]. split; [tauto|]. intros Hs. apply Hn. tauto.
    + intros [[-> | H] Hn]; [tauto|].
      destruct (str_eq_dec y x) as [-> | Hne]; [tauto|]. right. split; [exact H|].
      intros [Hs | [Hs | []]]; [contradiction | congruence].
Qed.

Lemma dedup_seen_NoDup l : forall seen, NoDup (dedup_seen seen l).
Proof.
  clear. induction l as [|y t IH]; intros seen; simpl; [constructor|].
  destruct (existsb (str_eqb y) seen); [apply IH|].
  constructor; [|apply IH].
  rewrite dedup_seen_In, in_app_iff. simpl. tauto.
Qed.

(** Deduplication of a concatenation: the entries of the first part, then
    the entries of the second part that are new. *)
Lemma dedup_seen_app l1 l2 : forall seen,
  dedup_seen seen (l1 ++ l2) =
  dedup_seen seen l1 ++ dedup_seen (seen ++ dedup_seen seen l1) l2.
Proof.
  induction l1 as [|y t IH]; intros seen; simpl.
  - rewrite app_nil_r. reflexivity.
  - destruct (existsb (str_eqb y) seen); [apply IH|].
    simpl. rewrite IH, <- app_assoc. reflexivity.
Qed.

Lemma dedup_first_app l1 l2 :
  dedup_first (l1 ++ l2) = dedup_first l1 ++ dedup_seen (dedup_first l1) l2.
Proof. unfold dedup_first. rewrite dedup_seen_app. reflexivity. Qed.

(** An entry sits in the result where it first occurs: after the
    deduplicated entries that precede its first occurrence. *)
Lemma dedup_first_position l1 x l2 :
  ~ In x l1 ->
  exists rest, dedup_first (l1 ++ x :: l2) = dedup_first l1 ++ x :: rest.
Proof.
  clear. intros Hn. rewrite dedup_first_app. simpl.
  destruct (existsb (str_eqb x) (dedup_first l1)) eqn:E.
  - apply existsb_str_eqb in E. unfold dedup_first in E.
    apply dedup_seen_In in E. tauto.
  - eauto.
Qed.

Lemma fold_left_extend {A B : Type} (f : B -> list A) (l : list B) : forall acc,
  fold_left (fun acc x => acc ++ f x) l acc = acc ++ List.concat (map f l).
Proof.
  induction l as [|x t IH]; intros acc; simpl.
  - symmetry. apply app_nil_r.
  - rewrite IH, app_assoc. reflexivity.
Qed.

Lemma map_filter_swap {A B : Type} (f : A -> B) (p : B -> bool) (l : list A) :
  map f (filter (fun x => p (f x)) l) = filter p (map f l).
Proof.
  induction l as [|x t IH]; simpl; [reflexivity|].
  destruct (p (f x)); simpl; rewrite IH; reflexivity.
Qed.

Lemma extract_commit_messages_refines content :
  _extract_commit_messages content = commit_messages_spec content.
Proof.
  unfold _extract_commit_messages, commit_messages_spec, commit_candidates.
  rewrite fromkeys_dedup_first. f_equal. f_equal.
  rewrite (fold_left_extend
             (fun pattern =>
                map strip (filter (fun m => Nat.ltb 10 (List.length (strip m)))
                                  (re_findall1 F_IM pattern content)))).
  rewrite app_nil_l. f_equal. apply map_ext. intros pattern. unfold family_candidates.
  apply (map_filter_swap strip (fun t => Nat.ltb 10 (List.length t))).
Qed.

(** C6. For every input text the commit-message extractor returns at most
    five strings: the captures of the four pattern families, trimmed and
    kept when longer than ten characters, concatenated in pattern order,
    deduplicated with every message at its first occurrence, then cut to
    the first five entries. *)
Theorem commit_messages_capped content :
  _extract_commit_messages content
  = firstn 5 (dedup_first (List.concat (map (family_candidates content) commit_patterns)))
  /\ List.length (_extract_commit_messages content) <= 5
  /\ List.length commit_patterns = 4
  /\ NoDup (_extract_commit_messages content)
  /\ (forall m, In m (_extract_commit_messages content) ->
                In m (commit_candidates content) /\ 10 < List.length m).
Proof.
  rewrite extract_commit_messages_refines. unfold commit_messages_spec.
  fold (commit_candidates content).
  split; [reflexivity|]. split; [apply firstn_le_length|]. split; [reflexivity|].
  assert (Hnd : NoDup (dedup_first (commit_candidates content)))
    by apply dedup_seen_NoDup.
  split.
  - rewrite <- (firstn_skipn 5) in Hnd. apply NoDup_app_remove_r in Hnd. exact Hnd.
  - intros m Hm.
    assert (Hm' : In m (dedup_first (commit_candidates content))).
    { rewrite <- (firstn_skipn 5). apply in_or_app. left. exact Hm. }
    clear Hm. rename Hm' into Hm. apply dedup_seen_In in Hm. destruct Hm as [Hm _].
    split; [exact Hm|]. unfold commit_candidates in Hm.
    apply List.in_concat in Hm. destruct Hm as (fam & Hfam & Hin).
    apply in_map_iff in Hfam. destruct Hfam as (pattern & <- & _).
    unfold family_candidates in Hin. apply filter_In in Hin. destruct Hin as [_ Hlen].
    apply Nat.ltb_lt in Hlen. exact Hlen.
Qed.

(* ================================================================= *)
(** ** Format classifier *)

Lemma detect_in_tags content : In (_detect_response_type content) shape_tags.
Proof.
  unfold _detect_response_type, shape_tags.
  repeat match goal with
         | |- context [if ?c then _ else _] => destruct c
         end; simpl; auto 6.
Qed.

Lemma fence_tag_search s :
  is_some (re_search F_NONE fence_tag_pattern s) = has_fence_tag s.
Proof.
  apply bool_eq_iff. rewrite re_search_iff. unfold has_fence_tag.
  rewrite !orb_true_iff, !contains_iff.
  change fence_tag_pattern
    with (Seq (Lit (raw "```"))
              (Alt (Lit (raw "json")) (Alt (Lit (raw "patch")) (Lit (raw "diff"))))).
  cbn [matches]. split.
  - intros (pre & post & cu' & -> & mid & H1 & H2).
    apply matches_Lit in H1; [|reflexivity]. destruct H1 as (rest & -> & ->).
    destruct H2 as [H2 | [H2 | H2]];
      apply matches_Lit in H2; try reflexivity; destruct H2 as (rest' & -> & _).
    + left. left. exists pre, rest'. reflexivity.
    + left. right. exists pre, rest'. reflexivity.
    + right. exists pre, rest'. reflexivity.
  - assert (Hgen : forall tag pre rest,
               matches F_NONE (Lit tag)
                       (cur (pre ++ raw "```") (tag ++ rest))
                       (cur ((pre ++ raw "```") ++ tag) rest)).
    { intros tag pre rest. apply matches_Lit; [reflexivity|]. eauto. }
    assert (Hfence : forall pre post,
               matches F_NONE (Lit (raw "```")) (cur pre (raw "```" ++ post))
                       (cur (pre ++ raw "```") post)).
    { intros pre post. apply matches_Lit; [reflexivity|]. eauto. }
    intros [[(pre & rest & ->) | (pre & rest & ->)] | (pre & rest & ->)].
    + exists pre, (raw "```" ++ raw "json" ++ rest), (cur ((pre ++ raw "```") ++ raw "json") rest).
      split; [reflexivity|]. eexists. split; [apply Hfence|]. left. apply Hgen.
    + exists pre, (raw "```" ++ raw "patch" ++ rest), (cur ((pre ++ raw "```") ++ raw "patch") rest).
      split; [reflexivity|]. eexists. split; [apply Hfence|]. right. left. apply Hgen.
    + exists pre, (raw "```" ++ raw "diff" ++ rest), (cur ((pre ++ raw "```") ++ raw "diff") rest).
      split; [reflexivity|]. eexists. split; [apply Hfence|]. right. right. apply Hgen.
Qed.

Lemma drop_hashes_run run : forall rest,
  forallb (fun c => (c =? 35)%N) run = true -> drop_hashes (run ++ rest) = drop_hashes rest.
Proof.
  induction run as [|c run IH]; intros rest H; simpl in H |- *; [reflexivity|].
  apply andb_true_iff in H. destruct H as [Hc Hrun]. rewrite Hc. apply IH. exact Hrun.
Qed.

Lemma drop_hashes_split s :
  exists run, s = run ++ drop_hashes s /\ forallb (fun c => (c =? 35)%N) run = true.
Proof.
  induction s as [|c s (run & Hs & Hrun)]; simpl.
  - exists []. auto.
  - destruct (c =? 35)%N eqn:E.
    + exists (c :: run). simpl. rewrite E, Hrun. split; [congruence | reflexivity].
    + exists []. auto.
Qed.

(** The heading pattern matches at a position exactly when the position
    begins a line and the text there is a run of [#] and a whitespace
    character. *)
Lemma header_matches_here pre post :
  (exists cu', matches F_M header_pattern (cur pre post) cu') <->
  at_bol F_M (cur pre post) = true /\ heading_here post = true.
Proof.
  change header_pattern
    with (Seq Bol (Seq (Seq (Chr 35%N) (Star true (Chr 35%N)))
                       (Seq (Cls [CSpace]) (Star true (Cls [CSpace]))))).
  cbn [matches]. split.
  - intros (cu' & m1 & [-> Hbol] & m2 & (m3 & H1 & H2) & m4 & H3 & H4).
    split; [exact Hbol|].
    apply step_rel_cur in H1. destruct H1 as (c & rest & -> & Hc & ->).
    unfold chr_match in Hc. cbn in Hc.
    eapply iter_steps_cur in H2; [|reflexivity].
    destruct H2 as (run & rest' & -> & Hrun & ->).
    apply step_rel_cur in H3. destruct H3 as (w & rest3 & -> & Hw & _).
    unfold heading_here. rewrite Hc. cbn [andb].
    rewrite drop_hashes_run by exact Hrun.
    unfold cls_match in Hw. cbn in Hw. rewrite orb_false_r in Hw.
    cbn [drop_hashes]. destruct (w =? 35)%N eqn:E.
    + apply N.eqb_eq in E. subst w. discriminate.
    + exact Hw.
  - intros [Hbol Hh]. unfold heading_here in Hh.
    destruct post as [|c t]; [discriminate|].
    apply andb_true_iff in Hh. destruct Hh as [Hc Hh].
    destruct (drop_hashes_split t) as (run & Ht & Hrun).
    destruct (drop_hashes t) as [|w rest] eqn:Ed; [discriminate|].
    exists (cur (((pre ++ [c]) ++ run) ++ [w]) rest).
    exists (cur pre (c :: t)). split; [auto|].
    exists (cur ((pre ++ [c]) ++ run) (w :: rest)). split.
    + exists (cur (pre ++ [c]) t). split.
      * apply step_rel_cur. exists c, t. auto.
      * rewrite Ht at 1. apply iter_steps_cur_intro. exact Hrun.
    + exists (cur (((pre ++ [c]) ++ run) ++ [w]) rest). split.
      * apply step_rel_cur. exists w, rest. unfold cls_match. cbn.
        rewrite Hh. auto.
      * constructor.
Qed.

Lemma has_heading_from_iff post : forall pre,
  has_heading_from (at_bol F_M (cur pre post)) post = true <->
  exists skip rest, post = skip ++ rest /\
                    at_bol F_M (cur (pre ++ skip) rest) = true /\ heading_here rest = true.
Proof.
  induction post as [|c post IH]; intros pre.
  - cbn [has_heading_from]. rewrite orb_false_r, andb_true_iff. split.
    + intros [H1 H2]. discriminate.
    + intros (skip & rest & Hp & H1 & H2).
      symmetry in Hp. apply app_eq_nil in Hp. destruct Hp as [-> ->]. discriminate.
  - cbn [has_heading_from]. rewrite orb_true_iff, andb_true_iff.
    assert (Hnext : (c =? NL)%N = at_bol F_M (cur (pre ++ [c]) post)).
    { unfold at_bol, cur. cbn [c_prev]. rewrite last_char_app. reflexivity. }
    rewrite Hnext, IH. split.
    + intros [[H1 H2] | (skip & rest & -> & H1 & H2)].
      * exists [], (c :: post). rewrite app_nil_r. auto.
      * exists (c :: skip), rest. rewrite <- app_assoc in H1. auto.
    + intros (skip & rest & Hp & H1 & H2). destruct skip as [|c' skip]; simpl in Hp.
      * subst rest. rewrite app_nil_r in H1. left. auto.
      * inversion Hp; subst c' post. right. exists skip, rest.
        rewrite <- app_assoc. auto.
Qed.

Lemma header_search s :
  is_some (re_search F_M header_pattern s) = has_heading s.
Proof.
  apply bool_eq_iff. rewrite re_search_iff. unfold has_heading.
  pose proof (has_heading_from_iff s []) as Hh.
  change (at_bol F_M (cur [] s)) with true in Hh. rewrite Hh. split.
  - intros (pre & post & cu' & -> & Hm). exists pre, post.
    split; [reflexivity|]. apply header_matches_here. eauto.
  - intros (skip & rest & -> & H1 & H2).
    destruct (proj2 (header_matches_here skip rest) (conj H1 H2)) as (cu' & Hm).
    exists skip, rest, cu'. auto.
Qed.

(** C5, as the code has it. The classifier never fails and returns one
    of the five tags, decided in this order, first match wins: the
    trimmed text starts with an opening brace or bracket and the text as
    given, untrimmed, decodes as JSON; the first 100 characters hold
    [---] and the text loads as YAML; three backticks directly followed
    by json, patch or diff stand somewhere in the text; a line begins
    with a run of [#] followed by a whitespace character; otherwise
    text. *)
Theorem detect_response_type_decision content :
  _detect_response_type content = classify_spec content /\
  In (_detect_response_type content) [py "json"; py "yaml"; py "mixed"; py "markdown"; py "text"].
Proof.
  split; [|apply detect_in_tags].
  unfold _detect_response_type, classify_spec.
  rewrite fence_tag_search, header_search. reflexivity.
Qed.

(* ================================================================= *)
(** ** Patch extractor: the file of a patch *)

Lemma needs_newline_Chr k : needs_newline (mt F_NONE (Chr NL) k).
Proof.
  intros cu cs H. rewrite mt_Chr by reflexivity. rewrite H. reflexivity.
Qed.

Lemma needs_newline_Seq r k : needs_newline (mt F_NONE (Seq (Chr NL) r) k).
Proof.
  intros cu cs H. rewrite mt_Seq, mt_Chr by reflexivity. rewrite H. reflexivity.
Qed.

Lemma needs_newline_caps (k : kont) (f : cursor -> caps -> caps) :
  needs_newline k -> needs_newline (fun cu cs => k cu (f cu cs)).
Proof. intros Hk cu cs H. apply Hk. exact H. Qed.

(** [(.+?)] before a newline, without [DOTALL]: the group is the rest of
    the line, which must not be empty. *)
Lemma mt_group_line n k cu cs : needs_newline k ->
  mt F_NONE (Group n (Plus false Any)) k cu cs =
  let line := fst (take_line (c_rest cu)) in
  if nonempty line
  then k (cur_after cu line) ((n, (c_pos cu, c_pos cu + List.length line)) :: cs)
  else None.
Proof.
  intros Hk. rewrite mt_Group. unfold Plus. rewrite mt_Seq, mt_Any.
  unfold step_if.
  destruct cu as [pos prev rest]. cbn [c_rest c_pos].
  destruct rest as [|c t]; [reflexivity|]. cbn [take_line].
  unfold any_match at 1. cbn [DOTALL F_NONE NOFLAGS orb].
  destruct (c =? NL)%N eqn:Ec; [reflexivity|]. cbn [negb].
  rewrite mt_star_any. unfold advance. cbn [c_pos c_prev c_rest].
  rewrite lazy_run_line
    by (apply (needs_newline_caps k (fun cu' cs' => (n, (pos, c_pos cu')) :: cs')); exact Hk).
  destruct (take_line t) as [line r]. cbn [fst nonempty].
  rewrite cur_after_cons. unfold cur_after. cbn [c_pos List.length].
  replace (pos + S (List.length line)) with (S pos + List.length line) by lia.
  reflexivity.
Qed.

(** The header pattern at a position. *)
Lemma mt_file_header k cu cs :
  mt F_NONE file_header_pattern k cu cs =
  match header_here (c_rest cu) with
  | Some (path, path') =>
      k (cur_after cu (py "--- a/" ++ path ++ [NL] ++ py "+++ b/" ++ path' ++ [NL]))
        ((2, (c_pos cu + 6 + List.length path + 1 + 6,
              c_pos cu + 6 + List.length path + 1 + 6 + List.length path'))
           :: (1, (c_pos cu + 6, c_pos cu + 6 + List.length path)) :: cs)
  | None => None
  end.
Proof.
  change file_header_pattern
    with (Seq (Lit (py "--- a/"))
              (Seq (Group 1 (Plus false Any))
                   (Seq (Chr NL)
                        (Seq (Lit (py "+++ b/"))
                             (Seq (Group 2 (Plus false Any)) (Chr NL)))))).
  unfold header_here.
  rewrite mt_Seq, mt_Lit by (reflexivity || discriminate).
  destruct (startswith (py "--- a/") (c_rest cu)); [|reflexivity].
  rewrite mt_Seq, mt_group_line by apply needs_newline_Seq.
  cbv zeta. change (c_rest (cur_after cu (py "--- a/"))) with (skipn 6 (c_rest cu)).
  set (path := fst (take_line (skipn 6 (c_rest cu)))).
  destruct (nonempty path); [|reflexivity].
  rewrite cur_after_app, mt_Seq, mt_Chr by reflexivity.
  change (c_rest (cur_after cu (py "--- a/" ++ path)))
    with (skipn (List.length (py "--- a/" ++ path)) (c_rest cu)).
  rewrite !skipn_length_app.
  change (List.length (py "--- a/")) with 6.
  destruct (startswith [NL] (skipn (List.length path) (skipn 6 (c_rest cu)))); [|reflexivity].
  rewrite cur_after_app, mt_Seq, mt_Lit by (reflexivity || discriminate).
  change (c_rest (cur_after cu ((py "--- a/" ++ path) ++ [NL])))
    with (skipn (List.length ((py "--- a/" ++ path) ++ [NL])) (c_rest cu)).
  rewrite !skipn_length_app.
  change (List.length (py "--- a/")) with 6. change (List.length [NL]) with 1.
  set (s3 := skipn 1 (skipn (List.length path) (skipn 6 (c_rest cu)))).
  destruct (startswith (py "+++ b/") s3) eqn:E3; [|reflexivity].
  rewrite cur_after_app, mt_Seq, mt_group_line by apply needs_newline_Chr.
  cbv zeta.
  change (c_rest (cur_after cu (((py "--- a/" ++ path) ++ [NL]) ++ py "+++ b/")))
    with (skipn (List.length (((py "--- a/" ++ path) ++ [NL]) ++ py "+++ b/")) (c_rest cu)).
  rewrite !skipn_length_app.
  change (List.length (py "--- a/")) with 6. change (List.length [NL]) with 1.
  change (List.length (py "+++ b/")) with 6. fold s3.
  set (path' := fst (take_line (skipn 6 s3))).
  destruct (nonempty path'); [|reflexivity].
  rewrite cur_after_app, mt_Chr by reflexivity.
  change (c_rest (cur_after cu ((((py "--- a/" ++ path) ++ [NL]) ++ py "+++ b/") ++ path')))
    with (skipn (List.length ((((py "--- a/" ++ path) ++ [NL]) ++ py "+++ b/") ++ path'))
                (c_rest cu)).
  rewrite !skipn_length_app.
  change (List.length (py "--- a/")) with 6. change (List.length [NL]) with 1.
  change (List.length (py "+++ b/")) with 6. fold s3.
  destruct (startswith [NL] (skipn (List.length path') (skipn 6 s3))); [|reflexivity].
  rewrite cur_after_app. rewrite <- !app_assoc.
  unfold cur_after at 2 3. cbn [c_pos]. rewrite !length_app.
  change (List.length (py "--- a/")) with 6. change (List.length [NL]) with 1.
  change (List.length (py "+++ b/")) with 6.
  change (c_pos (cur_after cu (py "--- a/"))) with (c_pos cu + 6).
  replace (c_pos cu + (6 + (List.length path + (1 + 6))))
    with (c_pos cu + 6 + List.length path + 1 + 6) by lia.
  reflexivity.
Qed.

Lemma header_here_path post p p' :
  header_here post = Some (p, p') ->
  firstn (List.length p) (skipn 6 post) = p /\
  exists rest, post = py "--- a/" ++ p ++ [NL] ++ py "+++ b/" ++ p' ++ [NL] ++ rest.
Proof.
  unfold header_here.
  destruct (startswith (py "--- a/") post) eqn:E1; [|discriminate].
  apply startswith_iff in E1. destruct E1 as (r1 & ->).
  change (skipn 6 (py "--- a/" ++ r1)) with r1.
  destruct (take_line_spec r1) as (Hr1 & _ & _).
  destruct (nonempty (fst (take_line r1))); [|discriminate].
  set (q := fst (take_line r1)) in Hr1 |- *.
  assert (Hs2 : skipn (List.length q) r1 = snd (take_line r1)).
  { rewrite Hr1 at 1. rewrite skipn_app, skipn_all, Nat.sub_diag. reflexivity. }
  rewrite Hs2.
  destruct (startswith [NL] (snd (take_line r1))) eqn:E2; [|discriminate].
  apply startswith_iff in E2. destruct E2 as (r2 & E2). rewrite E2.
  change (skipn 1 ([NL] ++ r2)) with r2.
  destruct (startswith (py "+++ b/") r2) eqn:E3; [|discriminate].
  apply startswith_iff in E3. destruct E3 as (r3 & ->).
  change (skipn 6 (py "+++ b/" ++ r3)) with r3.
  destruct (take_line_spec r3) as (Hr3 & _ & _).
  destruct (nonempty (fst (take_line r3))); [|discriminate].
  set (q' := fst (take_line r3)) in Hr3 |- *.
  assert (Hs4 : skipn (List.length q') r3 = snd (take_line r3)).
  { rewrite Hr3 at 1. rewrite skipn_app, skipn_all, Nat.sub_diag. reflexivity. }
  rewrite Hs4.
  destruct (startswith [NL] (snd (take_line r3))) eqn:E4; [|discriminate].
  apply startswith_iff in E4. destruct E4 as (r4 & E4).
  intros H. inversion H; subst p p'. split.
  - rewrite Hr1 at 1. rewrite firstn_app, firstn_all, Nat.sub_diag. apply app_nil_r.
  - exists r4. rewrite Hr1 at 1. rewrite E2, Hr3 at 1. rewrite E4.
    reflexivity.
Qed.

Lemma match_at_file_header pre post :
  match_at F_NONE file_header_pattern false (cur pre post) =
  match header_here post with
  | Some (p, p') =>
      Some (mkMatch (List.length pre)
              (cur_after (cur pre post)
                         (py "--- a/" ++ p ++ [NL] ++ py "+++ b/" ++ p' ++ [NL]))
              [ (2, (List.length pre + 6 + List.length p + 1 + 6,
                     List.length pre + 6 + List.length p + 1 + 6 + List.length p'));
                (1, (List.length pre + 6, List.length pre + 6 + List.length p)) ])
  | None => None
  end.
Proof.
  unfold match_at. rewrite mt_file_header. cbn [c_rest c_pos cur].
  destruct (header_here post) as [[p p']|]; reflexivity.
Qed.

(** The search for the header pair finds the first one; its first group
    is the path on the [a/] side. *)
Lemma search_file_header post : forall pre,
  match search_from F_NONE file_header_pattern false (List.length pre) (last_char pre) post
  with
  | Some fm => group_or_empty (pre ++ post) fm 1
  | None => py "unknown"
  end
  = match first_header post with
    | Some (p, _) => p
    | None => py "unknown"
    end.
Proof.
  assert (Hhere : forall pre s p p',
             header_here s = Some (p, p') ->
             slice (pre ++ s) (List.length pre + 6) (List.length pre + 6 + List.length p)
             = p).
  { intros pre s p p' H. apply header_here_path in H. destruct H as [H _].
    unfold slice.
    replace (List.length pre + 6 + List.length p - (List.length pre + 6))
      with (List.length p) by lia.
    rewrite Nat.add_comm, <- skipn_skipn, skipn_app, skipn_all, Nat.sub_diag. exact H. }
  induction post as [|c post IH]; intros pre; cbn [search_from first_header].
  - fold (cur pre []). rewrite match_at_file_header.
    destruct (header_here []) as [[p p']|] eqn:E; [|reflexivity].
    unfold group_or_empty, group. cbn [m_caps cap_get Nat.eqb]. eauto.
  - fold (cur pre (c :: post)). rewrite match_at_file_header.
    destruct (header_here (c :: post)) as [[p p']|] eqn:E.
    + unfold group_or_empty, group. cbn [m_caps cap_get Nat.eqb]. eauto.
    + replace (S (List.length pre)) with (List.length (pre ++ [c]))
        by (rewrite length_app; simpl; lia).
      replace (Some c) with (last_char (pre ++ [c]))
        by (rewrite last_char_app; reflexivity).
      rewrite <- (IH (pre ++ [c])), <- app_assoc. reflexivity.
Qed.

Lemma diff_record_file patch_content :
  diff_record patch_content = patch_record patch_content (header_file patch_content).
Proof.
  unfold diff_record, patch_record, header_file, re_search.
  rewrite <- (search_file_header patch_content []). reflexivity.
Qed.

(* ================================================================= *)
(** ** Patch extractor: fenced blocks *)

(** What the fenced-block pattern matches: both fence lines and the body
    between them. *)
Lemma fenced_diff_matches pre txt post :
  matches F_SM fenced_diff_pattern (cur pre (txt ++ post)) (cur (pre ++ txt) post) ->
  exists tag ws body,
    (tag = py "patch" \/ tag = py "diff") /\ forallb is_space ws = true /\
    txt = py "```" ++ tag ++ ws ++ [NL] ++ body ++ [NL] ++ py "```".
Proof.
  change fenced_diff_pattern
    with (Seq (Lit (py "```"))
              (Seq (Alt (Lit (py "patch")) (Lit (py "diff")))
                   (Seq (Star true (Cls [CSpace]))
                        (Seq (Chr NL)
                             (Seq (Group 1 (Star false Any))
                                  (Seq (Chr NL) (Lit (py "```")))))))).
  cbn [matches].
  intros (m1 & H1 & m2 & H2 & m3 & H3 & m4 & H4 & m5 & H5 & m6 & H6 & H7).
  apply matches_Lit in H1; [|reflexivity]. destruct H1 as (r1 & E1 & ->).
  assert (Htag : exists tag r2, (tag = py "patch" \/ tag = py "diff") /\
                                r1 = tag ++ r2 /\ m2 = cur ((pre ++ py "```") ++ tag) r2).
  { destruct H2 as [H2 | H2]; apply matches_Lit in H2; try reflexivity;
      destruct H2 as (r2 & -> & ->); eauto 6. }
  destruct Htag as (tag & r2 & Htag & -> & ->).
  eapply iter_steps_cur in H3; [|reflexivity].
  destruct H3 as (ws & r3 & -> & Hws & ->).
  apply matches_Chr in H4; [|reflexivity]. destruct H4 as (r4 & -> & ->).
  eapply iter_steps_cur in H5; [|reflexivity].
  destruct H5 as (body & r5 & -> & _ & ->).
  apply matches_Chr in H6; [|reflexivity]. destruct H6 as (r6 & -> & ->).
  apply matches_Lit in H7; [|reflexivity]. destruct H7 as (r7 & -> & H7).
  apply cur_inj_rest in H7. subst r7.
  exists tag, ws, body. split; [exact Htag|]. split.
  - rewrite forallb_forall in Hws |- *. intros c Hc. specialize (Hws c Hc).
    unfold cls_match in Hws. cbn in Hws. rewrite orb_false_r in Hws. exact Hws.
  - apply (app_inv_tail post). rewrite E1, <- !app_assoc. reflexivity.
Qed.

(* ================================================================= *)
(** ** Markdown parser: splitting into sections *)

(** A search passes over a stretch of text where the pattern matches
    nowhere. *)
Lemma search_from_skip fl r skip : forall pre rest,
  (forall s1 s2, skip = s1 ++ s2 -> s2 <> [] ->
                 match_at fl r false (cur (pre ++ s1) (s2 ++ rest)) = None) ->
  search_from fl r false (List.length pre) (last_char pre) (skip ++ rest)
  = search_from fl r false (List.length (pre ++ skip)) (last_char (pre ++ skip)) rest.
Proof.
  induction skip as [|c skip IH]; intros pre rest H.
  - rewrite app_nil_r. reflexivity.
  - change ((c :: skip) ++ rest) with (c :: skip ++ rest). cbn [search_from].
    fold (cur pre (c :: skip ++ rest)).
    pose proof (H [] (c :: skip) eq_refl) as H0. rewrite app_nil_r in H0.
    change ((c :: skip) ++ rest) with (c :: skip ++ rest) in H0.
    rewrite H0 by discriminate.
    replace (S (List.length pre)) with (List.length (pre ++ [c]))
      by (rewrite length_app; simpl; lia).
    replace (Some c) with (last_char (pre ++ [c]))
      by (rewrite last_char_app; reflexivity).
    rewrite IH.
    + rewrite <- app_assoc. reflexivity.
    + intros s1 s2 Hs Hne. rewrite <- app_assoc. apply (H (c :: s1) s2).
      * rewrite Hs. reflexivity.
      * exact Hne.
Qed.

Lemma match_at_section_none pre post :
  startswith (py "\n#") post = false ->
  match_at F_NONE section_pattern false (cur pre post) = None.
Proof.
  intros H. unfold match_at. change (py "\n#") with [NL; 35%N] in H.
  change section_pattern
    with (Seq (Chr NL) (Seq (Seq (Chr 35%N) (Star true (Chr 35%N)))
                            (Seq (Cls [CSpace]) (Star true (Cls [CSpace]))))).
  rewrite mt_Seq, mt_Chr by reflexivity. cbn [c_rest cur].
  destruct post as [|c post]; [reflexivity|].
  cbn [startswith] in H |- *. rewrite andb_true_r.
  destruct (NL =? c)%N eqn:Ec; [|reflexivity]. cbn [andb] in H.
  rewrite !mt_Seq, mt_Chr by reflexivity.
  change (c_rest (cur_after (cur pre (c :: post)) [NL])) with post.
  destruct post as [|c2 post]; [reflexivity|].
  cbn [startswith] in H |- *. rewrite andb_true_r in H |- *. rewrite H. reflexivity.
Qed.

Lemma section_search_skip skip pre rest :
  quiet skip rest ->
  search_from F_NONE section_pattern false (List.length pre) (last_char pre) (skip ++ rest)
  = search_from F_NONE section_pattern false
                (List.length (pre ++ skip)) (last_char (pre ++ skip)) rest.
Proof.
  intros H. apply search_from_skip. intros s1 s2 Hs Hne.
  apply match_at_section_none. apply (H s1 s2 Hs Hne).
Qed.

Lemma quiet_app a b rest : quiet a (b ++ rest) -> quiet b rest -> quiet (a ++ b) rest.
Proof.
  intros Ha Hb s1 s2 Hs Hne.
  assert (Hcase : (exists t, s1 = a ++ t /\ b = t ++ s2) \/
                  (exists t, t <> [] /\ a = s1 ++ t /\ s2 = t ++ b)).
  { clear Ha Hb Hne. revert a Hs. induction s1 as [|c s1 IH]; intros a Hs.
    - destruct a as [|x a].
      + left. exists []. auto.
      + right. exists (x :: a). split; [discriminate|]. auto.
    - destruct a as [|x a].
      + left. exists (c :: s1). auto.
      + simpl in Hs. inversion Hs; subst x.
        destruct (IH a H1) as [(t & -> & ->) | (t & Hne & -> & ->)].
        * left. exists t. auto.
        * right. exists t. auto. }
  destruct Hcase as [(t & -> & E) | (t & Ht & E1 & ->)].
  - apply (Hb t s2 E Hne).
  - rewrite <- app_assoc. apply (Ha s1 t E1 Ht).
Qed.

Lemma quiet_no_newline skip rest :
  forallb (fun c => negb (c =? NL)%N) skip = true -> quiet skip rest.
Proof.
  intros H s1 s2 Hs Hne. destruct s2 as [|c s2]; [contradiction|].
  rewrite Hs, forallb_app in H. apply andb_true_iff in H. destruct H as [_ H].
  cbn [forallb] in H. apply andb_true_iff in H. destruct H as [H _].
  change (py "\n#") with (NL :: py "#"). cbn [startswith app]. rewrite N.eqb_sym.
  destruct (c =? NL)%N; [discriminate | reflexivity].
Qed.

Lemma quiet_body b rest :
  no_heading_line b -> startswith (py "#") rest = false -> quiet (NL :: b) rest.
Proof.
  unfold no_heading_line. intros Hb Hrest s1 s2 Hs Hne.
  destruct s2 as [|c s2]; [contradiction|].
  destruct s2 as [|c2 s2].
  - change (([c] ++ rest)) with (c :: rest).
    change (py "\n#") with (NL :: py "#"). cbn [startswith].
    rewrite Hrest. apply andb_false_r.
  - destruct (startswith (py "\n#") ((c :: c2 :: s2) ++ rest)) eqn:E; [|reflexivity].
    exfalso. assert (Hc : contains (py "\n#") (NL :: b) = true).
    { apply contains_iff. apply startswith_iff in E. destruct E as (tail & E).
      change (py "\n#") with [NL; 35%N] in E |- *.
      simpl in E. inversion E; subst c c2.
      exists s1, s2. rewrite Hs. reflexivity. }
    congruence.
Qed.

(** The match of the section pattern at the headings of the document. *)
Lemma cur_concrete pre w c post :
  last_char w = Some c ->
  mkCur (List.length w + List.length pre) (Some c) post = cur (pre ++ w) post.
Proof.
  intros Hw. unfold cur. rewrite length_app, last_char_app.
  unfold last_char in Hw. destruct (rev w); [discriminate|]. inversion Hw; subst.
  f_equal. lia.
Qed.

Lemma match_at_summary pre tail :
  match_at F_NONE section_pattern false (cur pre (py "\n## Summary\n" ++ tail))
  = Some (mkMatch (List.length pre) (cur (pre ++ py "\n## ") (py "Summary\n" ++ tail)) []).
Proof.
  rewrite <- (cur_concrete pre (py "\n## ") 32%N) by reflexivity.
  unfold match_at. rewrite mt_mtr.
  cbv - [List.length last_char]. reflexivity.
Qed.

Lemma match_at_notes pre tail :
  match_at F_NONE section_pattern false (cur pre (py "\n## Notes\n" ++ tail))
  = Some (mkMatch (List.length pre) (cur (pre ++ py "\n## ") (py "Notes\n" ++ tail)) []).
Proof.
  rewrite <- (cur_concrete pre (py "\n## ") 32%N) by reflexivity.
  unfold match_at. rewrite mt_mtr.
  cbv - [List.length last_char]. reflexivity.
Qed.

Lemma search_from_here fl r ma pos prev rest m :
  match_at fl r ma (mkCur pos prev rest) = Some m ->
  search_from fl r ma pos prev rest = Some m.
Proof.
  intros H. destruct rest; cbn [search_from]; rewrite H; reflexivity.
Qed.

(** One step of a scan: a stretch without a match, then a match. *)
Lemma scan_step fl r fuel pre skip rest m :
  (forall s1 s2, skip = s1 ++ s2 -> s2 <> [] ->
                 match_at fl r false (cur (pre ++ s1) (s2 ++ rest)) = None) ->
  match_at fl r false (cur (pre ++ skip) rest) = Some m ->
  m_start m < m_stop m ->
  scan fl r (S fuel) false (cur pre (skip ++ rest)) = m :: scan fl r fuel false (m_end m).
Proof.
  intros Hskip Hm Hlt. cbn [scan c_pos c_prev c_rest cur].
  rewrite (search_from_skip fl r skip pre rest Hskip).
  rewrite (search_from_here fl r false _ _ rest m Hm).
  replace (Nat.eqb (m_stop m) (m_start m)) with false; [reflexivity|].
  symmetry. apply Nat.eqb_neq. lia.
Qed.

(** The last step of a scan: no match up to the end. *)
Lemma scan_end fl r fuel pre skip :
  (forall s1 s2, skip = s1 ++ s2 -> s2 <> [] ->
                 match_at fl r false (cur (pre ++ s1) (s2 ++ [])) = None) ->
  match_at fl r false (cur (pre ++ skip) []) = None ->
  scan fl r (S fuel) false (cur pre skip) = [].
Proof.
  intros Hskip Hm. cbn [scan c_pos c_prev c_rest cur].
  rewrite <- (app_nil_r skip) at 1.
  rewrite (search_from_skip fl r skip pre [] Hskip).
  cbn [search_from]. fold (cur (pre ++ skip) []). rewrite Hm. reflexivity.
Qed.

Lemma quiet_none skip rest pre :
  quiet skip rest ->
  forall s1 s2, skip = s1 ++ s2 -> s2 <> [] ->
                match_at F_NONE section_pattern false (cur (pre ++ s1) (s2 ++ rest)) = None.
Proof.
  intros H s1 s2 Hs Hne. apply match_at_section_none. apply (H s1 s2 Hs Hne).
Qed.

Lemma quiet_section title b rest :
  forallb (fun c => negb (c =? NL)%N) title = true ->
  no_heading_line b -> startswith (py "#") rest = false ->
  quiet (title ++ NL :: b) rest.
Proof.
  intros Ht Hb Hr. apply quiet_app.
  - apply quiet_no_newline. exact Ht.
  - apply quiet_body; assumption.
Qed.

Lemma slice_middle (a b c : pystr) :
  slice (a ++ b ++ c) (List.length a) (List.length (a ++ b)) = b.
Proof.
  unfold slice. rewrite length_app.
  replace (List.length a + List.length b - List.length a) with (List.length b) by lia.
  rewrite skipn_app, skipn_all, Nat.sub_diag. cbn [skipn app].
  rewrite firstn_app, firstn_all, Nat.sub_diag. apply app_nil_r.
Qed.

Lemma slice_first (a c : pystr) : slice (a ++ c) 0 (List.length a) = a.
Proof. apply (slice_middle [] a c). Qed.

Lemma slice_last (a b : pystr) :
  slice (a ++ b) (List.length a) (List.length (a ++ b)) = b.
Proof.
  pose proof (slice_middle a b []) as H. rewrite app_nil_r in H. exact H.
Qed.

(** The sections of the document with the three headings. *)
Lemma three_sections_split b1 b2 b3 :
  no_heading_line b1 -> no_heading_line b2 -> no_heading_line b3 ->
  re_split F_NONE section_pattern
           (py "## Changes\n" ++ b1 ++ py "\n## Summary\n" ++ b2 ++ py "\n## Notes\n" ++ b3)
  = [ py "## Changes\n" ++ b1; py "Summary\n" ++ b2; py "Notes\n" ++ b3 ].
Proof.
  intros H1 H2 H3.
  set (S1 := py "## Changes" ++ NL :: b1).
  set (S2 := py "Summary" ++ NL :: b2).
  set (S3 := py "Notes" ++ NL :: b3).
  set (content := py "## Changes\n" ++ b1 ++ py "\n## Summary\n" ++ b2
                     ++ py "\n## Notes\n" ++ b3).
  assert (Hc : content = S1 ++ py "\n## " ++ S2 ++ py "\n## " ++ S3).
  { unfold content, S1, S2, S3. rewrite <- !app_assoc. reflexivity. }
  assert (Hscan : re_finditer F_NONE section_pattern content
                  = [ mkMatch (List.length S1) (cur (S1 ++ py "\n## ") (S2 ++ py "\n## " ++ S3)) [];
                      mkMatch (List.length ((S1 ++ py "\n## ") ++ S2))
                              (cur (((S1 ++ py "\n## ") ++ S2) ++ py "\n## ") S3) [] ]).
  { unfold re_finditer.
    assert (Hfuel : exists f, 2 * List.length content + 2 = S (S (S f))).
    { rewrite Hc, !length_app. unfold S1. rewrite length_app.
      change (List.length (py "## Changes")) with 10.
      exists (2 * (10 + List.length (NL :: b1)
                   + (List.length (py "\n## ")
                      + (List.length S2 + (List.length (py "\n## ") + List.length S3)))) - 1).
      lia. }
    destruct Hfuel as (f & ->). rewrite Hc. change (start_of ?s) with (cur [] s).
    change (S1 ++ py "\n## " ++ S2 ++ py "\n## " ++ S3)
      with (S1 ++ (py "\n## Summary\n" ++ b2 ++ py "\n## " ++ S3)).
    rewrite (scan_step F_NONE section_pattern (S (S f)) [] S1
               (py "\n## Summary\n" ++ b2 ++ py "\n## " ++ S3)
               (mkMatch (List.length S1)
                        (cur (S1 ++ py "\n## ") (S2 ++ py "\n## " ++ S3)) [])).
    - f_equal. cbn [m_end].
      change (S2 ++ py "\n## " ++ S3) with (S2 ++ (py "\n## Notes\n" ++ b3)).
      rewrite (scan_step F_NONE section_pattern (S f) (S1 ++ py "\n## ") S2
                 (py "\n## Notes\n" ++ b3)
                 (mkMatch (List.length ((S1 ++ py "\n## ") ++ S2))
                          (cur (((S1 ++ py "\n## ") ++ S2) ++ py "\n## ") S3) [])).
      + f_equal. cbn [m_end].
        apply (scan_end F_NONE section_pattern f).
        * apply quiet_none. apply quiet_section; [reflexivity | exact H3 | reflexivity].
        * apply match_at_section_none. reflexivity.
      + apply quiet_none. apply quiet_section; [reflexivity | exact H2 | reflexivity].
      + apply match_at_notes.
      + unfold m_stop. cbn [m_start m_end c_pos cur]. rewrite !length_app.
        change (List.length (py "\n## ")) with 4. lia.
    - apply quiet_none. apply quiet_section; [reflexivity | exact H1 | reflexivity].
    - apply match_at_summary.
    - unfold m_stop. cbn [m_start m_end c_pos cur]. rewrite !length_app.
      change (List.length (py "\n## ")) with 4. lia. }
  unfold re_split. rewrite Hscan. cbn [split_pieces m_start m_stop m_end c_pos cur].
  rewrite Hc. f_equal; [|f_equal; [|f_equal]].
  - apply slice_first.
  - rewrite (app_assoc S1 (py "\n## ")). apply slice_middle.
  - rewrite (app_assoc S1 (py "\n## ")), (app_assoc (S1 ++ py "\n## ") S2),
      (app_assoc ((S1 ++ py "\n## ") ++ S2) (py "\n## ")).
    apply slice_last.
Qed.

(* ================================================================= *)
(** ** Markdown parser: titles and bodies *)

Lemma split_on_line line rest :
  forallb (fun c => negb (c =? NL)%N) line = true ->
  split_on NL (line ++ NL :: rest) = line :: split_on NL rest.
Proof.
  induction line as [|c line IH]; intros H.
  - reflexivity.
  - cbn [forallb] in H. apply andb_true_iff in H. destruct H as [Hc Hl].
    cbn [app split_on]. apply negb_true_iff in Hc. rewrite Hc, (IH Hl). reflexivity.
Qed.

Lemma split_on_nonempty sep s : exists w ws, split_on sep s = w :: ws.
Proof.
  destruct s as [|c t]; cbn [split_on]; [eauto|].
  destruct (c =? sep)%N; [eauto|]. destruct (split_on sep t); eauto.
Qed.

Lemma join_split s : join [NL] (split_on NL s) = s.
Proof.
  induction s as [|c t IH]; [reflexivity|]. cbn [split_on].
  destruct (split_on_nonempty NL t) as (w & ws & E). rewrite E in IH |- *.
  destruct (c =? NL)%N eqn:Ec.
  - apply N.eqb_eq in Ec. subst c.
    change (join [NL] ([] :: w :: ws)) with ([] ++ [NL] ++ join [NL] (w :: ws)).
    rewrite IH. reflexivity.
  - destruct ws as [|w2 ws].
    + cbn [join] in IH |- *. rewrite IH. reflexivity.
    + change (join [NL] ((c :: w) :: w2 :: ws))
        with (c :: (w ++ [NL] ++ join [NL] (w2 :: ws))).
      change (join [NL] (w :: w2 :: ws)) with (w ++ [NL] ++ join [NL] (w2 :: ws)) in IH.
      rewrite IH. reflexivity.
Qed.

Lemma section_title_line line b :
  forallb (fun c => negb (c =? NL)%N) line = true ->
  section_title (line ++ NL :: b) = strip line.
Proof. intros H. unfold section_title. rewrite split_on_line by exact H. reflexivity. Qed.

Lemma section_body_line line b :
  forallb (fun c => negb (c =? NL)%N) line = true ->
  section_body (line ++ NL :: b) = strip b.
Proof.
  intros H. unfold section_body. rewrite split_on_line by exact H.
  cbn [tl]. rewrite join_split. reflexivity.
Qed.

Lemma lstrip_snoc_nonempty s c : is_space c = false -> nonempty (lstrip (s ++ [c])) = true.
Proof.
  intros Hc. induction s as [|x s IH]; cbn [app lstrip].
  - rewrite Hc. reflexivity.
  - destruct (is_space x); [exact IH | reflexivity].
Qed.

Lemma strip_nonempty c t : is_space c = false -> nonempty (strip (c :: t)) = true.
Proof.
  intros Hc. unfold strip, rstrip. cbn [lstrip]. rewrite Hc. cbn [rev].
  pose proof (lstrip_snoc_nonempty (rev t) c Hc) as H.
  destruct (lstrip (rev t ++ [c])) as [|x l]; [discriminate|].
  cbn [rev]. destruct (rev l); reflexivity.
Qed.

(** The three sections of the document, one by one. *)
Lemma markdown_section_changes result b :
  markdown_section result (py "## Changes" ++ NL :: b)
  = Ok (dict_set (py "changes") (VList (_extract_changes_from_text (strip b))) result).
Proof.
  unfold markdown_section.
  rewrite section_title_line, section_body_line by reflexivity.
  change (py "## Changes" ++ NL :: b) with (35%N :: (py "# Changes" ++ NL :: b)).
  rewrite strip_nonempty by reflexivity. reflexivity.
Qed.

Lemma markdown_section_summary result b :
  markdown_section result (py "Summary" ++ NL :: b)
  = Ok (dict_set (py "summary") (VStr (strip b)) result).
Proof.
  unfold markdown_section.
  rewrite section_title_line, section_body_line by reflexivity.
  change (py "Summary" ++ NL :: b) with (83%N :: (py "ummary" ++ NL :: b)).
  rewrite strip_nonempty by reflexivity. reflexivity.
Qed.

Lemma markdown_section_notes result b :
  markdown_section result (py "Notes" ++ NL :: b)
  = setitem_in (py "details") (py "Notes") (VStr (strip b)) result.
Proof.
  unfold markdown_section.
  rewrite section_title_line, section_body_line by reflexivity.
  change (py "Notes" ++ NL :: b) with (78%N :: (py "otes" ++ NL :: b)).
  rewrite strip_nonempty by reflexivity. reflexivity.
Qed.

(** X6. For every markdown document made of the sections [## Changes],
    [## Summary] and [## Notes], each followed by a body in which no line
    begins with [#], the markdown parser sets [changes] to the result of
    the text-heuristic extractor on the body of Changes, [summary] to the
    body of Summary, and stores the body of Notes under
    [details["Notes"]]; the body of a section is the text under its
    heading, surrounding whitespace trimmed. *)
Theorem markdown_three_sections b1 b2 b3 :
  no_heading_line b1 -> no_heading_line b2 -> no_heading_line b3 ->
  _parse_markdown_response
    (py "## Changes\n" ++ b1 ++ py "\n## Summary\n" ++ b2 ++ py "\n## Notes\n" ++ b3)
  = Ok (VDict
          [ (py "changes", VList (_extract_changes_from_text (strip b1)));
            (py "summary", VStr (strip b2));
            (py "details", VDict [ (py "Notes", VStr (strip b3)) ]) ]).
Proof.
  intros H1 H2 H3. unfold _parse_markdown_response.
  rewrite (three_sections_split b1 b2 b3 H1 H2 H3).
  change (py "## Changes\n" ++ b1) with (py "## Changes" ++ NL :: b1).
  change (py "Summary\n" ++ b2) with (py "Summary" ++ NL :: b2).
  change (py "Notes\n" ++ b3) with (py "Notes" ++ NL :: b3).
  cbn [for_each]. rewrite markdown_section_changes. cbn [bind].
  rewrite markdown_section_summary. cbn [bind].
  rewrite markdown_section_notes. reflexivity.
Qed.

(* ================================================================= *)
(** ** Fenced blocks: the body up to the closing fence *)

(** A lazy run passes over a stretch where the continuation fails. *)
Lemma lazy_run_skip f k body : forall pos prev rest cs,
  forallb f body = true ->
  (forall s1 s2, body = s1 ++ s2 -> s2 <> [] ->
                 k (cur_after (mkCur pos prev (body ++ rest)) s1) cs = None) ->
  lazy_run f k pos prev (body ++ rest) cs
  = lazy_run f k (c_pos (cur_after (mkCur pos prev (body ++ rest)) body))
             (c_prev (cur_after (mkCur pos prev (body ++ rest)) body)) rest cs.
Proof.
  induction body as [|c body IH]; intros pos prev rest cs Hf Hk.
  - cbn [app]. rewrite cur_after_nil. reflexivity.
  - cbn [forallb] in Hf. apply andb_true_iff in Hf. destruct Hf as [Hc Hf].
    change ((c :: body) ++ rest) with (c :: body ++ rest). cbn [lazy_run].
    pose proof (Hk [] (c :: body) eq_refl) as H0. rewrite cur_after_nil in H0.
    change ((c :: body) ++ rest) with (c :: body ++ rest) in H0.
    rewrite H0 by discriminate. rewrite Hc.
    rewrite IH; [|exact Hf|].
    + rewrite (cur_after_cons pos prev c (body ++ rest) body). reflexivity.
    + intros s1 s2 Hs Hne. rewrite <- (cur_after_cons pos prev c (body ++ rest) s1).
      apply (Hk (c :: s1) s2); [rewrite Hs; reflexivity | exact Hne].
Qed.

Lemma startswith_fence_none s2 rest :
  no_backtick s2 = true -> s2 <> [] -> startswith (py "`") rest = false ->
  startswith (py "\n```") (s2 ++ rest) = false.
Proof.
  intros Hb Hne Hr. destruct s2 as [|c s2]; [contradiction|].
  change (py "\n```") with (NL :: py "`" ++ py "``").
  cbn [app startswith]. destruct (NL =? c)%N; [|reflexivity]. cbn [andb].
  destruct s2 as [|c2 s2].
  - cbn [app]. change (py "`" ++ py "``") with (96%N :: py "``").
    change (py "`") with [96%N] in Hr.
    destruct rest as [|r0 rest]; [reflexivity|]. cbn [startswith] in Hr |- *.
    rewrite andb_true_r in Hr. rewrite Hr. reflexivity.
  - unfold no_backtick in Hb. cbn [forallb] in Hb.
    apply andb_true_iff in Hb. destruct Hb as [_ Hb].
    apply andb_true_iff in Hb. destruct Hb as [Hb _].
    change (py "`" ++ py "``") with (96%N :: py "``"). cbn [app startswith].
    rewrite N.eqb_sym. apply negb_true_iff in Hb. rewrite Hb. reflexivity.
Qed.

Lemma no_backtick_app s1 s2 : no_backtick (s1 ++ s2) = no_backtick s1 && no_backtick s2.
Proof. apply forallb_app. Qed.

Lemma no_backtick_suffix s1 s2 : no_backtick (s1 ++ s2) = true -> no_backtick s2 = true.
Proof.
  unfold no_backtick. rewrite forallb_app. intros H.
  apply andb_true_iff in H. destruct H as [_ H]. exact H.
Qed.

(** [(.*?)\n```] on a body without backticks: the group is the body up
    to the first closing fence. *)
Lemma mtr_tail_first fl n k cu cs body rest x :
  IGNORECASE fl = false -> DOTALL fl = true ->
  c_rest cu = body ++ py "\n```" ++ rest ->
  no_backtick body = true ->
  k (cur_after cu (body ++ py "\n```"))
    ((n, (c_pos cu, c_pos cu + List.length body)) :: cs) = Some x ->
  mtr_tail fl n k cu cs = Some x.
Proof.
  intros Hic Hdot Hrest Hb Hk. unfold mtr_tail, body_tail. cbn [mtr]. unfold run.
  destruct cu as [pos prev text]. cbn [c_rest c_pos c_prev] in Hrest |- *. subst text.
  set (K := fun (cu' : cursor) (cs' : caps) =>
              step_if (chr_match fl NL)
                      (mtr fl (Lit (py "```")) k) cu' ((n, (pos, c_pos cu')) :: cs')).
  assert (HK : forall cu' cs', startswith (py "\n```") (c_rest cu') = false ->
                               K cu' cs' = None).
  { intros cu' cs' H. unfold K, step_if. destruct (c_rest cu') as [|c0 t0] eqn:E0; [reflexivity|].
    unfold chr_match. rewrite Hic.
    change (py "\n```") with (NL :: py "```") in H. cbn [startswith] in H.
    rewrite N.eqb_sym in H. destruct (c0 =? NL)%N; [|reflexivity]. cbn [andb] in H.
    rewrite <- mt_mtr, mt_Lit by (assumption || discriminate).
    unfold advance. cbn [c_rest]. rewrite H. reflexivity. }
  rewrite lazy_run_skip.
  - set (cu1 := cur_after (mkCur pos prev (body ++ py "\n```" ++ rest)) body).
    assert (Hr1 : c_rest cu1 = py "\n```" ++ rest).
    { unfold cu1, cur_after. cbn [c_rest].
      rewrite skipn_app, skipn_all, Nat.sub_diag. reflexivity. }
    assert (HK1 : K cu1 cs = Some x).
    { unfold K, step_if. rewrite Hr1.
      change (py "\n```" ++ rest) with (NL :: py "```" ++ rest).
      unfold chr_match. rewrite Hic. change (NL =? NL)%N with true. cbv iota.
      rewrite <- mt_mtr, mt_Lit by (assumption || discriminate).
      unfold advance at 1. cbn [c_rest].
      change (startswith (py "```") (py "```" ++ rest)) with true. cbv iota.
      rewrite (advance_cur_after cu1 NL (py "```" ++ rest) Hr1), cur_after_app.
      unfold cu1 at 1. rewrite cur_after_app.
      change (c_pos cu1) with (pos + List.length body). exact Hk. }
    change (py "\n```" ++ rest) with (NL :: py "```" ++ rest).
    cbn [lazy_run].
    replace (mkCur (c_pos cu1) (c_prev cu1) (NL :: py "```" ++ rest)) with cu1
      by (rewrite <- (cursor_eta cu1) at 1; rewrite Hr1; reflexivity).
    rewrite HK1. reflexivity.
  - clear - Hdot. induction body; [reflexivity|]. cbn [forallb]. rewrite IHbody.
    unfold any_match. rewrite Hdot. reflexivity.
  - intros s1 s2 Hs Hne. apply HK.
    unfold cur_after. cbn [c_rest]. rewrite Hs, <- app_assoc.
    rewrite skipn_app, skipn_all, Nat.sub_diag. cbn [skipn app].
    apply startswith_fence_none; [|exact Hne|reflexivity].
    rewrite Hs in Hb. apply (no_backtick_suffix s1 s2 Hb).
Qed.

Lemma is_space_not_newline c : is_space c = false -> (c =? NL)%N = false.
Proof.
  intros H. destruct (c =? NL)%N eqn:E; [|reflexivity].
  apply N.eqb_eq in E. subst c. discriminate.
Qed.

(** [\s*\n(.*?)\n```] before a body that begins with a character other
    than whitespace: the newline ends the fence line. *)
Lemma mtr_ws_tail_first fl n k cu cs c body rest x :
  IGNORECASE fl = false -> DOTALL fl = true ->
  c_rest cu = NL :: (c :: body) ++ py "\n```" ++ rest ->
  is_space c = false -> no_backtick (c :: body) = true ->
  k (cur_after cu (NL :: (c :: body) ++ py "\n```"))
    ((n, (S (c_pos cu), S (c_pos cu) + List.length (c :: body))) :: cs) = Some x ->
  mtr_ws_tail fl n k cu cs = Some x.
Proof.
  intros Hic Hdot Hrest Hsp Hb Hk. unfold mtr_ws_tail, ws_body_tail.
  cbn [mtr]. fold (body_tail n). unfold run.
  change (mtr fl (body_tail n) k) with (mtr_tail fl n k).
  rewrite Hrest. change ((c :: body) ++ py "\n```" ++ rest)
    with (c :: body ++ py "\n```" ++ rest).
  cbn [greedy_run].
  assert (Hnl : cls_match fl [CSpace] NL = true) by reflexivity.
  assert (Hc : cls_match fl [CSpace] c = false).
  { unfold cls_match. cbn [existsb citem_match]. rewrite Hsp. reflexivity. }
  rewrite Hnl, Hc. unfold step_if at 1. cbn [c_rest].
  unfold chr_match at 1. rewrite Hic, (is_space_not_newline c Hsp).
  unfold step_if. cbn [c_rest]. unfold chr_match. rewrite Hic.
  change (NL =? NL)%N with true. cbv iota.
  apply (mtr_tail_first fl n k _ cs (c :: body) rest x Hic Hdot).
  - reflexivity.
  - exact Hb.
  - unfold advance. cbn [c_pos].
    rewrite <- Hk. f_equal.
    rewrite <- (cursor_eta cu) at 2. rewrite Hrest.
    rewrite (cur_after_cons (c_pos cu) (c_prev cu) NL
                            ((c :: body) ++ py "\n```" ++ rest)
                            ((c :: body) ++ py "\n```")).
    reflexivity.
Qed.

(* ================================================================= *)
(** ** A patch block and a python block *)

(** The text of the scenario: a patch block with the header pair of
    foo.py, then [hunks], and a python block with [code]. *)
Lemma scan_first fl r n s m :
  match_at fl r false (cur [] s) = Some m ->
  exists ms, scan fl r (2 * n + 2) false (start_of s) = m :: ms.
Proof.
  intros H. replace (2 * n + 2) with (S (2 * n + 1)) by lia.
  cbn [scan start_of c_pos c_prev c_rest].
  rewrite (search_from_here fl r false 0 None s m H). eauto.
Qed.

Lemma fenced_front_patch (k : kont) tail :
  mtr F_SM fenced_diff_pattern k (cur [] (py "```patch" ++ tail)) []
  = match mtr_ws_tail F_SM 1 k (mkCur 8 (Some 104%N) tail) [] with
    | Some x => Some x
    | None => None
    end.
Proof. reflexivity. Qed.

Lemma take_line_exact p rest :
  forallb (fun c => negb (c =? NL)%N) p = true ->
  take_line (p ++ NL :: rest) = (p, NL :: rest).
Proof.
  induction p as [|c p IH]; intros H; [reflexivity|].
  cbn [forallb] in H. apply andb_true_iff in H. destruct H as [Hc Hp].
  apply negb_true_iff in Hc. cbn [app take_line]. rewrite Hc, (IH Hp). reflexivity.
Qed.

Lemma first_newline s a b :
  s = a ++ NL :: b ->
  exists l r, s = l ++ NL :: r /\ forallb (fun c => negb (c =? NL)%N) l = true.
Proof.
  intros Hs. destruct (take_line_spec s) as (H1 & H2 & [H3 | (r & H3)]).
  - exfalso. rewrite H3, app_nil_r in H1. rewrite <- H1, Hs, forallb_app in H2.
    cbn [forallb] in H2. change (negb (NL =? NL)%N) with false in H2.
    rewrite andb_false_r in H2. discriminate.
  - exists (fst (take_line s)), r. rewrite <- H3. auto.
Qed.

Lemma skipn_exact (p t : pystr) : skipn (List.length p) (p ++ t) = t.
Proof. rewrite skipn_app, skipn_all, Nat.sub_diag. reflexivity. Qed.

(** A header pair at the beginning of a text. *)
Lemma header_here_lines p q rest :
  forallb (fun c => negb (c =? NL)%N) p = true -> nonempty p = true ->
  forallb (fun c => negb (c =? NL)%N) q = true -> nonempty q = true ->
  header_here (py "--- a/" ++ p ++ NL :: py "+++ b/" ++ q ++ NL :: rest) = Some (p, q).
Proof.
  intros Hp Hpn Hq Hqn. unfold header_here.
  change (startswith (py "--- a/") (py "--- a/" ++ ?t)) with true. cbv iota.
  change (skipn 6 (py "--- a/" ++ ?t)) with t.
  rewrite (take_line_exact p _ Hp). cbn [fst]. rewrite Hpn.
  rewrite skipn_exact.
  change (startswith [NL] (NL :: ?t)) with true. cbv iota.
  change (skipn 1 (NL :: ?t)) with t.
  change (startswith (py "+++ b/") (py "+++ b/" ++ ?t)) with true. cbv iota.
  change (skipn 6 (py "+++ b/" ++ ?t)) with t.
  rewrite (take_line_exact q _ Hq). cbn [fst]. rewrite Hqn.
  rewrite skipn_exact. reflexivity.
Qed.

(* ================================================================= *)
(** ** Dictionaries *)

Lemma dict_get_set_same k v d : dict_get k (dict_set k v d) = Some v.
Proof.
  induction d as [|[k' v'] t IH]; simpl.
  - rewrite str_eqb_refl. reflexivity.
  - destruct (str_eqb k k') eqn:E; simpl; rewrite E; [reflexivity | exact IH].
Qed.

Lemma dict_get_set_other k k' v d :
  str_eqb k k' = false -> dict_get k (dict_set k' v d) = dict_get k d.
Proof.
  intros Hne. induction d as [|[k2 v2] t IH]; simpl.
  - rewrite Hne. reflexivity.
  - destruct (str_eqb k' k2) eqn:E; simpl.
    + apply str_eqb_eq in E. subst k2. rewrite Hne. reflexivity.
    + destruct (str_eqb k k2); [reflexivity | exact IH].
Qed.

Lemma dict_has_get k d : dict_has k d = is_some (dict_get k d).
Proof.
  induction d as [|[k' v'] t IH]; simpl; [reflexivity|].
  destruct (str_eqb k k'); simpl; [reflexivity | exact IH].
Qed.

Lemma dict_has_set k k' v d : dict_has k d = true -> dict_has k (dict_set k' v d) = true.
Proof.
  rewrite !dict_has_get. intros H. destruct (str_eqb k k') eqn:E.
  - apply str_eqb_eq in E. subst. rewrite dict_get_set_same. reflexivity.
  - rewrite dict_get_set_other by exact E. exact H.
Qed.

Lemma dict_has_update k e : forall d, dict_has k d = true -> dict_has k (dict_update d e) = true.
Proof.
  unfold dict_update. induction e as [|[k' v'] t IH]; intros d H; simpl; [exact H|].
  apply IH. apply dict_has_set. exact H.
Qed.

(** A property kept by every step of a loop holds after the loop. *)
Lemma for_each_invariant {A S : Type} (P : S -> Prop) (f : S -> A -> pyresult S) :
  (forall st x st', P st -> f st x = Ok st' -> P st') ->
  forall l st st', P st -> for_each f l st = Ok st' -> P st'.
Proof.
  intros Hf. induction l as [|x t IH]; intros st st' HP H; simpl in H.
  - inversion H; subst. exact HP.
  - destruct (f st x) as [st1|e] eqn:E; simpl in H; [|discriminate].
    eapply IH; [|exact H]. eapply Hf; eauto.
Qed.

(* ================================================================= *)
(** ** The assembler *)

Lemma setitem_ok k v x r :
  setitem k v x = Ok r -> exists d, x = VDict d /\ r = VDict (dict_set k v d).
Proof.
  destruct x; simpl; try discriminate. intros H. inversion H. eauto.
Qed.

(** What the assembler has done when it returns. *)
Lemma parse_response_ok response_file content now r :
  parse_response response_file content now = Ok r ->
  exists d,
    parsers_get (_detect_response_type content) parsers _parse_text_response content
    = Ok (VDict d) /\
    r = VDict
          (dict_set (py "metadata")
             (metadata_record response_file (_detect_response_type content) now content)
             (dict_set (py "commits") (VList (map VStr (_extract_commit_messages content)))
                (dict_set (py "patches") (VList (_extract_patches content)) d))).
Proof.
  unfold parse_response.
  destruct (parsers_get _ parsers _parse_text_response content) as [v|e]; [|discriminate].
  cbn [bind]. intros H.
  destruct (setitem (py "patches") _ v) as [v1|e] eqn:E1; [|discriminate].
  cbn [bind] in H.
  destruct (setitem (py "commits") _ v1) as [v2|e] eqn:E2; [|discriminate].
  cbn [bind] in H.
  apply setitem_ok in E1. destruct E1 as (d & -> & ->).
  apply setitem_ok in E2. destruct E2 as (d1 & Hd1 & ->). inversion Hd1; subst d1.
  apply setitem_ok in H. destruct H as (d2 & Hd2 & ->). inversion Hd2; subst d2.
  exists d. split; reflexivity.
Qed.

Lemma markdown_section_keeps k result section result' :
  dict_has k result = true -> markdown_section result section = Ok result' ->
  dict_has k result' = true.
Proof.
  intros Hk. unfold markdown_section, setitem_in.
  repeat match goal with
         | |- context [if ?c then _ else _] => destruct c
         end;
    try (intros H; inversion H; subst; auto using dict_has_set; fail).
  destruct (dict_get (py "details") result) as [[]|]; try discriminate.
  intros H; inversion H; subst. auto using dict_has_set.
Qed.

Lemma parse_markdown_keys content r :
  _parse_markdown_response content = Ok r ->
  has_key (py "changes") r = true /\ has_key (py "summary") r = true /\
  has_key (py "details") r = true.
Proof.
  unfold _parse_markdown_response.
  destruct (for_each markdown_section _ _) as [d|e] eqn:E; [|discriminate].
  cbn [bind]. intros H; inversion H; subst; clear H. cbn [has_key].
  assert (Hall : forall k,
             dict_has k [ (py "changes", VList []); (py "summary", VStr []);
                          (py "details", VDict []) ] = true ->
             dict_has k d = true).
  { intros k Hk.
    eapply (for_each_invariant (fun d => dict_has k d = true));
      [intros st x st'; apply markdown_section_keeps | exact Hk | exact E]. }
  repeat split; apply Hall; reflexivity.
Qed.

Lemma extend_in_keeps k k' x d d' :
  dict_has k d = true -> extend_in k' x d = Ok d' -> dict_has k d' = true.
Proof.
  intros Hk. unfold extend_in.
  destruct (dict_get k' d) as [[]|]; try discriminate.
  destruct (iter_values x); [|discriminate]. cbn [bind].
  intros H; inversion H; subst. auto using dict_has_set.
Qed.

Lemma mixed_json_block_keeps k result block result' :
  dict_has k result = true -> mixed_json_block result block = Ok result' ->
  dict_has k result' = true.
Proof.
  intros Hk. unfold mixed_json_block.
  destruct (json_loads block) as [data|e]; cbn [bind];
    [|intros H; inversion H; subst; exact Hk].
  destruct data; try (intros H; inversion H; subst; exact Hk).
  - destruct (extend_in (py "changes") (VList l) result) eqn:E;
      intros H; inversion H; subst; eauto using extend_in_keeps.
  - destruct (dict_has (py "changes") d).
    + destruct (dict_get (py "changes") d) as [c|];
        [|intros H; inversion H; subst; exact Hk].
      destruct (extend_in (py "changes") c result) eqn:E;
        intros H; inversion H; subst; eauto using extend_in_keeps.
    + intros H; inversion H; subst. apply dict_has_update. exact Hk.
Qed.

Lemma mixed_code_block_keeps k result m result' :
  dict_has k result = true -> mixed_code_block result m = Ok result' ->
  dict_has k result' = true.
Proof.
  intros Hk. destruct m as [lang code]. unfold mixed_code_block, append_in.
  destruct (dict_get (py "code_blocks") result) as [[]|]; try discriminate.
  intros H; inversion H; subst. auto using dict_has_set.
Qed.

Lemma mixed_section_keeps k result section result' :
  dict_has k result = true -> mixed_section result section = Ok result' ->
  dict_has k result' = true.
Proof.
  intros Hk. unfold mixed_section, setitem_in.
  repeat match goal with
         | |- context [if ?c then _ else _] => destruct c
         end;
    try (intros H; inversion H; subst; auto using dict_has_set; fail).
  destruct (dict_get (py "sections") result) as [[]|]; try discriminate.
  intros H; inversion H; subst. auto using dict_has_set.
Qed.

Lemma parse_mixed_keys content r :
  _parse_mixed_response content = Ok r ->
  has_key (py "changes") r = true /\ has_key (py "code_blocks") r = true /\
  has_key (py "sections") r = true.
Proof.
  unfold _parse_mixed_response.
  destruct (for_each mixed_json_block _ _) as [d1|e] eqn:E1; [|discriminate]. cbn [bind].
  destruct (for_each mixed_code_block _ d1) as [d2|e] eqn:E2; [|discriminate]. cbn [bind].
  destruct (for_each mixed_section _ d2) as [d3|e] eqn:E3; [|discriminate]. cbn [bind].
  intros H; inversion H; subst; clear H. cbn [has_key].
  assert (Hall : forall k,
             dict_has k [ (py "changes", VList []); (py "code_blocks", VList []);
                          (py "sections", VDict []) ] = true ->
             dict_has k d3 = true).
  { intros k Hk.
    eapply (for_each_invariant (fun d => dict_has k d = true));
      [intros st x st'; apply mixed_section_keeps | | exact E3].
    eapply (for_each_invariant (fun d => dict_has k d = true));
      [intros st x st'; apply mixed_code_block_keeps | | exact E2].
    eapply (for_each_invariant (fun d => dict_has k d = true));
      [intros st x st'; apply mixed_json_block_keeps | | exact E1].
    exact Hk. }
  repeat split; apply Hall; reflexivity.
Qed.

Lemma has_key_after_attach k d p c m :
  dict_has k d = true ->
  has_key k (VDict (dict_set (py "metadata") m
                      (dict_set (py "commits") c (dict_set (py "patches") p d)))) = true.
Proof. intros H. cbn [has_key]. auto using dict_has_set. Qed.

(** C1, where the code departs from it. A text that is a JSON array is
    classified as json, the JSON parser returns the decoded list, and the
    assembler fails with [TypeError] on attaching [patches] to it. *)
Theorem parse_response_json_array_raises response_file content now l :
  startswith (py "[") (strip content) = true ->
  json_loads content = Ok (VList l) ->
  _detect_response_type content = py "json" /\
  _parse_json_response content = Ok (VList l) /\
  parse_response response_file content now = Raise TypeError.
Proof.
  intros Hs Hj.
  assert (Hd : _detect_response_type content = py "json").
  { unfold _detect_response_type. rewrite Hs, Hj, orb_true_r. reflexivity. }
  assert (Hp : _parse_json_response content = Ok (VList l)).
  { unfold _parse_json_response. rewrite Hj. reflexivity. }
  split; [exact Hd|]. split; [exact Hp|].
  unfold parse_response. rewrite Hd.
  change (parsers_get (py "json") parsers _parse_text_response)
    with _parse_json_response.
  rewrite Hp. reflexivity.
Qed.

(** C10. A text whose detected shape is yaml goes to the plain-text
    parser, the table of parsers having no entry for yaml: the record is
    the text parser's ([raw_content], heuristic [changes], [summary] of at
    most 500 characters and an ellipsis) with [patches], [commits] and a
    [metadata] that records the shape yaml. The value of the YAML loader
    is not used. *)
Theorem yaml_shape_uses_text_parser response_file content now :
  _detect_response_type content = py "yaml" ->
  (forall default, parsers_get (py "yaml") parsers default = default) /\
  parse_response response_file content now
  = Ok (VDict
          [ (py "raw_content", VStr content);
            (py "changes", VList (_extract_changes_from_text content));
            (py "summary", VStr (if Nat.ltb 500 (List.length content)
                                 then firstn 500 content ++ py "..."
                                 else content));
            (py "patches", VList (_extract_patches content));
            (py "commits", VList (map VStr (_extract_commit_messages content)));
            (py "metadata",
             VDict [ (py "response_file", VStr response_file);
                     (py "response_type", VStr (py "yaml"));
                     (py "parsed_at", VStr now);
                     (py "content_length", VInt (Z.of_nat (List.length content))) ]) ]).
Proof.
  intros Hd. split; [intros default; reflexivity|].
  unfold parse_response. rewrite Hd.
  change (parsers_get (py "yaml") parsers _parse_text_response)
    with _parse_text_response.
  reflexivity.
Qed.

(* ================================================================= *)
(** ** The patch extractor on sample texts *)

(** C7. On the one-line text [Replace: "old_value" -> "new_value"] (with
    the arrow U+2192) the patch extractor returns exactly one record: the
    two-line body, the file unknown, the format simple_replace. *)
Theorem replace_directive_patch :
  _extract_patches (py "Replace: \qold_value\q → \qnew_value\q")
  = [ VDict [ (py "content", VStr (py "-old_value\n+new_value"));
              (py "file", VStr (py "unknown"));
              (py "format", VStr (py "simple_replace")) ] ].
Proof. vm_compute. reflexivity. Qed.

(* ================================================================= *)
(** ** What the extractors report *)

Lemma seq_lit_prefix fl w r pre txt post :
  IGNORECASE fl = false ->
  matches fl (Seq (Lit w) r) (cur pre (txt ++ post)) (cur (pre ++ txt) post) ->
  startswith w txt = true.
Proof.
  intros Hi. cbn [matches]. intros (mid & H1 & H2).
  apply matches_Lit in H1; [|exact Hi]. destruct H1 as (rest & E & ->).
  apply matches_cur in H2. destruct H2 as (t2 & p2 & -> & H2).
  apply cur_inj_rest in H2. subst p2.
  apply startswith_iff. exists t2. apply (app_inv_tail post).
  rewrite <- app_assoc. exact E.
Qed.

Lemma finditer_prefix fl w r s m :
  IGNORECASE fl = false -> In m (re_finditer fl (Seq (Lit w) r) s) ->
  startswith w (group0 s m) = true.
Proof.
  intros Hi Hm. apply re_finditer_sound in Hm. apply match_in_group0 in Hm.
  destruct Hm as (pre & txt & post & _ & -> & Hm).
  exact (seq_lit_prefix fl w r pre txt post Hi Hm).
Qed.

Lemma finditer_prefix_bol fl w r s m :
  IGNORECASE fl = false -> In m (re_finditer fl (Seq Bol (Seq (Lit w) r)) s) ->
  startswith w (group0 s m) = true.
Proof.
  intros Hi Hm. apply re_finditer_sound in Hm. apply match_in_group0 in Hm.
  destruct Hm as (pre & txt & post & _ & -> & Hm).
  cbn [matches] in Hm. destruct Hm as (mid & [-> _] & Hm).
  exact (seq_lit_prefix fl w r pre txt post Hi Hm).
Qed.

Lemma startswith_contains w s : startswith w s = true -> contains w s = true.
Proof.
  intros H. apply startswith_iff in H. destruct H as (rest & ->).
  apply contains_iff. exists [], rest. reflexivity.
Qed.

(** A match of one of the three diff patterns begins with the marker of
    its family. *)
Lemma diff_match_marker content pattern m :
  In pattern diff_patterns -> In m (re_finditer F_SM pattern content) ->
  startswith (py "```") (group0 content m) = true \/
  startswith (py "--- a/") (group0 content m) = true \/
  startswith (py "@@ -") (group0 content m) = true.
Proof.
  intros Hp Hm. destruct Hp as [<-|[<-|[<-|[]]]].
  - left. cbv [fenced_diff_pattern Seqs L] in Hm.
    apply finditer_prefix in Hm; [exact Hm | reflexivity].
  - right. left. cbv [raw_diff_pattern Seqs L] in Hm.
    apply finditer_prefix_bol in Hm; [exact Hm | reflexivity].
  - right. right. cbv [hunk_pattern Seqs L] in Hm.
    apply finditer_prefix in Hm; [exact Hm | reflexivity].
Qed.

Lemma patches_origin content v :
  In v (_extract_patches content) ->
  (exists c, v = patch_record c (header_file c) /\ contains c content = true /\
             (startswith (py "```") c = true \/ startswith (py "--- a/") c = true \/
              startswith (py "@@ -") c = true))
  \/ (exists old new, v = replace_record (old, new) /\
        contains (py "Replace:") content = true /\
        contains old content = true /\ contains new content = true /\
        ~ In NL old /\ ~ In NL new).
Proof.
  unfold _extract_patches. intros H. apply in_app_or in H. destruct H as [H|H].
  - left. apply in_flat_map in H. destruct H as (pattern & Hp & H).
    apply in_map_iff in H. destruct H as (m & <- & Hm).
    exists (group0 content m). split; [apply diff_record_file|].
    split; [apply group0_contains|]. exact (diff_match_marker content pattern m Hp Hm).
  - right. apply in_map_iff in H. destruct H as ([old new] & <- & H).
    unfold re_findall2 in H. apply in_map_iff in H. destruct H as (m & E & Hm).
    inversion E; subst old new. clear E.
    exists (group_or_empty content m 1), (group_or_empty content m 2).
    split; [reflexivity|]. split.
    + pose proof Hm as Hm'. cbv [simple_pattern Seqs L] in Hm'.
      apply finditer_prefix in Hm'; [|reflexivity].
      apply startswith_contains in Hm'.
      exact (contains_trans _ _ _ Hm' (group0_contains content m)).
    + split; [apply group_or_empty_contains|]. split; [apply group_or_empty_contains|].
      split; apply (finditer_group_line F_M simple_pattern content m _ Hm); reflexivity.
Qed.

(** X12. Every record of the patch extractor stems from the text. A diff
    record holds a piece of the text that begins with a fence, with
    [--- a/] or with [@@ -], and names the file of the first header pair
    of that piece; a replacement record holds two pieces of the text,
    each on one line. *)
Theorem patch_records_origin content :
  Forall (fun v =>
            (exists c, v = patch_record c (header_file c) /\ contains c content = true /\
                       (startswith (py "```") c = true \/
                        startswith (py "--- a/") c = true \/
                        startswith (py "@@ -") c = true))
            \/ (exists old new,
                   v = VDict [ (py "content", VStr (py "-" ++ old ++ py "\n+" ++ new));
                               (py "file", VStr (py "unknown"));
                               (py "format", VStr (py "simple_replace")) ] /\
                   contains old content = true /\ contains new content = true /\
                   ~ In NL old /\ ~ In NL new))
         (_extract_patches content).
Proof.
  apply Forall_forall. intros v Hv. apply patches_origin in Hv.
  destruct Hv as [Hv|(old & new & -> & _ & H)]; [left; exact Hv|].
  right. exists old, new. split; [reflexivity | exact H].
Qed.

(** X13. A text without a fence, without [--- a/], without [@@ -] and without
    [Replace:] yields no patch. *)
Theorem no_marker_no_patch content :
  contains (py "```") content = false ->
  contains (py "--- a/") content = false ->
  contains (py "@@ -") content = false ->
  contains (py "Replace:") content = false ->
  _extract_patches content = [].
Proof.
  intros H1 H2 H3 H4. apply no_elements. intros v Hv. apply patches_origin in Hv.
  destruct Hv as [(c & _ & Hc & Hs)|(old & new & _ & Hr & _)].
  - destruct Hs as [Hs|[Hs|Hs]]; apply startswith_contains in Hs;
      pose proof (contains_trans _ _ _ Hs Hc) as Hx; congruence.
  - congruence.
Qed.

(** *** Changes *)

Lemma file_patterns_one_line :
  forallb (groups_nl_free F_IM 1) file_patterns = true.
Proof. reflexivity. Qed.

Lemma changes_origin text v :
  In v (_extract_changes_from_text text) ->
  exists g, v = change_record g /\ strip g <> [] /\ In 46%N g /\ ~ In NL g /\
            contains g text = true.
Proof.
  unfold _extract_changes_from_text. intros H.
  apply in_flat_map in H. destruct H as (pattern & Hp & H).
  apply in_flat_map in H. destruct H as (g & Hg & H).
  destruct (nonempty (strip g) && contains (py ".") g) eqn:E; [|destruct H].
  destruct H as [<-|[]]. apply andb_true_iff in E. destruct E as [En Ed].
  exists g. split; [reflexivity|]. split.
  - intros E0. rewrite E0 in En. discriminate.
  - split; [apply contains_char_In; exact Ed|].
    unfold re_findall1 in Hg. apply in_map_iff in Hg. destruct Hg as (m & <- & Hm).
    split; [|apply group_or_empty_contains].
    apply (finditer_group_line F_IM pattern text m 1 Hm).
    pose proof file_patterns_one_line as Hall. rewrite forallb_forall in Hall.
    apply Hall. exact Hp.
Qed.

(** X15. Every change record names a piece of the text that is not empty, has
    no whitespace at its ends, lies on one line and holds a dot; the
    other fields are fixed. *)
Theorem change_records_origin text :
  Forall (fun v =>
            exists p,
              v = VDict [ (py "file_path", VStr p);
                          (py "change_type", VStr (py "modify"));
                          (py "description", VStr (py "Change detected in " ++ p));
                          (py "source", VStr (py "text_extraction")) ] /\
              p <> [] /\ strip p = p /\ In 46%N p /\ ~ In NL p /\
              contains p text = true)
         (_extract_changes_from_text text).
Proof.
  apply Forall_forall. intros v Hv. apply changes_origin in Hv.
  destruct Hv as (g & -> & Hne & Hdot & Hnl & Hc).
  exists (strip g). split; [reflexivity|]. split; [exact Hne|].
  split; [apply strip_idempotent|]. split; [apply strip_keeps_char; [reflexivity | exact Hdot]|].
  split.
  - intros Hin. apply Hnl. apply strip_In. exact Hin.
  - exact (contains_trans _ _ _ (strip_contains g) Hc).
Qed.

(** X16. A text without a dot yields no change. *)
Theorem no_dot_no_change text :
  contains (py ".") text = false -> _extract_changes_from_text text = [].
Proof.
  intros Hd. apply no_elements. intros v Hv. apply changes_origin in Hv.
  destruct Hv as (g & _ & _ & Hdot & _ & Hc).
  apply contains_char_In in Hdot.
  pose proof (contains_trans _ _ _ Hdot Hc) as Hx.
  exact (eq_true_false_abs _ Hx Hd).
Qed.

(** *** Commit messages *)

Lemma commit_patterns_one_line :
  forallb (groups_nl_free F_IM 1) commit_patterns = true.
Proof. reflexivity. Qed.

(** X17. Every commit message is a piece of the text without whitespace at
    its ends, and lies on one line. *)
Theorem commit_messages_one_line content :
  Forall (fun m => contains m content = true /\ strip m = m /\ ~ In NL m)
         (_extract_commit_messages content).
Proof.
  apply Forall_forall. intros msg Hm.
  rewrite extract_commit_messages_refines in Hm. unfold commit_messages_spec in Hm.
  assert (Hc : In msg (commit_candidates content)).
  { assert (Hd : In msg (dedup_first (commit_candidates content))).
    { rewrite <- (firstn_skipn 5). apply in_or_app. left. exact Hm. }
    apply dedup_seen_In in Hd. destruct Hd as [Hd _]. exact Hd. }
  clear Hm. unfold commit_candidates in Hc. apply List.in_concat in Hc.
  destruct Hc as (fam & Hfam & Hin). apply in_map_iff in Hfam.
  destruct Hfam as (pattern & <- & Hp). unfold family_candidates in Hin.
  apply filter_In in Hin. destruct Hin as [Hin _].
  apply in_map_iff in Hin. destruct Hin as (g & <- & Hg).
  unfold re_findall1 in Hg. apply in_map_iff in Hg. destruct Hg as (m & <- & Hm).
  split; [exact (contains_trans _ _ _ (strip_contains _) (group_or_empty_contains content m 1))|].
  split; [apply strip_idempotent|].
  intros Hnl. apply strip_In in Hnl. revert Hnl.
  apply (finditer_group_line F_IM pattern content m 1 Hm).
  pose proof commit_patterns_one_line as Hall. rewrite forallb_forall in Hall.
  apply Hall. exact Hp.
Qed.
(* ================================================================= *)
(** ** When the parsers return *)

(** A loop whose steps all return under an invariant returns. *)
Lemma for_each_total {A S : Type} (P : S -> Prop) (f : S -> A -> pyresult S) (l : list A) :
  (forall st x, In x l -> P st -> exists st', f st x = Ok st' /\ P st') ->
  forall st, P st -> exists st', for_each f l st = Ok st' /\ P st'.
Proof.
  induction l as [|x t IH]; intros Hf st HP.
  - exists st. split; [reflexivity | exact HP].
  - cbn [for_each]. destruct (Hf st x (or_introl eq_refl) HP) as (st1 & E1 & HP1).
    rewrite E1. cbn [bind]. apply IH; [|exact HP1].
    intros st' y Hy. apply Hf. right. exact Hy.
Qed.

Lemma dict_get_update_other k e : forall d,
  dict_has k e = false -> dict_get k (dict_update d e) = dict_get k d.
Proof.
  unfold dict_update. induction e as [|[k' v'] t IH]; intros d H; cbn [fold_left].
  - reflexivity.
  - cbn [dict_has] in H. apply orb_false_iff in H. destruct H as [Hk Ht].
    cbn [fst snd]. rewrite (IH _ Ht). apply dict_get_set_other. exact Hk.
Qed.

(** The fields of a record, one by one. *)
Ltac record_fields :=
  unfold markdown_record, mixed_record;
  repeat split; eexists; first [eassumption | reflexivity].

(** *** Markdown *)

Lemma markdown_section_total result section :
  markdown_record result ->
  exists result', markdown_section result section = Ok result' /\ markdown_record result'.
Proof.
  intros ((c & Hc) & (s & Hs) & (det & Hd)). unfold markdown_section. cbv zeta.
  destruct (negb (nonempty (strip section)));
    [exists result; split; [reflexivity | record_fields]|].
  destruct (negb (nonempty (section_title section)));
    [exists result; split; [reflexivity | record_fields]|].
  destruct (contains (py "change") _ || contains (py "modification") _).
  { eexists. split; [reflexivity|]. unfold markdown_record.
    rewrite dict_get_set_same.
    rewrite !(dict_get_set_other _ (py "changes")) by reflexivity. record_fields. }
  destruct (contains (py "summary") _ || contains (py "overview") _).
  { eexists. split; [reflexivity|]. unfold markdown_record.
    rewrite dict_get_set_same.
    rewrite !(dict_get_set_other _ (py "summary")) by reflexivity. record_fields. }
  destruct (contains (py "implementation") _ || contains (py "plan") _).
  { eexists. split; [reflexivity|]. unfold markdown_record.
    rewrite !(dict_get_set_other _ (py "implementation_plan")) by reflexivity. record_fields. }
  unfold setitem_in. rewrite Hd. eexists. split; [reflexivity|]. unfold markdown_record.
  rewrite dict_get_set_same.
  rewrite !(dict_get_set_other _ (py "details")) by reflexivity. record_fields.
Qed.

Lemma parse_markdown_returns content :
  exists d, _parse_markdown_response content = Ok (VDict d) /\ markdown_record d.
Proof.
  unfold _parse_markdown_response.
  destruct (for_each_total markdown_record markdown_section
              (re_split F_NONE section_pattern content)
              (fun st x _ H => markdown_section_total st x H)
              [ (py "changes", VList []); (py "summary", VStr []); (py "details", VDict []) ])
    as (d & E & Hd).
  - record_fields.
  - rewrite E. exists d. split; [reflexivity | exact Hd].
Qed.

(** X5. The markdown parser returns on every text: a record with a list
    under [changes], a string under [summary] and a dictionary under
    [details]. *)
Theorem parse_markdown_response_total content :
  exists d changes summary details,
    _parse_markdown_response content = Ok (VDict d) /\
    dict_get (py "changes") d = Some (VList changes) /\
    dict_get (py "summary") d = Some (VStr summary) /\
    dict_get (py "details") d = Some (VDict details).
Proof.
  destruct (parse_markdown_returns content) as (d & E & (c & Hc) & (s & Hs) & (det & Hd)).
  exists d, c, s, det. auto.
Qed.

(** *** The assembler on the shapes text, yaml and markdown *)

Lemma attach_returns response_file content now d :
  parsers_get (_detect_response_type content) parsers _parse_text_response content
  = Ok (VDict d) ->
  exists r, parse_response response_file content now = Ok (VDict r).
Proof.
  intros H. unfold parse_response. cbv zeta. rewrite H. cbn [bind setitem].
  eexists. reflexivity.
Qed.

(** X1. The assembler returns a record on every text whose shape is not json
    and not mixed. *)
Theorem parse_response_plain_shapes response_file content now :
  _detect_response_type content <> py "json" ->
  _detect_response_type content <> py "mixed" ->
  exists r, parse_response response_file content now = Ok (VDict r).
Proof.
  intros Hj Hm. pose proof (detect_in_tags content) as Hin.
  unfold shape_tags in Hin.
  destruct Hin as [E|[E|[E|[E|[E|[]]]]]]; symmetry in E;
    try contradiction.
  - apply (attach_returns response_file content now
             [ (py "raw_content", VStr content);
               (py "changes", VList (_extract_changes_from_text content));
               (py "summary", VStr (if Nat.ltb 500 (List.length content)
                                    then firstn 500 content ++ py "..."
                                    else content)) ]).
    rewrite E. reflexivity.
  - destruct (parse_markdown_returns content) as (d & Ed & _).
    apply (attach_returns response_file content now d). rewrite E. exact Ed.
  - apply (attach_returns response_file content now
             [ (py "raw_content", VStr content);
               (py "changes", VList (_extract_changes_from_text content));
               (py "summary", VStr (if Nat.ltb 500 (List.length content)
                                    then firstn 500 content ++ py "..."
                                    else content)) ]).
    rewrite E. reflexivity.
Qed.

(** *** The assembler on the shape json *)

Lemma detect_json content :
  _detect_response_type content = py "json" -> is_ok (json_loads content) = true.
Proof.
  unfold _detect_response_type.
  destruct (startswith (py "{") (strip content) || startswith (py "[") (strip content));
    cbn [andb].
  - destruct (is_ok (json_loads content)); [reflexivity|].
    repeat match goal with
           | |- context [if ?c then _ else _] => destruct c
           end; intros H; vm_compute in H; discriminate.
  - repeat match goal with
           | |- context [if ?c then _ else _] => destruct c
           end; intros H; vm_compute in H; discriminate.
Qed.

(** C2, as the code has it. Whenever the assembler returns, the record
    holds [patches], [commits] and [metadata] with the results of the two
    extractors and the metadata of the call, whatever the detected shape.
    The other fields are those of the shape parser, nothing being
    normalised: the record also holds [raw_content], [changes] and
    [summary] for the shapes text and yaml; [changes], [summary] and
    [details] for markdown; [changes], [code_blocks] and [sections] for
    mixed; for json it is the decoded object itself with the three keys
    set, so that it holds any other field only if the object does. *)
Theorem parse_response_fields response_file content now r :
  parse_response response_file content now = Ok r ->
  get_key (py "patches") r = Some (VList (_extract_patches content)) /\
  get_key (py "commits") r = Some (VList (map VStr (_extract_commit_messages content))) /\
  get_key (py "metadata") r
  = Some (metadata_record response_file (_detect_response_type content) now content) /\
  (_detect_response_type content = py "text" \/ _detect_response_type content = py "yaml" ->
   has_key (py "raw_content") r = true /\ has_key (py "changes") r = true /\
   has_key (py "summary") r = true) /\
  (_detect_response_type content = py "markdown" ->
   has_key (py "changes") r = true /\ has_key (py "summary") r = true /\
   has_key (py "details") r = true) /\
  (_detect_response_type content = py "mixed" ->
   has_key (py "changes") r = true /\ has_key (py "code_blocks") r = true /\
   has_key (py "sections") r = true) /\
  (_detect_response_type content = py "json" ->
   exists d,
     json_loads content = Ok (VDict d) /\
     r = VDict
           (dict_set (py "metadata")
              (metadata_record response_file (py "json") now content)
              (dict_set (py "commits") (VList (map VStr (_extract_commit_messages content)))
                 (dict_set (py "patches") (VList (_extract_patches content)) d))) /\
     forall k, str_eqb k (py "patches") = false -> str_eqb k (py "commits") = false ->
               str_eqb k (py "metadata") = false -> get_key k r = dict_get k d).
Proof.
  intros H. apply parse_response_ok in H. destruct H as (d & Hp & ->).
  cbn [get_key].
  split; [|split; [|split; [|split; [|split; [|split]]]]].
  - rewrite dict_get_set_other by reflexivity.
    rewrite dict_get_set_other by reflexivity.
    apply dict_get_set_same.
  - rewrite dict_get_set_other by reflexivity. apply dict_get_set_same.
  - apply dict_get_set_same.
  - intros Ht.
    assert (Hd : _parse_text_response content = Ok (VDict d)).
    { destruct Ht as [Ht | Ht]; rewrite Ht in Hp; exact Hp. }
    unfold _parse_text_response in Hd. inversion Hd; subst d.
    repeat split; apply has_key_after_attach; reflexivity.
  - intros Ht. rewrite Ht in Hp.
    change (_parse_markdown_response content = Ok (VDict d)) in Hp.
    apply parse_markdown_keys in Hp. destruct Hp as (H1 & H2 & H3).
    repeat split; apply has_key_after_attach; assumption.
  - intros Ht. rewrite Ht in Hp.
    change (_parse_mixed_response content = Ok (VDict d)) in Hp.
    apply parse_mixed_keys in Hp. destruct Hp as (H1 & H2 & H3).
    repeat split; apply has_key_after_attach; assumption.
  - intros Ht. pose proof (detect_json content Ht) as Hok. rewrite Ht in Hp |- *.
    change (_parse_json_response content = Ok (VDict d)) in Hp.
    unfold _parse_json_response in Hp.
    destruct (json_loads content) as [v|e]; [|discriminate].
    inversion Hp; subst v. exists d. split; [reflexivity|]. split; [reflexivity|].
    intros k H1 H2 H3. rewrite !dict_get_set_other by assumption. reflexivity.
Qed.

(** X2. On a text of shape json the JSON parser returns what [json.loads]
    returns, its two fallbacks taking no part. When that is an object,
    the assembler returns it with [patches], [commits] and [metadata]
    set and every other key as decoded; when it is anything else, the
    assembler raises [TypeError]. *)
Theorem parse_response_json_shape response_file content now :
  _detect_response_type content = py "json" ->
  exists v,
    json_loads content = Ok v /\ _parse_json_response content = Ok v /\
    match v with
    | VDict d =>
        exists r,
          parse_response response_file content now = Ok (VDict r) /\
          forall k, str_eqb k (py "patches") = false -> str_eqb k (py "commits") = false ->
                    str_eqb k (py "metadata") = false -> dict_get k r = dict_get k d
    | _ => parse_response response_file content now = Raise TypeError
    end.
Proof.
  intros Hd. pose proof (detect_json content Hd) as Hok.
  destruct (json_loads content) as [v|e] eqn:Hj; [|discriminate].
  exists v. split; [reflexivity|].
  assert (Hp : _parse_json_response content = Ok v).
  { unfold _parse_json_response. rewrite Hj. reflexivity. }
  split; [exact Hp|].
  assert (Hu : parse_response response_file content now
               = (parsed_data <- setitem (py "patches") (VList (_extract_patches content)) v ;;
                  parsed_data <- setitem (py "commits")
                                   (VList (map VStr (_extract_commit_messages content)))
                                   parsed_data ;;
                  setitem (py "metadata")
                          (VDict [ (py "response_file", VStr response_file);
                                   (py "response_type", VStr (py "json"));
                                   (py "parsed_at", VStr now);
                                   (py "content_length",
                                    VInt (Z.of_nat (List.length content))) ])
                          parsed_data)).
  { unfold parse_response. cbv zeta. rewrite Hd.
    change (parsers_get (py "json") parsers _parse_text_response)
      with _parse_json_response.
    rewrite Hp. reflexivity. }
  rewrite Hu. destruct v; try reflexivity.
  cbn [bind setitem]. eexists. split; [reflexivity|].
  intros k H1 H2 H3. rewrite !dict_get_set_other by assumption. reflexivity.
Qed.

(** *** The JSON parser on its own *)

(** X8. The JSON parser on a text that [json.loads] rejects and that
    holds no fence tagged json: the search for a fenced block finds
    nothing, and the parser returns the dictionary of the key-value
    lines of the text. *)
Theorem parse_json_response_no_fence content :
  json_loads content = Raise JSONDecodeError ->
  contains (py "```json") content = false ->
  _parse_json_response content = Ok (VDict (_extract_structured_data content)).
Proof.
  intros Hj Hno. unfold _parse_json_response. rewrite Hj.
  destruct (re_search F_S json_pattern content) as [m|] eqn:E; [exfalso|reflexivity].
  assert (Hs : is_some (re_search F_S json_pattern content) = true)
    by (rewrite E; reflexivity).
  apply re_search_iff in Hs. destruct Hs as (pre & post & cu' & Hc & Hm).
  change json_pattern with (Seq (Lit (py "```json")) (ws_body_tail 1)) in Hm.
  cbn [matches] in Hm. destruct Hm as (mid & H1 & _).
  apply matches_Lit in H1; [|reflexivity]. destruct H1 as (rest & Hpost & _).
  assert (Hx : contains (py "```json") content = true).
  { apply contains_iff. exists pre, rest. rewrite Hc, Hpost. reflexivity. }
  exact (eq_true_false_abs _ Hx Hno).
Qed.

(** *** Mixed responses *)

Lemma mixed_json_block_total result block :
  (forall d, json_loads block = Ok (VDict d) ->
             dict_has (py "changes") d = true \/
             (dict_has (py "code_blocks") d = false /\ dict_has (py "sections") d = false)) ->
  mixed_record result ->
  exists result', mixed_json_block result block = Ok result' /\ mixed_record result'.
Proof.
  intros Hsafe ((c & Hc) & (cb & Hcb) & (s & Hs)).
  assert (Hkeep : exists result', Ok result = Ok result' /\ mixed_record result').
  { exists result. split; [reflexivity | record_fields]. }
  assert (Hext : forall x,
             exists result',
               match extend_in (py "changes") x result with
               | Ok r => Ok r
               | Raise _ => Ok result
               end = Ok result' /\ mixed_record result').
  { intros x. unfold extend_in. rewrite Hc.
    destruct (iter_values x) as [items|e]; cbn [bind]; [|exact Hkeep].
    eexists. split; [reflexivity|]. unfold mixed_record.
    rewrite dict_get_set_same.
    rewrite !(dict_get_set_other _ (py "changes")) by reflexivity. record_fields. }
  unfold mixed_json_block.
  destruct (json_loads block) as [data|e] eqn:Hj; cbn [bind]; [|exact Hkeep].
  destruct data; try exact Hkeep.
  - apply Hext.
  - destruct (dict_has (py "changes") d) eqn:Hch.
    + destruct (dict_get (py "changes") d) as [x|]; [apply Hext | exact Hkeep].
    + destruct (Hsafe d eq_refl) as [Hx|[H1 H2]]; [congruence|].
      eexists. split; [reflexivity|]. unfold mixed_record.
      rewrite !dict_get_update_other by assumption. record_fields.
Qed.

Lemma mixed_code_block_total result m :
  mixed_record result ->
  exists result', mixed_code_block result m = Ok result' /\ mixed_record result' /\
                  dict_get (py "changes") result' = dict_get (py "changes") result.
Proof.
  intros ((c & Hc) & (cb & Hcb) & (s & Hs)). destruct m as [lang code].
  unfold mixed_code_block, append_in. rewrite Hcb.
  eexists. split; [reflexivity|]. split.
  - unfold mixed_record. rewrite dict_get_set_same.
    rewrite !(dict_get_set_other _ (py "code_blocks")) by reflexivity. record_fields.
  - apply dict_get_set_other. reflexivity.
Qed.

Lemma mixed_section_total result section :
  mixed_record result ->
  exists result', mixed_section result section = Ok result' /\ mixed_record result' /\
                  dict_get (py "changes") result' = dict_get (py "changes") result.
Proof.
  intros ((c & Hc) & (cb & Hcb) & (s & Hs)). unfold mixed_section. cbv zeta.
  destruct (negb (nonempty (strip section)));
    [exists result; split; [reflexivity | split; [record_fields | reflexivity]]|].
  destruct (nonempty (section_title section) && nonempty (section_body section));
    [|exists result; split; [reflexivity | split; [record_fields | reflexivity]]].
  unfold setitem_in. rewrite Hs. eexists. split; [reflexivity|]. split.
  - unfold mixed_record. rewrite dict_get_set_same.
    rewrite !(dict_get_set_other _ (py "sections")) by reflexivity. record_fields.
  - apply dict_get_set_other. reflexivity.
Qed.

(** The second and the third loop of the mixed parser return and leave
    [changes] as it is. *)
Lemma mixed_blocks_sections content d1 :
  mixed_record d1 ->
  exists d3,
    (result <- for_each mixed_code_block (re_findall2 F_S code_pattern content) d1 ;;
     result <- for_each mixed_section (re_split F_NONE section_pattern content) result ;;
     Ok (VDict result)) = Ok (VDict d3) /\
    mixed_record d3 /\ dict_get (py "changes") d3 = dict_get (py "changes") d1.
Proof.
  intros H1.
  destruct (for_each_total
              (fun d => mixed_record d /\
                        dict_get (py "changes") d = dict_get (py "changes") d1)
              mixed_code_block (re_findall2 F_S code_pattern content)) with (st := d1)
    as (d2 & E2 & H2 & Hc2).
  { intros st x _ [Hst Hch].
    destruct (mixed_code_block_total st x Hst) as (st' & E & Hst' & Hch').
    exists st'. split; [exact E|]. split; [exact Hst'|]. rewrite Hch'. exact Hch. }
  { split; [exact H1 | reflexivity]. }
  rewrite E2. cbn [bind].
  destruct (for_each_total
              (fun d => mixed_record d /\
                        dict_get (py "changes") d = dict_get (py "changes") d1)
              mixed_section (re_split F_NONE section_pattern content)) with (st := d2)
    as (d3 & E3 & H3 & Hc3).
  { intros st x _ [Hst Hch].
    destruct (mixed_section_total st x Hst) as (st' & E & Hst' & Hch').
    exists st'. split; [exact E|]. split; [exact Hst'|]. rewrite Hch'. exact Hch. }
  { split; [exact H2 | exact Hc2]. }
  rewrite E3. cbn [bind]. exists d3. auto.
Qed.

(** X3. The mixed parser returns a record (a list under [changes], a list
    under [code_blocks], a dictionary under [sections]) when no fenced
    json block of the text decodes to an object that lacks [changes] and
    holds [code_blocks] or [sections]. *)
Theorem parse_mixed_response_returns content :
  (forall block d,
      In block (re_findall1 F_S json_pattern content) ->
      json_loads block = Ok (VDict d) ->
      dict_has (py "changes") d = true \/
      (dict_has (py "code_blocks") d = false /\ dict_has (py "sections") d = false)) ->
  exists d changes code_blocks sections,
    _parse_mixed_response content = Ok (VDict d) /\
    dict_get (py "changes") d = Some (VList changes) /\
    dict_get (py "code_blocks") d = Some (VList code_blocks) /\
    dict_get (py "sections") d = Some (VDict sections).
Proof.
  intros Hsafe. unfold _parse_mixed_response.
  destruct (for_each_total mixed_record mixed_json_block
              (re_findall1 F_S json_pattern content)
              (fun st x Hx H => mixed_json_block_total st x (fun d => Hsafe x d Hx) H)
              [ (py "changes", VList []); (py "code_blocks", VList []);
                (py "sections", VDict []) ])
    as (d1 & E1 & H1).
  { record_fields. }
  rewrite E1. cbn [bind].
  destruct (mixed_blocks_sections content d1 H1)
    as (d3 & E3 & ((c & Hc) & (cb & Hcb) & (s & Hs)) & _).
  rewrite E3. exists d3, c, cb, s. auto.
Qed.

(** X4. The mixed parser takes its changes from fenced json blocks only: on a
    text without such a fence it returns a record whose [changes] is the
    empty list, whatever patch or code blocks the text holds. *)
Theorem mixed_changes_need_json_block content :
  contains (py "```json") content = false ->
  exists d code_blocks sections,
    _parse_mixed_response content = Ok (VDict d) /\
    dict_get (py "changes") d = Some (VList []) /\
    dict_get (py "code_blocks") d = Some (VList code_blocks) /\
    dict_get (py "sections") d = Some (VDict sections).
Proof.
  intros Hno.
  assert (Hnone : re_findall1 F_S json_pattern content = []).
  { unfold re_findall1.
    replace (re_finditer F_S json_pattern content) with (@nil rmatch); [reflexivity|].
    symmetry. apply no_elements. intros m Hm.
    change json_pattern with (Seq (Lit (py "```json")) (ws_body_tail 1)) in Hm.
    apply finditer_prefix in Hm; [|reflexivity].
    apply startswith_contains in Hm.
    pose proof (contains_trans _ _ _ Hm (group0_contains content m)) as Hx.
    exact (eq_true_false_abs _ Hx Hno). }
  unfold _parse_mixed_response. rewrite Hnone. cbn [for_each bind].
  destruct (mixed_blocks_sections content
              [ (py "changes", VList []); (py "code_blocks", VList []);
                (py "sections", VDict []) ])
    as (d3 & E3 & (_ & (cb & Hcb) & (s & Hs)) & Hch).
  { record_fields. }
  rewrite E3. exists d3, cb, s. split; [reflexivity|]. split; [|auto].
  rewrite Hch. reflexivity.
Qed.

(** *** Plain text *)

(** X7. The text parser keeps the whole text under [raw_content]; its
    [summary] has at most 503 characters and begins as the text does. *)
Theorem text_summary_bounded content :
  exists d summary,
    _parse_text_response content = Ok (VDict d) /\
    dict_get (py "raw_content") d = Some (VStr content) /\
    dict_get (py "summary") d = Some (VStr summary) /\
    List.length summary <= 503 /\
    firstn 500 summary = firstn 500 content.
Proof.
  unfold _parse_text_response. eexists. eexists. split; [reflexivity|].
  split; [reflexivity|]. split; [reflexivity|].
  destruct (Nat.ltb 500 (List.length content)) eqn:E.
  - apply Nat.ltb_lt in E. split.
    + rewrite length_app, length_firstn. change (List.length (py "...")) with 3. lia.
    + rewrite firstn_app, length_firstn.
      replace (500 - Nat.min 500 (List.length content)) with 0 by lia.
      change (firstn 0 (py "...")) with (@nil char).
      rewrite app_nil_r. rewrite firstn_firstn.
      replace (Nat.min 500 500) with 500 by reflexivity. reflexivity.
  - apply Nat.ltb_ge in E. split; [lia | reflexivity].
Qed.
(* ================================================================= *)
(** ** Markdown parser: the three sections after other text *)






(* ================================================================= *)
(** ** Fenced blocks that are found *)

Lemma startswith_app w t : startswith w (w ++ t) = true.
Proof.
  induction w as [|a w IH]; [reflexivity|].
  cbn [app startswith]. rewrite N.eqb_refl. exact IH.
Qed.

Lemma match_at_lit_none fl w r ma pre post :
  IGNORECASE fl = false -> w <> [] -> startswith w post = false ->
  match_at fl (Seq (Lit w) r) ma (cur pre post) = None.
Proof.
  intros Hi Hw Hs. unfold match_at. rewrite mt_Seq, mt_Lit by assumption.
  cbn [cur c_rest]. rewrite Hs. reflexivity.
Qed.

(** No fence opens in a text without backticks. *)
Lemma no_backtick_no_fence fl w r pre skip rest :
  IGNORECASE fl = false -> no_backtick skip = true ->
  forall s1 s2, skip = s1 ++ s2 -> s2 <> [] ->
    match_at fl (Seq (Lit (96%N :: w)) r) false (cur (pre ++ s1) (s2 ++ rest)) = None.
Proof.
  intros Hi Hb s1 s2 Hs Hne. apply match_at_lit_none; [exact Hi | discriminate |].
  destruct s2 as [|x s2]; [contradiction|].
  rewrite Hs in Hb. apply no_backtick_suffix in Hb.
  unfold no_backtick in Hb. cbn [forallb] in Hb.
  apply andb_true_iff in Hb. destruct Hb as [Hx _]. apply negb_true_iff in Hx.
  cbn [app startswith]. rewrite N.eqb_sym, Hx. reflexivity.
Qed.

(** [\s*\n(.*?)\n```] from the end of the opening fence line. *)
Lemma mt_ws_tail fl n (k : kont) pre c body rest cs x :
  IGNORECASE fl = false -> DOTALL fl = true ->
  is_space c = false -> no_backtick (c :: body) = true ->
  k (cur (pre ++ NL :: (c :: body) ++ py "\n```") rest)
    ((n, (S (List.length pre), S (List.length pre) + List.length (c :: body))) :: cs)
  = Some x ->
  mt fl (ws_body_tail n) k (cur pre (NL :: (c :: body) ++ py "\n```" ++ rest)) cs = Some x.
Proof.
  intros Hi Hd Hc Hb Hk. rewrite mt_mtr.
  apply (mtr_ws_tail_first fl n k _ cs c body rest x Hi Hd); try assumption.
  - reflexivity.
  - rewrite <- Hk. f_equal.
    rewrite <- (cur_after_cur pre (NL :: (c :: body) ++ py "\n```") rest).
    f_equal. f_equal. cbn [app]. rewrite <- app_assoc. reflexivity.
Qed.

Lemma k_top_free start cu cs : k_top false start cu cs = Some (cu, cs).
Proof. reflexivity. Qed.

(** The match of [```json\s*\n(.*?)\n```] at a block. *)
Lemma match_at_json_block pre c body rest :
  is_space c = false -> no_backtick (c :: body) = true ->
  match_at F_S json_pattern false
           (cur pre (py "```json" ++ NL :: (c :: body) ++ py "\n```" ++ rest))
  = Some (mkMatch (List.length pre)
                  (cur ((pre ++ py "```json") ++ NL :: (c :: body) ++ py "\n```") rest)
                  [(1, (S (List.length (pre ++ py "```json")),
                        S (List.length (pre ++ py "```json")) + List.length (c :: body)))]).
Proof.
  intros Hc Hb. unfold match_at.
  change json_pattern with (Seq (Lit (py "```json")) (ws_body_tail 1)).
  rewrite mt_Seq, mt_Lit by (reflexivity || discriminate).
  cbn [cur c_rest c_pos]. rewrite startswith_app.
  fold (cur pre (py "```json" ++ NL :: (c :: body) ++ py "\n```" ++ rest)).
  rewrite cur_after_cur.
  rewrite (mt_ws_tail F_S 1 _ (pre ++ py "```json") c body rest []
             (cur ((pre ++ py "```json") ++ NL :: (c :: body) ++ py "\n```") rest,
              [(1, (S (List.length (pre ++ py "```json")),
                    S (List.length (pre ++ py "```json")) + List.length (c :: body)))]));
    try reflexivity; assumption.
Qed.

Lemma slice_group pre w g tail :
  slice (pre ++ w ++ NL :: g ++ tail)
        (S (List.length (pre ++ w))) (S (List.length (pre ++ w)) + List.length g) = g.
Proof.
  replace (pre ++ w ++ NL :: g ++ tail) with ((pre ++ w ++ [NL]) ++ g ++ tail)
    by (rewrite <- !app_assoc; reflexivity).
  replace (S (List.length (pre ++ w))) with (List.length (pre ++ w ++ [NL]))
    by (rewrite !length_app; cbn [List.length]; lia).
  apply slice_middle_app.
Qed.

(** X9. The JSON parser on a text that is not JSON and holds a fenced json
    block after text without backticks: the parser returns what the
    block decodes to, when it does. *)
Theorem parse_json_fenced_block pre c body rest v :
  json_loads (pre ++ py "```json" ++ NL :: (c :: body) ++ py "\n```" ++ rest)
  = Raise JSONDecodeError ->
  no_backtick pre = true -> is_space c = false -> no_backtick (c :: body) = true ->
  json_loads (c :: body) = Ok v ->
  _parse_json_response (pre ++ py "```json" ++ NL :: (c :: body) ++ py "\n```" ++ rest)
  = Ok v.
Proof.
  intros Hj Hpre Hc Hb Hv. unfold _parse_json_response. rewrite Hj.
  unfold re_search.
  match goal with
  | |- context [search_from ?fl ?r false 0 None ?s] =>
      change (search_from fl r false 0 None s)
        with (search_from fl r false (List.length (@nil char)) (last_char []) s)
  end.
  rewrite (search_from_skip F_S json_pattern pre []).
  - change ([] ++ pre) with pre.
    rewrite (search_from_here F_S json_pattern false _ _ _ _
               (match_at_json_block pre c body rest Hc Hb)).
    unfold group. cbn [m_caps cap_get Nat.eqb].
    rewrite (slice_group pre (py "```json") (c :: body) (py "\n```" ++ rest)).
    rewrite Hv. reflexivity.
  - intros s1 s2 Hs Hne.
    change json_pattern with (Seq (Lit (96%N :: py "``json")) (ws_body_tail 1)).
    apply (no_backtick_no_fence F_S _ _ [] pre); try assumption. reflexivity.
Qed.

(** The match of [```(?:patch|diff)\s*\n(.*?)\n```] at a block. *)
Lemma match_at_diff_block pre tag c body rest :
  tag = py "patch" \/ tag = py "diff" ->
  is_space c = false -> no_backtick (c :: body) = true ->
  match_at F_SM fenced_diff_pattern false
           (cur pre (py "```" ++ tag ++ NL :: (c :: body) ++ py "\n```" ++ rest))
  = Some (mkMatch (List.length pre)
                  (cur (((pre ++ py "```") ++ tag) ++ NL :: (c :: body) ++ py "\n```") rest)
                  [(1, (S (List.length ((pre ++ py "```") ++ tag)),
                        S (List.length ((pre ++ py "```") ++ tag))
                        + List.length (c :: body)))]).
Proof.
  intros Htag Hc Hb. unfold match_at.
  change fenced_diff_pattern
    with (Seq (Lit (py "```"))
              (Seq (Alt (Lit (py "patch")) (Lit (py "diff"))) (ws_body_tail 1))).
  rewrite mt_Seq, mt_Lit by (reflexivity || discriminate).
  cbn [cur c_rest c_pos]. rewrite startswith_app.
  fold (cur pre (py "```" ++ tag ++ NL :: (c :: body) ++ py "\n```" ++ rest)).
  rewrite cur_after_cur. rewrite mt_Seq, mt_Alt.
  assert (Hfin : forall w,
             w <> [] ->
             mt F_SM (Lit w) (mt F_SM (ws_body_tail 1) (k_top false (List.length pre)))
                (cur (pre ++ py "```") (w ++ NL :: (c :: body) ++ py "\n```" ++ rest)) []
             = Some (cur (((pre ++ py "```") ++ w) ++ NL :: (c :: body) ++ py "\n```") rest,
                     [(1, (S (List.length ((pre ++ py "```") ++ w)),
                           S (List.length ((pre ++ py "```") ++ w))
                           + List.length (c :: body)))])).
  { intros w Hw. rewrite mt_Lit by (reflexivity || exact Hw).
    cbn [cur c_rest]. rewrite startswith_app.
    fold (cur (pre ++ py "```") (w ++ NL :: (c :: body) ++ py "\n```" ++ rest)).
    rewrite cur_after_cur.
    apply mt_ws_tail; try reflexivity; assumption. }
  destruct Htag as [-> | ->].
  - rewrite Hfin by discriminate. reflexivity.
  - rewrite (mt_Lit F_SM (py "patch")) by (reflexivity || discriminate).
    cbn [cur c_rest].
    change (startswith (py "patch") (py "diff" ++ ?t)) with false. cbv iota.
    rewrite Hfin by discriminate. reflexivity.
Qed.

Lemma first_header_skip skip t :
  forallb (fun c => negb (c =? 45)%N) skip = true ->
  first_header (skip ++ t) = first_header t.
Proof.
  induction skip as [|x skip IH]; intros H; [reflexivity|].
  cbn [forallb] in H. apply andb_true_iff in H. destruct H as [Hx Hs].
  apply negb_true_iff in Hx. cbn [app first_header].
  assert (Hh : header_here (x :: skip ++ t) = None).
  { unfold header_here. change (py "--- a/") with (45%N :: py "-- a/").
    cbn [startswith]. rewrite N.eqb_sym, Hx. reflexivity. }
  rewrite Hh. apply IH. exact Hs.
Qed.

Lemma first_header_here s x : header_here s = Some x -> first_header s = Some x.
Proof. intros H. destruct s; cbn [first_header]; rewrite H; reflexivity. Qed.

Lemma path_text_line p :
  path_text p = true ->
  forallb (fun c => negb (c =? NL)%N) p = true /\ nonempty p = true /\ no_backtick p = true.
Proof.
  unfold path_text, no_backtick. intros H. apply andb_true_iff in H. destruct H as [Hn Hf].
  rewrite forallb_forall in Hf.
  split; [|split; [exact Hn|]]; apply forallb_forall; intros c Hc;
    specialize (Hf c Hc); apply andb_true_iff in Hf; destruct Hf as [H1 H2];
    assumption.
Qed.

(** The file of a fenced block that begins with a header pair. *)
Lemma header_file_block tag p q more :
  tag = py "patch" \/ tag = py "diff" ->
  path_text p = true -> path_text q = true ->
  header_file (py "```" ++ tag ++ NL
                  :: (py "--- a/" ++ p ++ NL :: py "+++ b/" ++ q ++ NL :: more) ++ py "\n```")
  = p.
Proof.
  intros Htag Hp Hq.
  apply path_text_line in Hp. destruct Hp as (Hp1 & Hp2 & _).
  apply path_text_line in Hq. destruct Hq as (Hq1 & Hq2 & _).
  unfold header_file.
  replace (py "```" ++ tag ++ NL
              :: (py "--- a/" ++ p ++ NL :: py "+++ b/" ++ q ++ NL :: more) ++ py "\n```")
    with ((py "```" ++ tag ++ [NL])
            ++ py "--- a/" ++ p ++ NL :: py "+++ b/" ++ q ++ NL :: (more ++ py "\n```")).
  - rewrite first_header_skip by (destruct Htag as [-> | ->]; reflexivity).
    rewrite (first_header_here _ (p, q)); [reflexivity|].
    apply header_here_lines; assumption.
  - rewrite <- !app_assoc. do 2 f_equal. cbn [app]. do 4 f_equal.
    rewrite <- !app_assoc. cbn [app]. reflexivity.
Qed.

(** X14. A fenced patch or diff block that follows text without backticks and
    begins with the header pair of a path gives the first record of the
    patch extractor: the whole block, both fence lines included, with the
    path of the [a/] side and the format unified_diff. *)
Theorem fenced_patch_first pre tag p q more rest :
  no_backtick pre = true ->
  tag = py "patch" \/ tag = py "diff" ->
  path_text p = true -> path_text q = true -> no_backtick more = true ->
  exists others,
    _extract_patches
      (pre ++ py "```" ++ tag ++ NL
           :: (py "--- a/" ++ p ++ NL :: py "+++ b/" ++ q ++ NL :: more) ++ py "\n```" ++ rest)
    = VDict [ (py "content",
               VStr (py "```" ++ tag ++ NL
                        :: (py "--- a/" ++ p ++ NL :: py "+++ b/" ++ q ++ NL :: more)
                        ++ py "\n```"));
              (py "file", VStr p);
              (py "format", VStr (py "unified_diff")) ]
      :: others.
Proof.
  intros Hpre Htag Hp Hq Hmore.
  set (body := py "-- a/" ++ p ++ NL :: py "+++ b/" ++ q ++ NL :: more).
  assert (Hbody : no_backtick (45%N :: body) = true).
  { apply path_text_line in Hp. destruct Hp as (_ & _ & Hp).
    apply path_text_line in Hq. destruct Hq as (_ & _ & Hq).
    unfold body. change (45%N :: py "-- a/" ++ ?t) with (py "--- a/" ++ t).
    rewrite no_backtick_app, no_backtick_app.
    change (no_backtick (NL :: ?t)) with (no_backtick t).
    rewrite no_backtick_app, no_backtick_app.
    change (no_backtick (NL :: ?t)) with (no_backtick t).
    rewrite Hp, Hq, Hmore. reflexivity. }
  pose proof (match_at_diff_block pre tag 45%N body rest Htag eq_refl Hbody) as Hm.
  pose proof (header_file_block tag p q more Htag Hp Hq) as Hfile.
  change (py "--- a/" ++ p ++ NL :: py "+++ b/" ++ q ++ NL :: more) with (45%N :: body)
    in Hfile |- *.
  set (block := py "```" ++ tag ++ NL :: (45%N :: body) ++ py "\n```") in Hfile |- *.
  set (m := mkMatch (List.length pre)
                    (cur (((pre ++ py "```") ++ tag) ++ NL :: (45%N :: body) ++ py "\n```")
                         rest)
                    [(1, (S (List.length ((pre ++ py "```") ++ tag)),
                          S (List.length ((pre ++ py "```") ++ tag))
                          + List.length (45%N :: body)))]) in Hm.
  assert (Hcontent : pre ++ py "```" ++ tag ++ NL :: (45%N :: body) ++ py "\n```" ++ rest
                     = pre ++ block ++ rest).
  { unfold block. rewrite <- !app_assoc. cbn [app]. rewrite <- !app_assoc. reflexivity. }
  assert (Hend : ((pre ++ py "```") ++ tag) ++ NL :: (45%N :: body) ++ py "\n```"
                 = pre ++ block).
  { unfold block. rewrite <- !app_assoc. reflexivity. }
  assert (Hg0 : group0 (pre ++ block ++ rest) m = block).
  { unfold group0, m_stop, m. cbn [m_start m_end]. rewrite Hend. cbn [cur c_pos].
    apply slice_middle. }
  assert (Hscan : exists ms,
             re_finditer F_SM fenced_diff_pattern (pre ++ block ++ rest) = m :: ms).
  { unfold re_finditer.
    replace (2 * List.length (pre ++ block ++ rest) + 2)
      with (S (2 * List.length (pre ++ block ++ rest) + 1)) by lia.
    change (start_of (pre ++ block ++ rest)) with (cur [] (pre ++ block ++ rest)).
    rewrite (scan_step F_SM fenced_diff_pattern _ [] pre (block ++ rest) m).
    - eauto.
    - change fenced_diff_pattern
        with (Seq (Lit (96%N :: py "``"))
                  (Seq (Alt (Lit (py "patch")) (Lit (py "diff"))) (ws_body_tail 1))).
      apply no_backtick_no_fence; [reflexivity | exact Hpre].
    - change ([] ++ pre) with pre. etransitivity; [|exact Hm]. f_equal. f_equal.
      unfold block. rewrite <- !app_assoc. cbn [app]. rewrite <- !app_assoc. reflexivity.
    - unfold m_stop, m. cbn [m_start m_end]. rewrite Hend. cbn [cur c_pos].
      rewrite length_app. unfold block. rewrite length_app.
      change (List.length (py "```")) with 3. lia. }
  destruct Hscan as (ms & Hscan).
  assert (Hres : exists others,
             _extract_patches (pre ++ block ++ rest)
             = patch_record block p :: others).
  { assert (Hfile' : header_file block = p) by exact Hfile.
    unfold _extract_patches. cbn [diff_patterns flat_map].
    rewrite Hscan. cbn [map app]. rewrite Hg0, diff_record_file, Hfile'.
    eexists. reflexivity. }
  destruct Hres as (others & Hres). exists others.
  etransitivity; [|exact Hres]. f_equal. exact Hcontent.
Qed.
(* ================================================================= *)
(** ** Runs of whitespace and lazy groups, by the text read *)

Lemma length_snoc (pre : pystr) c : S (List.length pre) = List.length (pre ++ [c]).
Proof. rewrite length_app. cbn [List.length]. lia. Qed.

Lemma last_char_snoc pre c : Some c = last_char (pre ++ [c]).
Proof. rewrite last_char_app. reflexivity. Qed.

Lemma greedy_run_full f (k : kont) ws : forall pre t cs res,
  forallb f ws = true ->
  match t with [] => True | x :: _ => f x = false end ->
  k (cur (pre ++ ws) t) cs = Some res ->
  greedy_run f k (List.length pre) (last_char pre) (ws ++ t) cs = Some res.
Proof.
  induction ws as [|c ws IH]; intros pre t cs res Hws Ht Hk.
  - rewrite app_nil_r in Hk. cbn [app].
    destruct t as [|x t]; cbn [greedy_run]; [exact Hk|]. rewrite Ht. exact Hk.
  - cbn [forallb] in Hws. apply andb_true_iff in Hws. destruct Hws as [Hc Hws].
    cbn [app greedy_run]. rewrite Hc.
    rewrite (length_snoc pre c), (last_char_snoc pre c).
    rewrite (IH (pre ++ [c]) t cs res Hws Ht); [reflexivity|].
    rewrite <- app_assoc. exact Hk.
Qed.

Lemma greedy_run_none f g (k : kont) ws : forall pre x t cs,
  fails_unless g k ->
  forallb f ws = true -> f x = false ->
  (forall c, In c ws -> g c = false) -> g x = false ->
  greedy_run f k (List.length pre) (last_char pre) (ws ++ x :: t) cs = None.
Proof.
  induction ws as [|c ws IH]; intros pre x t cs Hk Hws Hx Hg Hgx.
  - cbn [app greedy_run]. rewrite Hx. apply (Hk _ cs x t); [reflexivity | exact Hgx].
  - cbn [forallb] in Hws. apply andb_true_iff in Hws. destruct Hws as [Hc Hws].
    cbn [app greedy_run]. rewrite Hc.
    rewrite (length_snoc pre c), (last_char_snoc pre c).
    rewrite (IH (pre ++ [c]) x t cs Hk Hws Hx); [| |exact Hgx].
    + apply (Hk _ cs c (ws ++ x :: t)); [reflexivity|]. apply Hg. left. reflexivity.
    + intros c' Hc'. apply Hg. right. exact Hc'.
Qed.

Lemma lazy_run_pass f (k : kont) body : forall pre rest cs,
  forallb f body = true ->
  (forall s1 s2, body = s1 ++ s2 -> s2 <> [] ->
                 k (cur (pre ++ s1) (s2 ++ rest)) cs = None) ->
  lazy_run f k (List.length pre) (last_char pre) (body ++ rest) cs
  = lazy_run f k (List.length (pre ++ body)) (last_char (pre ++ body)) rest cs.
Proof.
  induction body as [|c body IH]; intros pre rest cs Hf Hk.
  - rewrite app_nil_r. reflexivity.
  - cbn [forallb] in Hf. apply andb_true_iff in Hf. destruct Hf as [Hc Hf].
    cbn [app lazy_run]. fold (cur pre (c :: body ++ rest)).
    pose proof (Hk [] (c :: body) eq_refl) as H0. rewrite app_nil_r in H0.
    cbn [app] in H0. rewrite H0 by discriminate. rewrite Hc.
    rewrite (length_snoc pre c), (last_char_snoc pre c).
    rewrite IH; [rewrite <- app_assoc; reflexivity | exact Hf |].
    intros s1 s2 Hs Hne. rewrite <- app_assoc. apply (Hk (c :: s1) s2).
    + rewrite Hs. reflexivity.
    + exact Hne.
Qed.

Lemma lazy_run_here f (k : kont) pos prev rest cs res :
  k (mkCur pos prev rest) cs = Some res -> lazy_run f k pos prev rest cs = Some res.
Proof. intros H. destruct rest; cbn [lazy_run]; rewrite H; reflexivity. Qed.

Lemma cls_space fl c : cls_match fl [CSpace] c = is_space c.
Proof. unfold cls_match. cbn [existsb citem_match]. apply orb_false_r. Qed.

Lemma forallb_cls_space fl ws :
  forallb is_space ws = true -> forallb (cls_match fl [CSpace]) ws = true.
Proof.
  intros H. rewrite forallb_forall in H |- *. intros c Hc. rewrite cls_space. auto.
Qed.

(** [\s*] before the pattern [r]: the whitespace is read up to the
    character that is none, when [r] matches from there. *)
Lemma mt_spaces_then fl r (k : kont) pre ws t cs res :
  forallb is_space ws = true ->
  match t with [] => True | x :: _ => is_space x = false end ->
  mt fl r k (cur (pre ++ ws) t) cs = Some res ->
  mt fl (Seq (Star true SPACE) r) k (cur pre (ws ++ t)) cs = Some res.
Proof.
  intros Hws Ht Hk. rewrite mt_Seq. unfold SPACE. rewrite mt_star_cls.
  cbn [cur c_pos c_prev c_rest].
  apply greedy_run_full; [apply forallb_cls_space; exact Hws | | exact Hk].
  destruct t as [|x t]; [exact I|]. rewrite cls_space. exact Ht.
Qed.

(** [\s*] before a pattern that needs a character passing [g], on a text
    whose whitespace and first other character fail [g]. *)
Lemma mt_spaces_none fl r (k : kont) g pre ws x t cs :
  fails_unless g (mt fl r k) ->
  forallb is_space ws = true -> is_space x = false ->
  (forall c, In c ws -> g c = false) -> g x = false ->
  mt fl (Seq (Star true SPACE) r) k (cur pre (ws ++ x :: t)) cs = None.
Proof.
  intros Hk Hws Hx Hg Hgx. rewrite mt_Seq. unfold SPACE. rewrite mt_star_cls.
  cbn [cur c_pos c_prev c_rest].
  apply (greedy_run_none _ g); try assumption.
  - apply forallb_cls_space. exact Hws.
  - rewrite cls_space. exact Hx.
Qed.

(** [(.+?)] before the pattern [r]: the group is the shortest text after
    which [r] matches. *)
Lemma mt_lazy_group fl n r (k : kont) pre g0 g' rest cs res :
  any_match fl g0 = true -> forallb (any_match fl) g' = true ->
  (forall s1 s2 cs', g' = s1 ++ s2 -> s2 <> [] ->
                     mt fl r k (cur (pre ++ g0 :: s1) (s2 ++ rest)) cs' = None) ->
  mt fl r k (cur (pre ++ g0 :: g') rest)
     ((n, (List.length pre, List.length (pre ++ g0 :: g'))) :: cs) = Some res ->
  mt fl (Seq (Group n (Plus false Any)) r) k (cur pre (g0 :: g' ++ rest)) cs = Some res.
Proof.
  intros H0 Hg Hnone Hend. rewrite mt_Seq, mt_Group. unfold Plus.
  rewrite mt_Seq, mt_Any. unfold step_if. cbn [cur c_rest]. rewrite H0.
  fold (cur pre (g0 :: g' ++ rest)). rewrite cur_snoc. rewrite mt_star_any.
  cbn [cur c_pos c_prev c_rest].
  rewrite lazy_run_pass; [|exact Hg|].
  - apply lazy_run_here. fold (cur ((pre ++ [g0]) ++ g') rest). cbn [c_pos].
    rewrite <- app_assoc. exact Hend.
  - intros s1 s2 Hs Hne. cbn [c_pos]. rewrite <- app_assoc. apply (Hnone s1 s2); assumption.
Qed.

(** The whitespace at the front of a text that holds another character. *)
Lemma leading_spaces s :
  existsb (fun c => negb (is_space c)) s = true ->
  exists ws x t, s = ws ++ x :: t /\ forallb is_space ws = true /\ is_space x = false.
Proof.
  induction s as [|c s IH]; cbn [existsb]; [discriminate|].
  destruct (is_space c) eqn:E; cbn [negb orb].
  - intros H. destruct (IH H) as (ws & x & t & -> & Hws & Hx).
    exists (c :: ws), x, t. split; [reflexivity|]. cbn [forallb]. rewrite E, Hws. auto.
  - intros _. exists [], c, s. auto.
Qed.

(** A piece at the end of a trimmed string holds a character that is no
    whitespace. *)
Lemma trimmed_suffix s1 s2 :
  trimmed (s1 ++ s2) = true -> s2 <> [] ->
  existsb (fun c => negb (is_space c)) s2 = true.
Proof.
  unfold trimmed. intros H Hne. apply andb_true_iff in H. destruct H as [_ H].
  rewrite rev_app_distr in H. destruct (rev s2) as [|c r] eqn:E.
  - apply (f_equal (@rev char)) in E. rewrite rev_involutive in E. contradiction.
  - cbn [app] in H. apply existsb_exists. exists c. split; [|exact H].
    apply in_rev. rewrite E. left. reflexivity.
Qed.

Lemma trimmed_strip s : trimmed s = true -> strip s = s.
Proof.
  unfold trimmed. intros H. apply andb_true_iff in H. destruct H as [Hh Hl].
  destruct s as [|c t]; [discriminate|]. apply negb_true_iff in Hh.
  unfold strip. rewrite lstrip_fixed by exact Hh. unfold rstrip.
  destruct (rev (c :: t)) as [|x r] eqn:E; [discriminate|].
  apply negb_true_iff in Hl. rewrite lstrip_fixed by exact Hl.
  rewrite <- E. apply rev_involutive.
Qed.
(* ================================================================= *)
(** ** Key-value lines *)

Lemma matches_after fl a b pre post cu' :
  matches fl (Seq a b) (cur pre post) cu' ->
  exists t post1, post = t ++ post1 /\ matches fl b (cur (pre ++ t) post1) cu'.
Proof.
  intros (mid & Ha & Hb). apply matches_cur in Ha.
  destruct Ha as (t & post1 & -> & ->). eauto.
Qed.

(** A line matched by the key-value pattern holds a colon or an equals
    sign. *)
Lemma kv_match_separator line m :
  re_match F_NONE kv_pattern line = Some m -> In 58%N line \/ In 61%N line.
Proof.
  unfold re_match. change (start_of line) with (cur [] line). intros H.
  apply match_at_cur in H. destruct H as (txt & post' & Hl & _ & _ & H & _).
  rewrite <- Hl in H. clear Hl txt post'.
  change kv_pattern
    with (Seq Bol
              (Seq (Star true SPACE)
                   (Seq (Group 1 (Plus false Any))
                        (Seq (Star true SPACE)
                             (Seq (Cls [CChar 58%N; CChar 61%N])
                                  (Seqs [Star true SPACE; Group 2 (Plus false Any);
                                         Star true SPACE; Eol])))))) in H.
  apply matches_after in H. destruct H as (t1 & p1 & -> & H).
  apply matches_after in H. destruct H as (t2 & p2 & -> & H).
  apply matches_after in H. destruct H as (t3 & p3 & -> & H).
  apply matches_after in H. destruct H as (t4 & p4 & -> & H).
  destruct H as (mid & H & _). cbn [matches] in H.
  apply step_rel_cur in H. destruct H as (c & rest & -> & Hc & _).
  assert (Hin : In c (t1 ++ t2 ++ t3 ++ t4 ++ c :: rest)).
  { repeat (apply in_or_app; right). left. reflexivity. }
  unfold cls_match in Hc. cbn [existsb citem_match] in Hc.
  unfold chr_match in Hc. cbn [IGNORECASE F_NONE NOFLAGS] in Hc.
  rewrite orb_false_r in Hc. apply orb_true_iff in Hc.
  destruct Hc as [Hc|Hc]; apply N.eqb_eq in Hc; subst c; [left | right]; exact Hin.
Qed.

Lemma structured_line_skip result line :
  ~ In 58%N line -> ~ In 61%N line -> structured_line result line = result.
Proof.
  intros H1 H2. unfold structured_line.
  destruct (re_match F_NONE kv_pattern line) as [m|] eqn:E; [|reflexivity].
  apply kv_match_separator in E. destruct E; contradiction.
Qed.

Lemma fold_structured_skip lines : forall result,
  (forall line, In line lines -> ~ In 58%N line /\ ~ In 61%N line) ->
  fold_left structured_line lines result = result.
Proof.
  induction lines as [|l t IH]; intros result H; cbn [fold_left]; [reflexivity|].
  destruct (H l (or_introl eq_refl)) as [H1 H2].
  rewrite (structured_line_skip result l H1 H2). apply IH.
  intros line Hin. apply H. right. exact Hin.
Qed.

(** X10. The scan for key-value lines finds nothing in a text without a colon
    and without an equals sign. *)
Theorem structured_data_needs_separator content :
  contains (py ":") content = false -> contains (py "=") content = false ->
  _extract_structured_data content = [].
Proof.
  intros Hc He. unfold _extract_structured_data. apply fold_structured_skip.
  intros line Hin. apply split_on_contains in Hin.
  split; intros Hx; apply contains_char_In in Hx;
    pose proof (contains_trans _ _ _ Hx Hin) as Hy.
  - exact (eq_true_false_abs _ Hy Hc).
  - exact (eq_true_false_abs _ Hy He).
Qed.

(** *** A line [key: value] *)

Lemma fails_unless_cls fl items r (k : kont) :
  fails_unless (cls_match fl items) (mt fl (Seq (Cls items) r) k).
Proof.
  intros cu cs c t Hr Hg. rewrite mt_Seq, mt_Cls. unfold step_if. rewrite Hr, Hg.
  reflexivity.
Qed.

Lemma fails_unless_eol (k : kont) : fails_unless (fun c => (c =? NL)%N) (mt F_NONE Eol k).
Proof.
  intros cu cs c t Hr Hg. cbn [mt]. unfold at_eol. rewrite Hr, Hg. reflexivity.
Qed.

Lemma blanks_spaces ws : blanks ws = true -> forallb is_space ws = true.
Proof.
  unfold blanks. intros H. rewrite forallb_forall in H |- *. intros c Hc.
  specialize (H c Hc). apply andb_true_iff in H. destruct H as [H _]. exact H.
Qed.

Lemma blanks_line ws : blanks ws = true -> ~ In NL ws.
Proof.
  unfold blanks. intros H Hin. rewrite forallb_forall in H. specialize (H NL Hin).
  discriminate.
Qed.

Lemma split_on_one s : ~ In NL s -> split_on NL s = [s].
Proof.
  induction s as [|c s IH]; intros H; [reflexivity|].
  cbn [split_on]. destruct (c =? NL)%N eqn:E.
  - apply N.eqb_eq in E. exfalso. apply H. left. exact E.
  - rewrite IH; [reflexivity|]. intros Hin. apply H. right. exact Hin.
Qed.

Lemma key_text_parts k :
  key_text k = true ->
  trimmed k = true /\ forallb (any_match F_NONE) k = true /\
  (forall c, In c k -> cls_match F_NONE [CChar 58%N; CChar 61%N] c = false).
Proof.
  unfold key_text. intros H. apply andb_true_iff in H. destruct H as [Ht Hf].
  rewrite forallb_forall in Hf. split; [exact Ht|]. split.
  - apply forallb_forall. intros c Hc. specialize (Hf c Hc).
    apply andb_true_iff in Hf. destruct Hf as [Hf _].
    apply andb_true_iff in Hf. destruct Hf as [Hf _]. exact Hf.
  - intros c Hc. specialize (Hf c Hc).
    apply andb_true_iff in Hf. destruct Hf as [Hf H61].
    apply andb_true_iff in Hf. destruct Hf as [_ H58].
    apply negb_true_iff in H58, H61.
    unfold cls_match. cbn [existsb citem_match]. unfold chr_match.
    cbn [IGNORECASE F_NONE NOFLAGS]. rewrite H58, H61. reflexivity.
Qed.

Lemma space_no_separator c :
  is_space c = true -> cls_match F_NONE [CChar 58%N; CChar 61%N] c = false.
Proof.
  intros H. unfold cls_match. cbn [existsb citem_match]. unfold chr_match.
  cbn [IGNORECASE F_NONE NOFLAGS].
  destruct (c =? 58)%N eqn:E1; [apply N.eqb_eq in E1; subst c; discriminate|].
  destruct (c =? 61)%N eqn:E2; [apply N.eqb_eq in E2; subst c; discriminate|].
  reflexivity.
Qed.

(** The match of the key-value pattern on a line [key: value]. *)
Lemma kv_match k0 k' ws1 sep ws2 v0 v' :
  key_text (k0 :: k') = true -> forallb is_space ws1 = true ->
  sep = 58%N \/ sep = 61%N -> forallb is_space ws2 = true ->
  trimmed (v0 :: v') = true -> forallb (any_match F_NONE) (v0 :: v') = true ->
  mt F_NONE kv_pattern (k_top false 0)
     (cur [] (k0 :: k' ++ ws1 ++ sep :: ws2 ++ v0 :: v' ++ [])) []
  = Some (cur (((((k0 :: k') ++ ws1) ++ [sep]) ++ ws2) ++ v0 :: v') [],
          [ (2, (List.length ((((k0 :: k') ++ ws1) ++ [sep]) ++ ws2),
                 List.length (((((k0 :: k') ++ ws1) ++ [sep]) ++ ws2) ++ v0 :: v')));
            (1, (List.length (@nil char), List.length ([] ++ k0 :: k'))) ]).
Proof.
  intros Hk Hws1 Hsep Hws2 Hv Hvl.
  destruct (key_text_parts _ Hk) as (Hkt & Hkl & Hks).
  assert (Hk0 : is_space k0 = false).
  { unfold trimmed in Hkt. apply andb_true_iff in Hkt. destruct Hkt as [H _].
    apply negb_true_iff in H. exact H. }
  assert (Hv0 : is_space v0 = false).
  { unfold trimmed in Hv. apply andb_true_iff in Hv. destruct Hv as [H _].
    apply negb_true_iff in H. exact H. }
  assert (Hsp : is_space sep = false) by (destruct Hsep as [-> | ->]; reflexivity).
  cbn [forallb] in Hkl, Hvl.
  apply andb_true_iff in Hkl. destruct Hkl as [Hk0l Hkl].
  apply andb_true_iff in Hvl. destruct Hvl as [Hv0l Hvl].
  change kv_pattern
    with (Seq Bol
              (Seq (Star true SPACE)
                   (Seq (Group 1 (Plus false Any))
                        (Seq (Star true SPACE)
                             (Seq (Cls [CChar 58%N; CChar 61%N])
                                  (Seq (Star true SPACE)
                                       (Seq (Group 2 (Plus false Any))
                                            (Seq (Star true SPACE) Eol)))))))).
  rewrite mt_Seq. change (mt F_NONE Bol ?K (cur [] ?s) ?cs) with (K (cur [] s) cs).
  apply (mt_spaces_then F_NONE _ _ [] []); [reflexivity | exact Hk0 |].
  apply (mt_lazy_group F_NONE 1 _ _ [] k0 k'); [exact Hk0l | exact Hkl | |].
  - (* inside the key no separator follows *)
    intros s1 s2 cs' Hs Hne.
    assert (Hex : existsb (fun c => negb (is_space c)) s2 = true).
    { apply (trimmed_suffix (k0 :: s1) s2); [|exact Hne].
      cbn [app]. rewrite <- Hs. exact Hkt. }
    destruct (leading_spaces s2 Hex) as (ws & x & t & Hs2 & Hws & Hx).
    rewrite Hs2, <- app_assoc. cbn [app].
    apply (mt_spaces_none F_NONE _ _ (cls_match F_NONE [CChar 58%N; CChar 61%N]));
      [apply fails_unless_cls | exact Hws | exact Hx | |].
    + intros c Hc. apply space_no_separator. rewrite forallb_forall in Hws. auto.
    + apply Hks. right. rewrite Hs, Hs2. apply in_or_app. right.
      apply in_or_app. right. left. reflexivity.
  - (* after the key *)
    apply (mt_spaces_then F_NONE _ _ ([] ++ k0 :: k') ws1 (sep :: ws2 ++ v0 :: v' ++ []));
      [exact Hws1 | exact Hsp |].
    rewrite mt_Seq, mt_Cls. unfold step_if. cbn [cur c_rest].
    assert (Hcs : cls_match F_NONE [CChar 58%N; CChar 61%N] sep = true)
      by (destruct Hsep as [-> | ->]; reflexivity).
    rewrite Hcs.
    fold (cur (([] ++ k0 :: k') ++ ws1) (sep :: ws2 ++ v0 :: v' ++ [])).
    rewrite cur_snoc.
    apply (mt_spaces_then F_NONE _ _ _ ws2 (v0 :: v' ++ [])); [exact Hws2 | exact Hv0 |].
    apply (mt_lazy_group F_NONE 2 _ _ _ v0 v'); [exact Hv0l | exact Hvl | |].
    + intros s1 s2 cs' Hs Hne.
      assert (Hex : existsb (fun c => negb (is_space c)) s2 = true).
      { apply (trimmed_suffix (v0 :: s1) s2); [|exact Hne].
        cbn [app]. rewrite <- Hs. exact Hv. }
      destruct (leading_spaces s2 Hex) as (ws & x & t & Hs2 & Hws & Hx).
      rewrite Hs2, app_nil_r.
      assert (Hline : forall c, In c s2 -> (c =? NL)%N = false).
      { intros c Hc. rewrite forallb_forall in Hvl.
        assert (Hin : In c v') by (rewrite Hs; apply in_or_app; right; exact Hc).
        specialize (Hvl c Hin). unfold any_match in Hvl.
        cbn [DOTALL F_NONE NOFLAGS orb] in Hvl. apply negb_true_iff in Hvl. exact Hvl. }
      apply (mt_spaces_none F_NONE _ _ (fun c => (c =? NL)%N));
        [apply fails_unless_eol | exact Hws | exact Hx | |].
      * intros c Hc. apply Hline. rewrite Hs2. apply in_or_app. left. exact Hc.
      * apply Hline. rewrite Hs2. apply in_or_app. right. left. reflexivity.
    + apply (mt_spaces_then F_NONE _ _ _ [] []); [reflexivity | exact I |].
      rewrite app_nil_r. reflexivity.
Qed.

(** X11. A one-line text [key: value] (or [key = value]) gives one entry: the
    key in lower case with its spaces turned into underscores, and the
    value as it stands. *)
Theorem key_value_line k ws1 sep ws2 v :
  key_text k = true -> blanks ws1 = true -> sep = 58%N \/ sep = 61%N ->
  blanks ws2 = true -> value_text v = true ->
  _extract_structured_data (k ++ ws1 ++ sep :: ws2 ++ v)
  = [ (replace_char 32%N 95%N (str_lower k), VStr v) ].
Proof.
  intros Hk Hws1 Hsep Hws2 Hv.
  pose proof Hk as Hk'. apply key_text_parts in Hk'. destruct Hk' as (Hkt & Hkl & _).
  unfold value_text in Hv.
  apply andb_true_iff in Hv. destruct Hv as [Hv Hbrace].
  apply andb_true_iff in Hv. destruct Hv as [Hv Hbracket].
  apply andb_true_iff in Hv. destruct Hv as [Hvt Hvl].
  apply negb_true_iff in Hbrace, Hbracket.
  destruct k as [|k0 k']; [discriminate|]. destruct v as [|v0 v']; [discriminate|].
  set (line := (k0 :: k') ++ ws1 ++ sep :: ws2 ++ v0 :: v').
  assert (Hline : ~ In NL line).
  { unfold line. intros Hin. apply in_app_or in Hin. destruct Hin as [Hin|Hin].
    - rewrite forallb_forall in Hkl. specialize (Hkl NL Hin). discriminate.
    - apply in_app_or in Hin. destruct Hin as [Hin|[Hin|Hin]].
      + exact (blanks_line ws1 Hws1 Hin).
      + destruct Hsep as [-> | ->]; discriminate.
      + apply in_app_or in Hin. destruct Hin as [Hin|Hin].
        * exact (blanks_line ws2 Hws2 Hin).
        * rewrite forallb_forall in Hvl. specialize (Hvl NL Hin). discriminate. }
  assert (Hshape : line = ((((k0 :: k') ++ ws1) ++ [sep]) ++ ws2) ++ v0 :: v').
  { unfold line. rewrite <- !app_assoc. reflexivity. }
  assert (Hm : re_match F_NONE kv_pattern line
               = Some (mkMatch 0
                         (cur (((((k0 :: k') ++ ws1) ++ [sep]) ++ ws2) ++ v0 :: v') [])
                         [ (2, (List.length ((((k0 :: k') ++ ws1) ++ [sep]) ++ ws2),
                                List.length (((((k0 :: k') ++ ws1) ++ [sep]) ++ ws2)
                                               ++ v0 :: v')));
                           (1, (List.length (@nil char),
                                List.length ([] ++ k0 :: k'))) ])).
  { assert (E : forall s,
               match_at F_NONE kv_pattern false (start_of s)
               = match mt F_NONE kv_pattern (k_top false 0) (cur [] s) [] with
                 | Some (cu', cs) => Some (mkMatch 0 cu' cs)
                 | None => None
                 end) by reflexivity.
    assert (Hl : line = k0 :: k' ++ ws1 ++ sep :: ws2 ++ v0 :: v' ++ [])
      by (unfold line; rewrite app_nil_r; reflexivity).
    unfold re_match. rewrite E, Hl.
    rewrite (kv_match k0 k' ws1 sep ws2 v0 v' Hk (blanks_spaces _ Hws1) Hsep
                      (blanks_spaces _ Hws2) Hvt); [reflexivity|].
    apply forallb_forall. intros c Hc. rewrite forallb_forall in Hvl.
    specialize (Hvl c Hc). exact Hvl. }
  unfold _extract_structured_data. fold line. rewrite (split_on_one line Hline).
  cbn [fold_left]. unfold structured_line. rewrite Hm.
  unfold group_or_empty, group. cbn [m_caps cap_get Nat.eqb].
  assert (H1 : slice line (List.length (@nil char)) (List.length ([] ++ k0 :: k'))
               = k0 :: k').
  { unfold line. apply (slice_first (k0 :: k')). }
  assert (H2 : slice line (List.length ((((k0 :: k') ++ ws1) ++ [sep]) ++ ws2))
                     (List.length (((((k0 :: k') ++ ws1) ++ [sep]) ++ ws2) ++ v0 :: v'))
               = v0 :: v').
  { rewrite Hshape. apply slice_last. }
  rewrite H1, H2.
  rewrite (trimmed_strip _ Hkt), (trimmed_strip _ Hvt), Hbrace, Hbracket.
  reflexivity.
Qed.
(* ================================================================= *)
(** ** Lines that are found *)

Lemma chr_match_same fl c : is_ascii c = true -> chr_match fl c c = true.
Proof.
  intros Ha. unfold chr_match. rewrite Ha.
  destruct (IGNORECASE fl); [|apply N.eqb_refl].
  destruct (is_ascii_letter c); apply N.eqb_refl.
Qed.

(** Literal ASCII text of the pattern before the same text, under any
    flags. *)
Lemma mt_Lit_same fl w :
  forallb is_ascii w = true -> w <> [] ->
  forall (k : kont) pre t cs,
    mt fl (Lit w) k (cur pre (w ++ t)) cs = k (cur (pre ++ w) t) cs.
Proof.
  induction w as [|c w IH]; intros Ha Hne k pre t cs; [contradiction|].
  cbn [forallb] in Ha. apply andb_true_iff in Ha. destruct Ha as [Hc Hw].
  destruct w as [|c2 w].
  - change (Lit [c]) with (Chr c).
    change (mt fl (Chr c) k ?cu ?cs) with (step_if (chr_match fl c) k cu cs).
    unfold step_if. cbn [cur c_rest app]. rewrite (chr_match_same fl c Hc).
    fold (cur pre (c :: t)). rewrite cur_snoc. reflexivity.
  - change (Lit (c :: c2 :: w)) with (Seq (Chr c) (Lit (c2 :: w))).
    rewrite mt_Seq.
    change (mt fl (Chr c) ?K ?cu ?cs) with (step_if (chr_match fl c) K cu cs).
    change ((c :: c2 :: w) ++ t) with (c :: (c2 :: w) ++ t).
    unfold step_if. cbn [cur c_rest]. rewrite (chr_match_same fl c Hc).
    fold (cur pre (c :: (c2 :: w) ++ t)). rewrite cur_snoc.
    rewrite (IH Hw) by discriminate. rewrite <- app_assoc. reflexivity.
Qed.

Lemma chr_match_nl fl c : chr_match fl NL c = (c =? NL)%N.
Proof. unfold chr_match. destruct (IGNORECASE fl); reflexivity. Qed.

(** [(?:\n|$)] inside a line, at the end of the text and before a
    newline. *)
Lemma mt_line_end_none fl (k : kont) x t pre cs :
  (x =? NL)%N = false -> mt fl (Alt (Chr NL) Eol) k (cur pre (x :: t)) cs = None.
Proof.
  intros Hx. rewrite mt_Alt. cbn [mt]. unfold step_if, at_eol. cbn [cur c_rest].
  rewrite chr_match_nl, Hx. reflexivity.
Qed.

Lemma mt_line_end_eof fl (k : kont) pre cs :
  mt fl (Alt (Chr NL) Eol) k (cur pre []) cs = k (cur pre []) cs.
Proof. reflexivity. Qed.

Lemma mt_line_end_nl fl (k : kont) pre t cs res :
  k (cur (pre ++ [NL]) t) cs = Some res ->
  mt fl (Alt (Chr NL) Eol) k (cur pre (NL :: t)) cs = Some res.
Proof.
  intros Hk. rewrite mt_Alt. cbn [mt]. unfold step_if. cbn [cur c_rest].
  rewrite chr_match_nl. change (NL =? NL)%N with true. cbv iota.
  fold (cur pre (NL :: t)). rewrite cur_snoc, Hk. reflexivity.
Qed.

(** [(.+?)(?:\n|$)] on the rest of a line: the group is the rest of the
    line. *)
Lemma mt_line_group fl n (k : kont) pre g0 g' tail cs :
  DOTALL fl = false -> forallb (any_match fl) (g0 :: g') = true ->
  line_end tail = true ->
  (forall cu cs', k cu cs' = Some (cu, cs')) ->
  mt fl (Seq (Group n (Plus false Any)) (Alt (Chr NL) Eol)) k
     (cur pre (g0 :: g' ++ tail)) cs
  = Some (cur ((pre ++ g0 :: g') ++ line_break tail) (skipn 1 tail),
          (n, (List.length pre, List.length (pre ++ g0 :: g'))) :: cs).
Proof.
  intros Hd Hg Ht Hk. cbn [forallb] in Hg.
  apply andb_true_iff in Hg. destruct Hg as [Hg0 Hg].
  apply mt_lazy_group; [exact Hg0 | exact Hg | |].
  - intros s1 s2 cs' Hs Hne. destruct s2 as [|x s2]; [contradiction|].
    cbn [app]. apply mt_line_end_none.
    rewrite forallb_forall in Hg.
    assert (Hin : In x g') by (rewrite Hs; apply in_or_app; right; left; reflexivity).
    specialize (Hg x Hin). unfold any_match in Hg. rewrite Hd in Hg.
    apply negb_true_iff in Hg. exact Hg.
  - destruct tail as [|c t].
    + cbn [line_break skipn]. rewrite app_nil_r, mt_line_end_eof. apply Hk.
    + cbn [line_end] in Ht. apply N.eqb_eq in Ht. subst c.
      cbn [line_break skipn]. apply mt_line_end_nl. apply Hk.
Qed.

Lemma k_top_accepts start cu cs : k_top false start cu cs = Some (cu, cs).
Proof. reflexivity. Qed.

(** The first match of a scan, when the pattern matches at the start. *)
Lemma first_finding fl r text m :
  match_at fl r false (cur [] text) = Some m -> m_start m < m_stop m ->
  exists ms, re_finditer fl r text = m :: ms.
Proof.
  intros Hm Hlt. unfold re_finditer.
  replace (2 * List.length text + 2) with (S (2 * List.length text + 1)) by lia.
  change (start_of text) with (cur [] ([] ++ text)).
  rewrite (scan_step fl r _ [] [] text m); [eauto | | exact Hm | exact Hlt].
  intros s1 s2 Hs Hne. destruct s1; destruct s2; try discriminate. contradiction.
Qed.

Lemma one_line_any fl p :
  DOTALL fl = false -> forallb (fun c => negb (c =? NL)%N) p = true ->
  forallb (any_match fl) p = true.
Proof.
  intros Hd H. rewrite forallb_forall in H |- *. intros c Hc.
  unfold any_match. rewrite Hd. exact (H c Hc).
Qed.

(** *** [File: <path>] *)

Lemma match_file_colon p0 p' tail :
  forallb (any_match F_IM) (p0 :: p') = true -> is_space p0 = false ->
  line_end tail = true ->
  exists m,
    match_at F_IM
             (Seqs [L "File:"; Star true SPACE; Group 1 (Plus false Any); Alt (Chr NL) Eol])
             false (cur [] (py "File:" ++ py " " ++ (p0 :: p') ++ tail))
    = Some m /\
    m_start m < m_stop m /\
    group_or_empty (py "File:" ++ py " " ++ (p0 :: p') ++ tail) m 1 = p0 :: p'.
Proof.
  intros Hp Hp0 Ht.
  assert (E : mt F_IM
                 (Seq (Lit (py "File:"))
                      (Seq (Star true SPACE)
                           (Seq (Group 1 (Plus false Any)) (Alt (Chr NL) Eol))))
                 (k_top false 0)
                 (cur [] (py "File:" ++ py " " ++ (p0 :: p') ++ tail)) []
              = Some (cur (((([] ++ py "File:") ++ py " ") ++ p0 :: p') ++ line_break tail)
                          (skipn 1 tail),
                      [(1, (List.length (([] ++ py "File:") ++ py " "),
                            List.length ((([] ++ py "File:") ++ py " ") ++ p0 :: p')))])).
  { rewrite mt_Seq, mt_Lit_same by (reflexivity || discriminate).
    apply (mt_spaces_then F_IM _ _ _ (py " ") ((p0 :: p') ++ tail));
      [reflexivity | exact Hp0 |].
    apply mt_line_group; [reflexivity | exact Hp | exact Ht | apply k_top_accepts]. }
  eexists. split.
  - unfold match_at. cbn [cur c_pos List.length].
    change (Seqs [L "File:"; Star true SPACE; Group 1 (Plus false Any); Alt (Chr NL) Eol])
      with (Seq (Lit (py "File:"))
                (Seq (Star true SPACE)
                     (Seq (Group 1 (Plus false Any)) (Alt (Chr NL) Eol)))).
    fold (cur [] (py "File:" ++ py " " ++ (p0 :: p') ++ tail)).
    rewrite E. reflexivity.
  - split.
    + unfold m_stop. cbn [m_start m_end cur c_pos]. rewrite !length_app.
      cbn [List.length]. lia.
    + unfold group_or_empty, group. cbn [m_caps cap_get Nat.eqb].
      replace (py "File:" ++ py " " ++ (p0 :: p') ++ tail)
        with ((([] ++ py "File:") ++ py " ") ++ (p0 :: p') ++ tail)
        by (rewrite <- !app_assoc; reflexivity).
      apply slice_middle.
Qed.

Lemma match_file_any p0 p' tail :
  forallb (any_match F_IM) (p0 :: p') = true -> is_space p0 = false ->
  line_end tail = true ->
  exists m,
    match_at F_IM
             (Seqs [L "File"; Star true SPACE; Opt true (Cls [CChar 35%N; CChar 58%N]);
                    Star true SPACE; Group 1 (Plus false Any); Alt (Chr NL) Eol])
             false (cur [] (py "File" ++ 58%N :: py " " ++ (p0 :: p') ++ tail))
    = Some m /\
    m_start m < m_stop m /\
    group_or_empty (py "File" ++ 58%N :: py " " ++ (p0 :: p') ++ tail) m 1 = p0 :: p'.
Proof.
  intros Hp Hp0 Ht.
  assert (E : mt F_IM
                 (Seq (Lit (py "File"))
                      (Seq (Star true SPACE)
                           (Seq (Alt (Cls [CChar 35%N; CChar 58%N]) Eps)
                                (Seq (Star true SPACE)
                                     (Seq (Group 1 (Plus false Any))
                                          (Alt (Chr NL) Eol))))))
                 (k_top false 0)
                 (cur [] (py "File" ++ 58%N :: py " " ++ (p0 :: p') ++ tail)) []
              = Some (cur ((((([] ++ py "File") ++ [58%N]) ++ py " ") ++ p0 :: p')
                             ++ line_break tail)
                          (skipn 1 tail),
                      [(1, (List.length ((([] ++ py "File") ++ [58%N]) ++ py " "),
                            List.length (((([] ++ py "File") ++ [58%N]) ++ py " ")
                                           ++ p0 :: p')))])).
  { rewrite mt_Seq, mt_Lit_same by (reflexivity || discriminate).
    apply (mt_spaces_then F_IM _ _ _ [] (58%N :: py " " ++ (p0 :: p') ++ tail));
      [reflexivity | reflexivity |].
    rewrite app_nil_r, mt_Seq, mt_Alt, mt_Cls. unfold step_if. cbn [cur c_rest].
    change (cls_match F_IM [CChar 35%N; CChar 58%N] 58%N) with true. cbv iota.
    fold (cur ([] ++ py "File") (58%N :: py " " ++ (p0 :: p') ++ tail)).
    rewrite cur_snoc.
    rewrite (mt_spaces_then F_IM _ _ _ (py " ") ((p0 :: p') ++ tail) _ _ eq_refl Hp0
               (mt_line_group F_IM 1 _ _ p0 p' tail _ eq_refl Hp Ht
                              (k_top_accepts 0))).
    reflexivity. }
  eexists. split.
  - unfold match_at. cbn [cur c_pos List.length].
    change (Seqs [L "File"; Star true SPACE; Opt true (Cls [CChar 35%N; CChar 58%N]);
                  Star true SPACE; Group 1 (Plus false Any); Alt (Chr NL) Eol])
      with (Seq (Lit (py "File"))
                (Seq (Star true SPACE)
                     (Seq (Alt (Cls [CChar 35%N; CChar 58%N]) Eps)
                          (Seq (Star true SPACE)
                               (Seq (Group 1 (Plus false Any))
                                    (Alt (Chr NL) Eol)))))).
    fold (cur [] (py "File" ++ 58%N :: py " " ++ (p0 :: p') ++ tail)).
    rewrite E. reflexivity.
  - split.
    + unfold m_stop. cbn [m_start m_end cur c_pos]. rewrite !length_app.
      cbn [List.length]. lia.
    + unfold group_or_empty, group. cbn [m_caps cap_get Nat.eqb].
      replace (py "File" ++ 58%N :: py " " ++ (p0 :: p') ++ tail)
        with (((([] ++ py "File") ++ [58%N]) ++ py " ") ++ (p0 :: p') ++ tail)
        by (rewrite <- !app_assoc; reflexivity).
      apply slice_middle.
Qed.

(** X18. A line [File: <path>] is reported twice: the first and the
    second pattern family both capture the path, and nothing removes the
    duplicate. *)
Theorem file_line_reported_twice p tail :
  file_text p = true -> line_end tail = true ->
  exists l1 l2,
    _extract_changes_from_text (py "File: " ++ p ++ tail)
    = VDict [ (py "file_path", VStr p);
              (py "change_type", VStr (py "modify"));
              (py "description", VStr (py "Change detected in " ++ p));
              (py "source", VStr (py "text_extraction")) ]
      :: l1 ++
      VDict [ (py "file_path", VStr p);
              (py "change_type", VStr (py "modify"));
              (py "description", VStr (py "Change detected in " ++ p));
              (py "source", VStr (py "text_extraction")) ]
      :: l2.
Proof.
  intros Hp Ht. unfold file_text in Hp.
  apply andb_true_iff in Hp. destruct Hp as [Hp Hdot].
  apply andb_true_iff in Hp. destruct Hp as [Htr Hline].
  destruct p as [|p0 p']; [discriminate|].
  assert (Hany : forallb (any_match F_IM) (p0 :: p') = true)
    by (apply one_line_any; [reflexivity | exact Hline]).
  assert (Hp0 : is_space p0 = false).
  { unfold trimmed in Htr. apply andb_true_iff in Htr. destruct Htr as [H _].
    apply negb_true_iff in H. exact H. }
  destruct (match_file_colon p0 p' tail Hany Hp0 Ht) as (m1 & Hm1 & Hlt1 & Hg1).
  destruct (match_file_any p0 p' tail Hany Hp0 Ht) as (m2 & Hm2 & Hlt2 & Hg2).
  destruct (first_finding _ _ _ _ Hm1 Hlt1) as (ms1 & Hs1).
  destruct (first_finding _ _ _ _ Hm2 Hlt2) as (ms2 & Hs2).
  change (py "File" ++ 58%N :: py " " ++ (p0 :: p') ++ tail)
    with (py "File:" ++ py " " ++ (p0 :: p') ++ tail) in Hs2, Hg2.
  unfold _extract_changes_from_text. cbn [file_patterns flat_map].
  unfold re_findall1 at 1 2.
  change (py "File: " ++ (p0 :: p') ++ tail)
    with (py "File:" ++ py " " ++ (p0 :: p') ++ tail).
  rewrite Hs1, Hs2. cbn [map flat_map].
  rewrite Hg1, Hg2, (trimmed_strip _ Htr), Hdot. cbn [nonempty andb app].
  unfold change_record. rewrite (trimmed_strip _ Htr).
  eexists. eexists. reflexivity.
Qed.

(** *** A list item as a commit message *)

Lemma chr_match_nonletter fl c x :
  is_ascii c = true -> is_ascii_letter c = false -> chr_match fl c x = (x =? c)%N.
Proof.
  intros Ha Hl. unfold chr_match. rewrite Ha, Hl. destruct (IGNORECASE fl); reflexivity.
Qed.

(** A pattern that goes on with a literal character, not a letter,
    matches only where this character stands in the text. *)
Lemma matches_has_char fl a c r pre post cu' :
  is_ascii c = true -> is_ascii_letter c = false ->
  matches fl (Seq a (Seq (Chr c) r)) (cur pre post) cu' -> In c post.
Proof.
  intros Ha Hl H. apply matches_after in H. destruct H as (t & post1 & -> & H).
  destruct H as (mid & H & _). cbn [matches] in H.
  apply step_rel_cur in H. destruct H as (x & rest & -> & Hx & _).
  rewrite (chr_match_nonletter fl c x Ha Hl) in Hx. apply N.eqb_eq in Hx. subst x.
  apply in_or_app. right. left. reflexivity.
Qed.

Lemma finditer_needs_char fl r c s :
  (forall pre post cu', matches fl r (cur pre post) cu' -> In c post) ->
  ~ In c s -> re_finditer fl r s = [].
Proof.
  intros Hr Hc. apply no_elements. intros m Hm.
  apply re_finditer_sound in Hm. destruct Hm as (pre & txt & post & Hs & _ & _ & Hm).
  apply Hr in Hm. apply Hc. rewrite Hs. apply in_or_app. right. exact Hm.
Qed.

(** The only match of a scan: a match from the start to the end of the
    text, and none at the end. *)
Lemma only_finding fl r text m :
  match_at fl r false (cur [] text) = Some m -> m_start m < m_stop m ->
  m_end m = cur text [] ->
  match_at fl r false (cur text []) = None ->
  re_finditer fl r text = [m].
Proof.
  intros Hm Hlt He Hnone. unfold re_finditer.
  replace (2 * List.length text + 2) with (S (S (2 * List.length text))) by lia.
  change (start_of text) with (cur [] ([] ++ text)).
  rewrite (scan_step fl r _ [] [] text m); [| | exact Hm | exact Hlt].
  - rewrite He. rewrite (scan_end fl r _ text []); [reflexivity | |].
    + intros s1 s2 Hs Hne. destruct s1; destruct s2; try discriminate. contradiction.
    + rewrite app_nil_r. exact Hnone.
  - intros s1 s2 Hs Hne. destruct s1; destruct s2; try discriminate. contradiction.
Qed.

Lemma first_alternative {A : Type} (o y : option A) r :
  o = Some r -> match o with Some x => Some x | None => y end = Some r.
Proof. intros ->. reflexivity. Qed.

Lemma match_list_item b ws m0 m' :
  b = 45%N \/ b = 42%N -> forallb is_space ws = true ->
  forallb (any_match F_IM) (m0 :: m') = true -> is_space m0 = false ->
  mt F_IM
     (Seq Bol
          (Seq (Alt (Chr 45%N) (Alt (Chr 42%N) (Seq (Plus true DIGIT) (Chr 46%N))))
               (Seq (Star true SPACE)
                    (Seq (Group 1 (Plus false Any)) (Alt (Chr NL) Eol)))))
     (k_top false 0) (cur [] (b :: ws ++ (m0 :: m') ++ [])) []
  = Some (cur (((([] ++ [b]) ++ ws) ++ m0 :: m') ++ []) [],
          [(1, (List.length (([] ++ [b]) ++ ws),
                List.length ((([] ++ [b]) ++ ws) ++ m0 :: m')))]).
Proof.
  intros Hb Hws Hm Hm0. rewrite mt_Seq.
  change (mt F_IM Bol ?K (cur [] ?s) ?cs) with (K (cur [] s) cs).
  rewrite mt_Seq.
  assert (Hrest : mt F_IM
                     (Seq (Star true SPACE)
                          (Seq (Group 1 (Plus false Any)) (Alt (Chr NL) Eol)))
                     (k_top false 0) (cur ([] ++ [b]) (ws ++ (m0 :: m') ++ [])) []
                  = Some (cur (((([] ++ [b]) ++ ws) ++ m0 :: m') ++ []) [],
                          [(1, (List.length (([] ++ [b]) ++ ws),
                                List.length ((([] ++ [b]) ++ ws) ++ m0 :: m')))])).
  { apply (mt_spaces_then F_IM _ _ _ ws ((m0 :: m') ++ [])); [exact Hws | exact Hm0 |].
    apply (mt_line_group F_IM 1 _ _ m0 m' []);
      [reflexivity | exact Hm | reflexivity | apply k_top_accepts]. }
  destruct Hb as [-> | ->].
  - rewrite mt_Alt.
    change (mt F_IM (Chr 45%N) ?K ?cu ?cs) with (step_if (chr_match F_IM 45%N) K cu cs).
    unfold step_if at 1. cbn [cur c_rest].
    change (chr_match F_IM 45%N 45%N) with true. cbv iota.
    fold (cur [] (45%N :: ws ++ (m0 :: m') ++ [])). rewrite cur_snoc.
    apply first_alternative. exact Hrest.
  - rewrite mt_Alt.
    change (mt F_IM (Chr 45%N) ?K ?cu ?cs) with (step_if (chr_match F_IM 45%N) K cu cs).
    unfold step_if at 1. cbn [cur c_rest].
    change (chr_match F_IM 45%N 42%N) with false. cbv iota.
    rewrite mt_Alt.
    change (mt F_IM (Chr 42%N) ?K ?cu ?cs) with (step_if (chr_match F_IM 42%N) K cu cs).
    unfold step_if at 1. cbn [cur c_rest].
    change (chr_match F_IM 42%N 42%N) with true. cbv iota.
    fold (cur [] (42%N :: ws ++ (m0 :: m') ++ [])). rewrite cur_snoc.
    apply first_alternative. exact Hrest.
Qed.

Lemma trimmed_last s : trimmed s = true -> exists c, last_char s = Some c /\ is_space c = false.
Proof.
  unfold trimmed, last_char. intros H. apply andb_true_iff in H. destruct H as [_ H].
  destruct (rev s) as [|c r]; [discriminate|]. exists c. split; [reflexivity|].
  apply negb_true_iff in H. exact H.
Qed.

(** X19. A one-line text that is a list item ([-] or [*], blanks, then a
    line of prose longer than ten characters, without a colon and without
    a backtick) yields this prose as its only commit message. *)
Theorem list_item_is_commit_message b ws msg :
  b = 45%N \/ b = 42%N -> blanks ws = true -> prose_text msg = true ->
  _extract_commit_messages (b :: ws ++ msg) = [msg].
Proof.
  intros Hb Hws Hmsg. unfold prose_text in Hmsg.
  apply andb_true_iff in Hmsg. destruct Hmsg as [Hmsg Hchars].
  apply andb_true_iff in Hmsg. destruct Hmsg as [Htr Hlen].
  destruct msg as [|m0 m']; [discriminate|].
  set (text := b :: ws ++ m0 :: m').
  assert (Hm0 : is_space m0 = false).
  { unfold trimmed in Htr. apply andb_true_iff in Htr. destruct Htr as [H _].
    apply negb_true_iff in H. exact H. }
  assert (Hany : forallb (any_match F_IM) (m0 :: m') = true).
  { apply one_line_any; [reflexivity|]. rewrite forallb_forall in Hchars |- *.
    intros c Hc. specialize (Hchars c Hc).
    apply andb_true_iff in Hchars. destruct Hchars as [H _].
    apply andb_true_iff in H. destruct H as [H _]. exact H. }
  assert (Hno : forall c, (c = 58%N \/ c = 96%N) -> ~ In c text).
  { intros c Hc Hin. unfold text in Hin. destruct Hin as [Hin|Hin].
    - destruct Hb as [-> | ->]; destruct Hc as [-> | ->]; discriminate.
    - apply in_app_or in Hin. destruct Hin as [Hin|Hin].
      + apply blanks_spaces in Hws. rewrite forallb_forall in Hws.
        specialize (Hws c Hin). destruct Hc as [-> | ->]; discriminate.
      + rewrite forallb_forall in Hchars. specialize (Hchars c Hin).
        apply andb_true_iff in Hchars. destruct Hchars as [H H96].
        apply andb_true_iff in H. destruct H as [_ H58].
        apply negb_true_iff in H58, H96.
        destruct Hc as [-> | ->]; discriminate. }
  assert (H1 : re_finditer F_IM
                 (Seqs [L "Commit"; Opt true (L " Message"); L ":"; Star true SPACE;
                        Group 1 (Plus false Any); Alt (Chr NL) Eol]) text = []).
  { apply (finditer_needs_char _ _ 58%N); [|apply Hno; left; reflexivity].
    intros pre post cu' H.
    change (Seqs [L "Commit"; Opt true (L " Message"); L ":"; Star true SPACE;
                  Group 1 (Plus false Any); Alt (Chr NL) Eol])
      with (Seq (L "Commit")
                (Seq (Opt true (L " Message"))
                     (Seq (Chr 58%N)
                          (Seqs [Star true SPACE; Group 1 (Plus false Any);
                                 Alt (Chr NL) Eol])))) in H.
    apply matches_after in H. destruct H as (t & post1 & -> & H).
    apply in_or_app. right.
    apply (matches_has_char _ _ 58%N _ _ _ _ eq_refl eq_refl H). }
  assert (H2 : re_finditer F_IM
                 (Seqs [Bol; L "`"; Group 1 (Plus false Any); L "`"; Star true SPACE; Eol])
                 text = []).
  { apply (finditer_needs_char _ _ 96%N); [|apply Hno; right; reflexivity].
    intros pre post cu' H.
    change (Seqs [Bol; L "`"; Group 1 (Plus false Any); L "`"; Star true SPACE; Eol])
      with (Seq Bol
                (Seq (Chr 96%N)
                     (Seqs [Group 1 (Plus false Any); L "`"; Star true SPACE; Eol]))) in H.
    apply (matches_has_char _ _ 96%N _ _ _ _ eq_refl eq_refl H). }
  assert (H3 : re_finditer F_IM
                 (Seqs [L "feat"; Opt true (L "ure"); L ":"; Star true SPACE;
                        Group 1 (Plus false Any); Alt (Chr NL) Eol]) text = []).
  { apply (finditer_needs_char _ _ 58%N); [|apply Hno; left; reflexivity].
    intros pre post cu' H.
    change (Seqs [L "feat"; Opt true (L "ure"); L ":"; Star true SPACE;
                  Group 1 (Plus false Any); Alt (Chr NL) Eol])
      with (Seq (L "feat")
                (Seq (Opt true (L "ure"))
                     (Seq (Chr 58%N)
                          (Seqs [Star true SPACE; Group 1 (Plus false Any);
                                 Alt (Chr NL) Eol])))) in H.
    apply matches_after in H. destruct H as (t & post1 & -> & H).
    apply in_or_app. right.
    apply (matches_has_char _ _ 58%N _ _ _ _ eq_refl eq_refl H). }
  pose proof (match_list_item b ws m0 m' Hb (blanks_spaces _ Hws) Hany Hm0) as Hmt.
  assert (Htext : (((([] ++ [b]) ++ ws) ++ m0 :: m') ++ []) = text).
  { unfold text. rewrite app_nil_r, <- app_assoc. reflexivity. }
  rewrite Htext in Hmt.
  assert (Htext' : b :: ws ++ (m0 :: m') ++ [] = text).
  { unfold text. rewrite app_nil_r. reflexivity. }
  rewrite Htext' in Hmt.
  set (m := mkMatch 0 (cur text [])
                    [(1, (List.length (([] ++ [b]) ++ ws),
                          List.length ((([] ++ [b]) ++ ws) ++ m0 :: m')))]).
  assert (H4 : re_finditer F_IM
                 (Seqs [Bol; Alts [L "-"; L "*"; Seq (Plus true DIGIT) (L ".")];
                        Star true SPACE; Group 1 (Plus false Any); Alt (Chr NL) Eol])
                 text = [m]).
  { apply only_finding.
    - unfold match_at. cbn [cur c_pos List.length].
      change (Seqs [Bol; Alts [L "-"; L "*"; Seq (Plus true DIGIT) (L ".")];
                    Star true SPACE; Group 1 (Plus false Any); Alt (Chr NL) Eol])
        with (Seq Bol
                  (Seq (Alt (Chr 45%N)
                            (Alt (Chr 42%N) (Seq (Plus true DIGIT) (Chr 46%N))))
                       (Seq (Star true SPACE)
                            (Seq (Group 1 (Plus false Any)) (Alt (Chr NL) Eol))))).
      fold (cur [] text). rewrite Hmt. reflexivity.
    - unfold m_stop, m. cbn [m_start m_end cur c_pos]. unfold text.
      cbn [List.length]. lia.
    - reflexivity.
    - unfold match_at.
      change (Seqs [Bol; Alts [L "-"; L "*"; Seq (Plus true DIGIT) (L ".")];
                    Star true SPACE; Group 1 (Plus false Any); Alt (Chr NL) Eol])
        with (Seq Bol
                  (Seq (Alt (Chr 45%N)
                            (Alt (Chr 42%N) (Seq (Plus true DIGIT) (Chr 46%N))))
                       (Seq (Star true SPACE)
                            (Seq (Group 1 (Plus false Any)) (Alt (Chr NL) Eol))))).
      rewrite mt_Seq. cbn [mt]. unfold at_bol. cbn [cur c_prev].
      assert (Hlast : exists c, last_char text = Some c /\ is_space c = false).
      { destruct (trimmed_last _ Htr) as (c & Hc & Hsp). exists c. split; [|exact Hsp].
        unfold text. change (b :: ws ++ m0 :: m') with ((b :: ws) ++ m0 :: m').
        rewrite last_char_app. unfold last_char in Hc.
        destruct (rev (m0 :: m')); [discriminate | exact Hc]. }
      destruct Hlast as (c & -> & Hsp).
      rewrite (is_space_not_newline c Hsp). reflexivity. }
  assert (Hg : group_or_empty text m 1 = m0 :: m').
  { unfold group_or_empty, group, m. cbn [m_caps cap_get Nat.eqb].
    assert (Ht2 : text = (([] ++ [b]) ++ ws) ++ m0 :: m')
      by (rewrite <- Htext, app_nil_r; reflexivity).
    rewrite Ht2 at 1. apply slice_last. }
  unfold _extract_commit_messages. cbn [commit_patterns fold_left]. fold text.
  unfold re_findall1. rewrite H1, H2, H3, H4. cbn [map filter app].
  rewrite Hg, (trimmed_strip _ Htr), Hlen. cbn [map app].
  rewrite (trimmed_strip _ Htr). reflexivity.
Qed.
(* ================================================================= *)
(** ** Patches on one line *)

(** Every diff pattern reads a newline. *)
Lemma diff_patterns_need_newline pattern pre post cu' :
  In pattern diff_patterns -> matches F_SM pattern (cur pre post) cu' -> In NL post.
Proof.
  intros Hp H. destruct Hp as [<-|[<-|[<-|[]]]].
  - cbv [fenced_diff_pattern Seqs L] in H.
    do 2 (apply matches_after in H; destruct H as (? & ? & -> & H);
          apply in_or_app; right).
    apply (matches_has_char _ _ NL _ _ _ _ eq_refl eq_refl H).
  - cbv [raw_diff_pattern Seqs L] in H.
    do 2 (apply matches_after in H; destruct H as (? & ? & -> & H);
          apply in_or_app; right).
    apply (matches_has_char _ _ NL _ _ _ _ eq_refl eq_refl H).
  - cbv [hunk_pattern Seqs L] in H.
    do 8 (apply matches_after in H; destruct H as (? & ? & -> & H);
          apply in_or_app; right).
    apply (matches_has_char _ _ NL _ _ _ _ eq_refl eq_refl H).
Qed.

Lemma one_line_patches content :
  ~ In NL content ->
  _extract_patches content = map replace_record (re_findall2 F_M simple_pattern content).
Proof.
  intros Hnl.
  assert (Hnone : forall pattern, In pattern diff_patterns ->
                                  re_finditer F_SM pattern content = []).
  { intros pattern Hp. apply (finditer_needs_char _ _ NL); [|exact Hnl].
    intros pre post cu'. apply diff_patterns_need_newline. exact Hp. }
  unfold _extract_patches.
  replace (flat_map
             (fun pattern =>
                map (fun m => diff_record (group0 content m))
                    (re_finditer F_SM pattern content))
             diff_patterns)
    with (@nil value); [reflexivity|].
  symmetry. apply no_elements. intros v Hv. apply in_flat_map in Hv.
  destruct Hv as (pattern & Hp & Hv). rewrite (Hnone pattern Hp) in Hv. exact Hv.
Qed.

(** X20. On a text without a newline the patch extractor reports
    replacement directives only: no diff pattern matches within one
    line. *)
Theorem one_line_no_diff content :
  contains (py "\n") content = false ->
  _extract_patches content = map replace_record (re_findall2 F_M simple_pattern content).
Proof.
  intros Hn. apply one_line_patches.
  intros Hin. apply contains_char_In in Hin. exact (eq_true_false_abs _ Hin Hn).
Qed.

(** *** [Replace: "old" -> "new"] *)

Lemma cls_quotes fl c : cls_match fl [CChar QUOTE; CChar 39%N] c = is_quote c.
Proof.
  unfold cls_match, is_quote. cbn [existsb citem_match].
  rewrite !chr_match_nonletter by reflexivity. rewrite orb_false_r. reflexivity.
Qed.

(** The optional quote of the pattern, before a quote and before
    another character. *)
Lemma mt_quote_step fl r (k : kont) pre q t cs res :
  is_quote q = true ->
  mt fl r k (cur (pre ++ [q]) t) cs = Some res ->
  mt fl (Seq (Alt QUOTES Eps) r) k (cur pre (q :: t)) cs = Some res.
Proof.
  intros Hq Hk. rewrite mt_Seq, mt_Alt. unfold QUOTES. rewrite mt_Cls.
  unfold step_if. cbn [cur c_rest]. rewrite cls_quotes, Hq.
  fold (cur pre (q :: t)). rewrite cur_snoc. apply first_alternative. exact Hk.
Qed.

Lemma mt_quote_skip fl r (k : kont) pre x t cs :
  is_quote x = false ->
  mt fl (Seq (Alt QUOTES Eps) r) k (cur pre (x :: t)) cs = mt fl r k (cur pre (x :: t)) cs.
Proof.
  intros Hx. rewrite mt_Seq, mt_Alt. unfold QUOTES. rewrite mt_Cls.
  unfold step_if. cbn [cur c_rest]. rewrite cls_quotes, Hx. reflexivity.
Qed.

Lemma fails_unless_chr fl p r (k : kont) :
  IGNORECASE fl = false ->
  fails_unless (fun c => (c =? p)%N) (mt fl (Seq (Chr p) r) k).
Proof.
  intros Hi cu cs c t Hr Hg. rewrite mt_Seq. cbn [mt]. unfold step_if, chr_match.
  rewrite Hr, Hi, Hg. reflexivity.
Qed.

Lemma mt_chr_step fl p r (k : kont) pre t cs :
  IGNORECASE fl = false ->
  mt fl (Seq (Chr p) r) k (cur pre (p :: t)) cs = mt fl r k (cur (pre ++ [p]) t) cs.
Proof.
  intros Hi. rewrite mt_Seq, mt_Chr by exact Hi.
  change (c_rest (cur pre (p :: t))) with (p :: t). cbn [startswith].
  rewrite N.eqb_refl. cbn [andb].
  change (cur pre (p :: t)) with (cur pre ([p] ++ t)).
  rewrite cur_after_cur. reflexivity.
Qed.

Lemma old_text_parts old :
  old_text old = true ->
  old <> [] /\ forallb (any_match F_M) old = true /\
  (forall c, In c old -> is_quote c = false /\ (c =? ARROW)%N = false).
Proof.
  unfold old_text. intros H. apply andb_true_iff in H. destruct H as [Hn Hf].
  rewrite forallb_forall in Hf. split; [destruct old; [discriminate | discriminate]|].
  split.
  - apply forallb_forall. intros c Hc. specialize (Hf c Hc).
    apply andb_true_iff in Hf. destruct Hf as [Hf _].
    apply andb_true_iff in Hf. destruct Hf as [Hf _]. exact Hf.
  - intros c Hc. specialize (Hf c Hc).
    apply andb_true_iff in Hf. destruct Hf as [Hf Ha].
    apply andb_true_iff in Hf. destruct Hf as [_ Hq].
    apply negb_true_iff in Ha, Hq. split; assumption.
Qed.

Lemma new_text_parts new :
  new_text new = true ->
  new <> [] /\ forallb (any_match F_M) new = true /\
  (forall c, In c new -> is_space c = false /\ is_quote c = false).
Proof.
  unfold new_text. intros H. apply andb_true_iff in H. destruct H as [Hn Hf].
  rewrite forallb_forall in Hf. split; [destruct new; [discriminate | discriminate]|].
  split.
  - apply forallb_forall. intros c Hc. specialize (Hf c Hc).
    apply andb_true_iff in Hf. destruct Hf as [Hf _]. apply negb_true_iff in Hf.
    unfold any_match. cbn [DOTALL F_M orb]. rewrite (is_space_not_newline c Hf). reflexivity.
  - intros c Hc. specialize (Hf c Hc).
    apply andb_true_iff in Hf. destruct Hf as [Hs Hq].
    apply negb_true_iff in Hs, Hq. split; assumption.
Qed.

Lemma quote_not_space q : is_quote q = true -> is_space q = false.
Proof.
  unfold is_quote. intros H. apply orb_true_iff in H.
  destruct H as [H|H]; apply N.eqb_eq in H; subst q; reflexivity.
Qed.

Lemma quote_not_arrow q : is_quote q = true -> (q =? ARROW)%N = false.
Proof.
  unfold is_quote. intros H. apply orb_true_iff in H.
  destruct H as [H|H]; apply N.eqb_eq in H; subst q; reflexivity.
Qed.

Lemma space_not_arrow c : is_space c = true -> (c =? ARROW)%N = false.
Proof.
  intros H. destruct (c =? ARROW)%N eqn:E; [|reflexivity].
  apply N.eqb_eq in E. subst c. discriminate.
Qed.

(** The match of the replacement pattern on a directive with quotes. *)
Lemma match_replace q o0 o' n0 n' :
  is_quote q = true -> old_text (o0 :: o') = true -> new_text (n0 :: n') = true ->
  mt F_M
     (Seq (Lit (py "Replace:"))
          (Seq (Star true SPACE)
               (Seq (Alt QUOTES Eps)
                    (Seq (Group 1 (Plus false Any))
                         (Seq (Alt QUOTES Eps)
                              (Seq (Star true SPACE)
                                   (Seq (Chr ARROW)
                                        (Seq (Star true SPACE)
                                             (Seq (Alt QUOTES Eps)
                                                  (Seq (Group 2 (Plus false Any))
                                                       (Seq (Alt QUOTES Eps)
                                                            (Alt SPACE Eol))))))))))))
     (k_top false 0)
     (cur [] (py "Replace:" ++ py " " ++ q :: o0 :: o' ++ q :: py " " ++ ARROW :: py " "
                 ++ q :: n0 :: n' ++ [q])) []
  = Some (cur ((((((((((([] ++ py "Replace:") ++ py " ") ++ [q]) ++ o0 :: o') ++ [q]) ++ py " ") ++ [ARROW]) ++ py " ") ++ [q]) ++ n0 :: n') ++ [q]) [],
          [ (2, (List.length ((((((((([] ++ py "Replace:") ++ py " ") ++ [q]) ++ o0 :: o') ++ [q]) ++ py " ") ++ [ARROW]) ++ py " ") ++ [q]),
                 List.length (((((((((([] ++ py "Replace:") ++ py " ") ++ [q]) ++ o0 :: o') ++ [q]) ++ py " ") ++ [ARROW]) ++ py " ") ++ [q]) ++ n0 :: n')));
            (1, (List.length ((([] ++ py "Replace:") ++ py " ") ++ [q]),
                 List.length (((([] ++ py "Replace:") ++ py " ") ++ [q]) ++ o0 :: o'))) ]).
Proof.
  intros Hq Hold Hnew.
  destruct (old_text_parts _ Hold) as (_ & Hoany & Hochars).
  destruct (new_text_parts _ Hnew) as (_ & Hnany & Hnchars).
  pose proof (quote_not_space q Hq) as Hqs.
  cbn [forallb] in Hoany, Hnany.
  apply andb_true_iff in Hoany. destruct Hoany as [Ho0 Hoany].
  apply andb_true_iff in Hnany. destruct Hnany as [Hn0 Hnany].
  rewrite mt_Seq, mt_Lit_same by (reflexivity || discriminate).
  apply (mt_spaces_then F_M _ _ _ (py " ")); [reflexivity | exact Hqs |].
  apply (mt_quote_step F_M _ _ _ q); [exact Hq|].
  apply (mt_lazy_group F_M 1 _ _ _ o0 o'); [exact Ho0 | exact Hoany | |].
  - (* inside the text to replace *)
    intros s1 s2 cs' Hs Hne. destruct s2 as [|x s2]; [contradiction|].
    assert (Hx : In x (o0 :: o')).
    { right. rewrite Hs. apply in_or_app. right. left. reflexivity. }
    cbn [app]. rewrite mt_quote_skip by (apply Hochars; exact Hx).
    assert (Hex : existsb (fun c => negb (is_space c)) ((x :: s2) ++ [q]) = true).
    { rewrite existsb_app. cbn [existsb]. rewrite Hqs. cbn [negb orb].
      apply orb_true_r. }
    destruct (leading_spaces _ Hex) as (ws & y & t & Hdec & Hws & Hy).
    replace (x :: s2 ++ q :: py " " ++ ARROW :: py " " ++ q :: n0 :: n' ++ [q])
      with (ws ++ y :: t ++ py " " ++ ARROW :: py " " ++ q :: n0 :: n' ++ [q]).
    + apply (mt_spaces_none F_M _ _ (fun c => (c =? ARROW)%N));
        [apply fails_unless_chr; reflexivity | exact Hws | exact Hy | |].
      * intros c Hc. apply space_not_arrow. rewrite forallb_forall in Hws. auto.
      * assert (Hin : In y ((x :: s2) ++ [q]))
          by (rewrite Hdec; apply in_or_app; right; left; reflexivity).
        apply in_app_or in Hin. destruct Hin as [Hin|[<-|[]]].
        -- apply Hochars. right. rewrite Hs. apply in_or_app. right. exact Hin.
        -- apply quote_not_arrow. exact Hq.
    + change (ws ++ y :: t ++ ?T) with (ws ++ (y :: t) ++ T).
      rewrite app_assoc, <- Hdec, <- app_assoc. reflexivity.
  - (* after the text to replace *)
    apply (mt_quote_step F_M _ _ _ q); [exact Hq|].
    apply (mt_spaces_then F_M _ _ _ (py " ")); [reflexivity | reflexivity |].
    rewrite mt_chr_step by reflexivity.
    apply (mt_spaces_then F_M _ _ _ (py " ")); [reflexivity | exact Hqs |].
    apply (mt_quote_step F_M _ _ _ q); [exact Hq|].
    apply (mt_lazy_group F_M 2 _ _ _ n0 n'); [exact Hn0 | exact Hnany | |].
    + intros s1 s2 cs' Hs Hne. destruct s2 as [|x s2]; [contradiction|].
      assert (Hx : In x (n0 :: n')).
      { right. rewrite Hs. apply in_or_app. right. left. reflexivity. }
      destruct (Hnchars x Hx) as [Hxs Hxq].
      cbn [app]. rewrite mt_quote_skip by exact Hxq.
      rewrite mt_Alt. unfold SPACE. rewrite mt_Cls. unfold step_if. cbn [cur c_rest].
      rewrite cls_space, Hxs. cbn [mt]. unfold at_eol. cbn [cur c_rest].
      rewrite (is_space_not_newline x Hxs). reflexivity.
    + apply (mt_quote_step F_M _ _ _ q); [exact Hq|]. reflexivity.
Qed.

(** X21. A replacement directive with quotes, on one line: the text to
    replace may hold spaces, the replacement is one word. The patch
    extractor returns exactly one record, a simple replacement with the
    two texts and the file unknown. *)
Theorem replace_directive q old new :
  is_quote q = true -> old_text old = true -> new_text new = true ->
  _extract_patches (py "Replace: " ++ q :: old ++ q :: py " → " ++ q :: new ++ [q])
  = [ VDict [ (py "content", VStr (py "-" ++ old ++ py "\n+" ++ new));
              (py "file", VStr (py "unknown"));
              (py "format", VStr (py "simple_replace")) ] ].
Proof.
  intros Hq Hold Hnew.
  destruct (old_text_parts _ Hold) as (Hone & Hoany & _).
  destruct (new_text_parts _ Hnew) as (Hnne & Hnany & _).
  destruct old as [|o0 o']; [contradiction|]. destruct new as [|n0 n']; [contradiction|].
  pose proof (match_replace q o0 o' n0 n' Hq Hold Hnew) as Hmt.
  set (text := py "Replace:" ++ py " " ++ q :: o0 :: o' ++ q :: py " " ++ ARROW :: py " "
                  ++ q :: n0 :: n' ++ [q]) in Hmt.
  change (py "Replace: " ++ q :: (o0 :: o') ++ q :: py " → " ++ q :: (n0 :: n') ++ [q])
    with text.
  assert (Hend : ((((((((((([] ++ py "Replace:") ++ py " ") ++ [q]) ++ o0 :: o') ++ [q]) ++ py " ") ++ [ARROW]) ++ py " ") ++ [q]) ++ n0 :: n') ++ [q]) = text).
  { unfold text. rewrite <- !app_assoc. reflexivity. }
  assert (Hg1 : text = ((([] ++ py "Replace:") ++ py " ") ++ [q]) ++ (o0 :: o')
                         ++ q :: py " " ++ ARROW :: py " " ++ q :: n0 :: n' ++ [q]).
  { unfold text. rewrite <- !app_assoc. reflexivity. }
  assert (Hg2 : text = ((((((((([] ++ py "Replace:") ++ py " ") ++ [q]) ++ o0 :: o') ++ [q]) ++ py " ") ++ [ARROW]) ++ py " ") ++ [q]) ++ (n0 :: n') ++ [q]).
  { unfold text. rewrite <- !app_assoc. reflexivity. }
  set (m := mkMatch 0 (cur text [])
              [ (2, (List.length ((((((((([] ++ py "Replace:") ++ py " ") ++ [q]) ++ o0 :: o') ++ [q]) ++ py " ") ++ [ARROW]) ++ py " ") ++ [q]),
                     List.length (((((((((([] ++ py "Replace:") ++ py " ") ++ [q]) ++ o0 :: o') ++ [q]) ++ py " ") ++ [ARROW]) ++ py " ") ++ [q]) ++ n0 :: n')));
                (1, (List.length ((([] ++ py "Replace:") ++ py " ") ++ [q]),
                     List.length (((([] ++ py "Replace:") ++ py " ") ++ [q]) ++ o0 :: o'))) ]).
  assert (Hline : ~ In NL text).
  { assert (Hq' : q <> NL) by (intros ->; discriminate).
    assert (Ho : ~ In NL (o0 :: o')).
    { intros Hin. rewrite forallb_forall in Hoany. specialize (Hoany NL Hin). discriminate. }
    assert (Hn : ~ In NL (n0 :: n')).
    { intros Hin. rewrite forallb_forall in Hnany. specialize (Hnany NL Hin). discriminate. }
    rewrite <- Hend. intros Hin.
    repeat (apply in_app_or in Hin; destruct Hin as [Hin|Hin]);
      try exact (Ho Hin); try exact (Hn Hin);
      try (destruct Hin as [Hin|[]]; exact (Hq' Hin));
      vm_compute in Hin;
      repeat (destruct Hin as [Hin|Hin]; [discriminate|]); exact Hin. }
  rewrite Hend in Hmt.
  assert (Hall : re_finditer F_M simple_pattern text = [m]).
  { apply only_finding.
    - unfold match_at. cbn [cur c_pos List.length]. fold (cur [] text).
      change simple_pattern
        with (Seq (Lit (py "Replace:"))
                  (Seq (Star true SPACE)
                       (Seq (Alt QUOTES Eps)
                            (Seq (Group 1 (Plus false Any))
                                 (Seq (Alt QUOTES Eps)
                                      (Seq (Star true SPACE)
                                           (Seq (Chr ARROW)
                                                (Seq (Star true SPACE)
                                                     (Seq (Alt QUOTES Eps)
                                                          (Seq (Group 2 (Plus false Any))
                                                               (Seq (Alt QUOTES Eps)
                                                                    (Alt SPACE Eol)))))))))))).
      rewrite Hmt. reflexivity.
    - unfold m_stop, m. cbn [m_start m_end cur c_pos]. unfold text.
      rewrite length_app. change (List.length (py "Replace:")) with 8. lia.
    - reflexivity.
    - change simple_pattern
        with (Seq (Lit (py "Replace:"))
                  (Seqs [Star true SPACE; Opt true QUOTES; Group 1 (Plus false Any);
                         Opt true QUOTES; Star true SPACE; Chr ARROW; Star true SPACE;
                         Opt true QUOTES; Group 2 (Plus false Any); Opt true QUOTES;
                         Alt SPACE Eol])).
      apply match_at_lit_none; [reflexivity | discriminate | reflexivity]. }
  rewrite (one_line_patches text Hline). unfold re_findall2. rewrite Hall.
  cbn [map]. unfold group_or_empty, group, m. cbn [m_caps cap_get Nat.eqb].
  rewrite Hg1 at 1. rewrite slice_middle.
  rewrite Hg2 at 1. rewrite slice_middle.
  reflexivity.
Qed.
(* ================================================================= *)
(** ** Patch extractor: a text made of patch and diff blocks *)











(* ================================================================= *)
(** ** A patch block and a python block *)

(** *** Searching past a block that the pattern does not match *)












(** *** The families that need a hunk mark or the word Replace *)





(** *** The fenced family on the two blocks *)




(** *** The code-block pattern at a block *)






(** *** The mixed parser and the patch extractor on the two blocks *)






End Processor.

(* ================================================================= *)
(** ** Determinism of the classifier *)

(** C9. Classification is a function of the text and of the verdicts of
    the two decoders on it: two calls on identical text, with decoders
    that accept or reject it alike, return the identical tag. *)
Theorem detect_response_type_deterministic
        (uni_decimal uni_alnum : char -> bool) (uni_ci : char -> char -> bool)
        (json_loads1 yaml_safe_load1 json_loads2 yaml_safe_load2 : pystr -> pyresult value)
        (content1 content2 : pystr) :
  content1 = content2 ->
  is_ok (json_loads1 content1) = is_ok (json_loads2 content2) ->
  is_ok (yaml_safe_load1 content1) = is_ok (yaml_safe_load2 content2) ->
  _detect_response_type uni_decimal uni_alnum uni_ci json_loads1 yaml_safe_load1 content1
  = _detect_response_type uni_decimal uni_alnum uni_ci json_loads2 yaml_safe_load2 content2.
Proof.
  intros <- Hj Hy. unfold _detect_response_type. rewrite Hj, Hy. reflexivity.
Qed.

(* ================================================================= *)
(** ** The pipeline on sample texts, with the reference instances *)

Lemma detect_response_type_deterministic_witness :
  _detect_response_type Ref.uni_decimal Ref.uni_alnum Ref.uni_ci
                        Ref.json_loads Ref.yaml_safe_load (py "# Title\n\nSome text")
  = _detect_response_type Ref.uni_decimal Ref.uni_alnum Ref.uni_ci
                          Ref.json_loads Ref.yaml_safe_load (py "# Title\n\nSome text").
Proof.
  apply (detect_response_type_deterministic
           Ref.uni_decimal Ref.uni_alnum Ref.uni_ci
           Ref.json_loads Ref.yaml_safe_load Ref.json_loads Ref.yaml_safe_load
           (py "# Title\n\nSome text") (py "# Title\n\nSome text"));
    reflexivity.
Defined.

Lemma parse_response_json_array_raises_witness :
  parse_response Ref.uni_decimal Ref.uni_alnum Ref.uni_ci Ref.uni_str_lower
                 Ref.json_loads Ref.yaml_safe_load
                 (py "response.json") (py "[]") (py "2024-01-01T00:00:00")
  = Raise TypeError.
Proof.
  apply (parse_response_json_array_raises
           Ref.uni_decimal Ref.uni_alnum Ref.uni_ci Ref.uni_str_lower
           Ref.json_loads Ref.yaml_safe_load
           (py "response.json") (py "[]") (py "2024-01-01T00:00:00") []);
    reflexivity.
Defined.

Lemma yaml_shape_uses_text_parser_witness :
  _detect_response_type Ref.uni_decimal Ref.uni_alnum Ref.uni_ci
                        Ref.json_loads Ref.yaml_safe_load (py "---\ntitle: fix\n")
  = py "yaml" /\
  get_key (py "raw_content")
          (match parse_response Ref.uni_decimal Ref.uni_alnum Ref.uni_ci Ref.uni_str_lower
                                Ref.json_loads Ref.yaml_safe_load
                                (py "reply.txt") (py "---\ntitle: fix\n")
                                (py "2024-01-01T00:00:00") with
           | Ok r => r
           | Raise _ => VNone
           end)
  = Some (VStr (py "---\ntitle: fix\n")).
Proof.
  split; [reflexivity|].
  rewrite (proj2 (yaml_shape_uses_text_parser
                    Ref.uni_decimal Ref.uni_alnum Ref.uni_ci Ref.uni_str_lower
                    Ref.json_loads Ref.yaml_safe_load
                    (py "reply.txt") (py "---\ntitle: fix\n") (py "2024-01-01T00:00:00")
                    eq_refl)).
  reflexivity.
Defined.

(** C2 fails as stated: the record of a mixed-shape text has no
    [summary]. *)
Lemma record_without_summary :
  exists r,
    parse_response Ref.uni_decimal Ref.uni_alnum Ref.uni_ci Ref.uni_str_lower
                   Ref.json_loads Ref.yaml_safe_load
                   (py "reply.md") (py "```diff\n-a\n+b\n```") (py "2024-01-01T00:00:00")
    = Ok r /\
    has_key (py "summary") r = false /\ has_all_fields r = false.
Proof.
  eexists. split; [vm_compute; reflexivity|]. split; reflexivity.
Qed.

Lemma parse_response_fields_witness :
  exists r,
    parse_response Ref.uni_decimal Ref.uni_alnum Ref.uni_ci Ref.uni_str_lower
                   Ref.json_loads Ref.yaml_safe_load
                   (py "reply.md") (py "```diff\n-a\n+b\n```") (py "2024-01-01T00:00:00")
    = Ok r /\
    get_key (py "patches") r
    = Some (VList (_extract_patches Ref.uni_decimal Ref.uni_alnum Ref.uni_ci
                                    (py "```diff\n-a\n+b\n```"))).
Proof.
  eexists. split; [vm_compute; reflexivity|].
  apply (parse_response_fields
           Ref.uni_decimal Ref.uni_alnum Ref.uni_ci Ref.uni_str_lower
           Ref.json_loads Ref.yaml_safe_load
           (py "reply.md") (py "```diff\n-a\n+b\n```") (py "2024-01-01T00:00:00")).
  vm_compute. reflexivity.
Defined.




(** C5 fails as stated, in two places. A text that is valid JSON once
    trimmed of a leading form feed is not decoded by the classifier, which
    hands the untrimmed text to the decoder: the claim says json, the code
    text. A heading followed by a block tagged jsonnet holds no block
    tagged json, patch or diff: the claim says markdown, the code
    mixed. *)
Lemma classifier_departs_from_claim :
  (classify_claimed Ref.json_loads Ref.yaml_safe_load (12%N :: py "{\qa\q: 1}") = py "json" /\
   _detect_response_type Ref.uni_decimal Ref.uni_alnum Ref.uni_ci
                         Ref.json_loads Ref.yaml_safe_load (12%N :: py "{\qa\q: 1}")
   = py "text") /\
  (classify_claimed Ref.json_loads Ref.yaml_safe_load (py "# Title\n```jsonnet\n{}\n```")
   = py "markdown" /\
   _detect_response_type Ref.uni_decimal Ref.uni_alnum Ref.uni_ci
                         Ref.json_loads Ref.yaml_safe_load (py "# Title\n```jsonnet\n{}\n```")
   = py "mixed").
Proof. vm_compute. repeat split; reflexivity. Qed.





(* ================================================================= *)
(** ** The further properties on sample texts, with the reference instances *)

Lemma parse_response_plain_shapes_witness :
  exists r,
    parse_response Ref.uni_decimal Ref.uni_alnum Ref.uni_ci Ref.uni_str_lower
                   Ref.json_loads Ref.yaml_safe_load
                   (py "reply.md") (py "# Title\n\nSome text") (py "2024-01-01T00:00:00")
    = Ok (VDict r).
Proof.
  apply (parse_response_plain_shapes
           Ref.uni_decimal Ref.uni_alnum Ref.uni_ci Ref.uni_str_lower
           Ref.json_loads Ref.yaml_safe_load
           (py "reply.md") (py "# Title\n\nSome text") (py "2024-01-01T00:00:00"));
    intros H; vm_compute in H; discriminate.
Defined.

Lemma parse_response_json_shape_witness :
  exists v,
    Ref.json_loads (py "{\qsummary\q: \qdone\q}") = Ok v /\
    _parse_json_response Ref.uni_decimal Ref.uni_alnum Ref.uni_ci Ref.uni_str_lower
                         Ref.json_loads (py "{\qsummary\q: \qdone\q}") = Ok v /\
    match v with
    | VDict d =>
        exists r,
          parse_response Ref.uni_decimal Ref.uni_alnum Ref.uni_ci Ref.uni_str_lower
                         Ref.json_loads Ref.yaml_safe_load
                         (py "reply.json") (py "{\qsummary\q: \qdone\q}")
                         (py "2024-01-01T00:00:00")
          = Ok (VDict r) /\
          forall k, str_eqb k (py "patches") = false -> str_eqb k (py "commits") = false ->
                    str_eqb k (py "metadata") = false -> dict_get k r = dict_get k d
    | _ =>
        parse_response Ref.uni_decimal Ref.uni_alnum Ref.uni_ci Ref.uni_str_lower
                       Ref.json_loads Ref.yaml_safe_load
                       (py "reply.json") (py "{\qsummary\q: \qdone\q}")
                       (py "2024-01-01T00:00:00")
        = Raise TypeError
    end.
Proof.
  apply (parse_response_json_shape
           Ref.uni_decimal Ref.uni_alnum Ref.uni_ci Ref.uni_str_lower
           Ref.json_loads Ref.yaml_safe_load
           (py "reply.json") (py "{\qsummary\q: \qdone\q}") (py "2024-01-01T00:00:00")).
  vm_compute. reflexivity.
Defined.

Lemma parse_mixed_response_returns_witness :
  exists d changes code_blocks sections,
    _parse_mixed_response Ref.uni_decimal Ref.uni_alnum Ref.uni_ci Ref.json_loads
      (py "```json\n{\qchanges\q: []}\n```\n```python\nprint(1)\n```")
    = Ok (VDict d) /\
    dict_get (py "changes") d = Some (VList changes) /\
    dict_get (py "code_blocks") d = Some (VList code_blocks) /\
    dict_get (py "sections") d = Some (VDict sections).
Proof.
  apply (parse_mixed_response_returns
           Ref.uni_decimal Ref.uni_alnum Ref.uni_ci Ref.json_loads
           (py "```json\n{\qchanges\q: []}\n```\n```python\nprint(1)\n```")).
  intros block d Hin Hj. vm_compute in Hin. destruct Hin as [Hb|[]].
  rewrite <- Hb in Hj. vm_compute in Hj. inversion Hj. left. reflexivity.
Defined.

Lemma mixed_changes_need_json_block_witness :
  exists d code_blocks sections,
    _parse_mixed_response Ref.uni_decimal Ref.uni_alnum Ref.uni_ci Ref.json_loads
      (py "```diff\n--- a/x.py\n+++ b/x.py\n@@ -1 +1 @@\n-a\n+b\n```")
    = Ok (VDict d) /\
    dict_get (py "changes") d = Some (VList []) /\
    dict_get (py "code_blocks") d = Some (VList code_blocks) /\
    dict_get (py "sections") d = Some (VDict sections).
Proof.
  apply (mixed_changes_need_json_block
           Ref.uni_decimal Ref.uni_alnum Ref.uni_ci Ref.json_loads
           (py "```diff\n--- a/x.py\n+++ b/x.py\n@@ -1 +1 @@\n-a\n+b\n```")).
  reflexivity.
Defined.

Lemma markdown_three_sections_witness :
  _parse_markdown_response Ref.uni_decimal Ref.uni_alnum Ref.uni_ci Ref.uni_str_lower
    (py "## Changes\n" ++ py "- File: foo.py\n" ++ py "\n## Summary\n" ++ py "Did things\n"
        ++ py "\n## Notes\n" ++ py "Some note\n")
  = Ok (VDict
          [ (py "changes",
             VList (_extract_changes_from_text Ref.uni_decimal Ref.uni_alnum Ref.uni_ci
                                               (strip (py "- File: foo.py\n"))));
            (py "summary", VStr (strip (py "Did things\n")));
            (py "details", VDict [ (py "Notes", VStr (strip (py "Some note\n"))) ]) ]).
Proof.
  apply (markdown_three_sections
           Ref.uni_decimal Ref.uni_alnum Ref.uni_ci Ref.uni_str_lower
           (py "- File: foo.py\n") (py "Did things\n") (py "Some note\n"));
    reflexivity.
Defined.

Lemma parse_json_fenced_block_witness :
  _parse_json_response Ref.uni_decimal Ref.uni_alnum Ref.uni_ci Ref.uni_str_lower
                       Ref.json_loads
    (py "Here it is:\n" ++ py "```json" ++ NL :: (123%N :: py "\qa\q: [1, 2]}")
        ++ py "\n```" ++ py "\nThanks")
  = Ok (VDict [ (py "a", VList [VInt 1; VInt 2]) ]).
Proof.
  apply (parse_json_fenced_block
           Ref.uni_decimal Ref.uni_alnum Ref.uni_ci Ref.uni_str_lower Ref.json_loads
           (py "Here it is:\n") 123%N (py "\qa\q: [1, 2]}") (py "\nThanks")
           (VDict [ (py "a", VList [VInt 1; VInt 2]) ]));
    vm_compute; reflexivity.
Defined.

Lemma structured_data_needs_separator_witness :
  _extract_structured_data Ref.uni_decimal Ref.uni_alnum Ref.uni_ci Ref.uni_str_lower
                           Ref.json_loads (py "no pairs here\njust words")
  = [].
Proof.
  apply (structured_data_needs_separator
           Ref.uni_decimal Ref.uni_alnum Ref.uni_ci Ref.uni_str_lower Ref.json_loads
           (py "no pairs here\njust words"));
    reflexivity.
Defined.

Lemma key_value_line_witness :
  _extract_structured_data Ref.uni_decimal Ref.uni_alnum Ref.uni_ci Ref.uni_str_lower
                           Ref.json_loads
                           (py "Target File" ++ py " " ++ 58%N :: py "  " ++ py "src/app.py")
  = [ (py "target_file", VStr (py "src/app.py")) ].
Proof.
  apply (key_value_line
           Ref.uni_decimal Ref.uni_alnum Ref.uni_ci Ref.uni_str_lower Ref.json_loads
           (py "Target File") (py " ") 58%N (py "  ") (py "src/app.py"));
    try reflexivity.
  left. reflexivity.
Defined.

Lemma no_marker_no_patch_witness :
  _extract_patches Ref.uni_decimal Ref.uni_alnum Ref.uni_ci
                   (py "Please rename the helper in utils.py.\n")
  = [].
Proof.
  apply (no_marker_no_patch Ref.uni_decimal Ref.uni_alnum Ref.uni_ci
                            (py "Please rename the helper in utils.py.\n"));
    reflexivity.
Defined.

Lemma fenced_patch_first_witness :
  exists others,
    _extract_patches
      Ref.uni_decimal Ref.uni_alnum Ref.uni_ci
      (py "The fix:\n" ++ py "```" ++ py "diff" ++ NL
          :: (py "--- a/" ++ py "x.py" ++ NL :: py "+++ b/" ++ py "x.py" ++ NL
                 :: py "@@ -1 +1 @@\n-a\n+b")
          ++ py "\n```" ++ py "\nDone.")
    = VDict [ (py "content",
               VStr (py "```" ++ py "diff" ++ NL
                        :: (py "--- a/" ++ py "x.py" ++ NL :: py "+++ b/" ++ py "x.py" ++ NL
                               :: py "@@ -1 +1 @@\n-a\n+b")
                        ++ py "\n```"));
              (py "file", VStr (py "x.py"));
              (py "format", VStr (py "unified_diff")) ]
      :: others.
Proof.
  apply (fenced_patch_first
           Ref.uni_decimal Ref.uni_alnum Ref.uni_ci
           (py "The fix:\n") (py "diff") (py "x.py") (py "x.py")
           (py "@@ -1 +1 @@\n-a\n+b") (py "\nDone."));
    try reflexivity.
  right. reflexivity.
Defined.

Lemma no_dot_no_change_witness :
  _extract_changes_from_text Ref.uni_decimal Ref.uni_alnum Ref.uni_ci
                             (py "File: README\n- update the Makefile")
  = [].
Proof.
  apply (no_dot_no_change Ref.uni_decimal Ref.uni_alnum Ref.uni_ci
                          (py "File: README\n- update the Makefile")).
  reflexivity.
Defined.

Lemma file_line_reported_twice_witness :
  exists l1 l2,
    _extract_changes_from_text Ref.uni_decimal Ref.uni_alnum Ref.uni_ci
                               (py "File: " ++ py "src/app.py" ++ py "\nrest")
    = VDict [ (py "file_path", VStr (py "src/app.py"));
              (py "change_type", VStr (py "modify"));
              (py "description", VStr (py "Change detected in " ++ py "src/app.py"));
              (py "source", VStr (py "text_extraction")) ]
      :: l1 ++
      VDict [ (py "file_path", VStr (py "src/app.py"));
              (py "change_type", VStr (py "modify"));
              (py "description", VStr (py "Change detected in " ++ py "src/app.py"));
              (py "source", VStr (py "text_extraction")) ]
      :: l2.
Proof.
  apply (file_line_reported_twice Ref.uni_decimal Ref.uni_alnum Ref.uni_ci
                                  (py "src/app.py") (py "\nrest"));
    reflexivity.
Defined.

Lemma list_item_is_commit_message_witness :
  _extract_commit_messages Ref.uni_decimal Ref.uni_alnum Ref.uni_ci
                           (45%N :: py "  " ++ py "Handle empty input")
  = [py "Handle empty input"].
Proof.
  apply (list_item_is_commit_message Ref.uni_decimal Ref.uni_alnum Ref.uni_ci
                                     45%N (py "  ") (py "Handle empty input")).
  - left. reflexivity.
  - reflexivity.
  - reflexivity.
Defined.

Lemma one_line_no_diff_witness :
  _extract_patches Ref.uni_decimal Ref.uni_alnum Ref.uni_ci
                   (py "--- a/x.py +++ b/x.py @@ -1 +1 @@")
  = map replace_record
        (re_findall2 Ref.uni_decimal Ref.uni_alnum Ref.uni_ci F_M simple_pattern
                     (py "--- a/x.py +++ b/x.py @@ -1 +1 @@")).
Proof.
  apply (one_line_no_diff Ref.uni_decimal Ref.uni_alnum Ref.uni_ci
                          (py "--- a/x.py +++ b/x.py @@ -1 +1 @@")).
  reflexivity.
Defined.

Lemma replace_directive_witness :
  _extract_patches Ref.uni_decimal Ref.uni_alnum Ref.uni_ci
                   (py "Replace: " ++ 39%N :: py "old name" ++ 39%N :: py " → "
                       ++ 39%N :: py "fresh" ++ [39%N])
  = [ VDict [ (py "content", VStr (py "-" ++ py "old name" ++ py "\n+" ++ py "fresh"));
              (py "file", VStr (py "unknown"));
              (py "format", VStr (py "simple_replace")) ] ].
Proof.
  apply (replace_directive Ref.uni_decimal Ref.uni_alnum Ref.uni_ci
                           39%N (py "old name") (py "fresh"));
    reflexivity.
Defined.

Lemma parse_json_response_no_fence_witness :
  _parse_json_response Ref.uni_decimal Ref.uni_alnum Ref.uni_ci Ref.uni_str_lower
                       Ref.json_loads (py "{ status: done\nowner = me")
  = Ok (VDict (_extract_structured_data
                 Ref.uni_decimal Ref.uni_alnum Ref.uni_ci Ref.uni_str_lower
                 Ref.json_loads (py "{ status: done\nowner = me"))).
Proof.
  apply (parse_json_response_no_fence
           Ref.uni_decimal Ref.uni_alnum Ref.uni_ci Ref.uni_str_lower Ref.json_loads
           (py "{ status: done\nowner = me"));
    reflexivity.
Defined.
